(** * Claims processing agent: extraction, validation and routing

    A shallow embedding of [claims_processor.py] (class [ClaimsProcessor]),
    of [process_text_fnol] of [test_claims.py] and of the steps of
    [demo.py].  Python values are embedded as follows.

    - A [str] is a [string] whose characters are read as the code points
      U+0000..U+00FF; the builtin methods used by the program ([lower],
      [strip], [split], [join], [replace], [in]) are defined on that range.
    - A number (an [int] or a [float]) is its exact rational value, or an
      infinity or NaN.  Rounding to binary64 is not modelled; 25000 is a
      binary64 value and the amounts read from a document have at most two
      decimals, so their comparison with the threshold is the exact one.
    - A [dict] with string keys is a [gmap string _].
    - An exception is a value of [exn]; a call that can raise returns an
      [outcome]. *)

From Stdlib Require Import String Ascii ZArith QArith List Lia DecimalString DecimalN.
From stdpp Require Import gmap strings.


(** ** Exceptions *)

Inductive exn : Type :=
| AttributeError
| TypeError
| ValueError
| KeyError
| IndexError
| ReError.

Inductive outcome (A : Type) : Type :=
| Return (a : A)
| Raise (e : exn).

Arguments Return {A} a.
Arguments Raise {A} e.

#[global] Instance outcome_bind : MBind outcome := fun A B f m =>
  match m with
  | Return a => f a
  | Raise e => Raise e
  end.

#[global] Instance outcome_ret : MRet outcome := fun A a => Return a.

(** ** The [str] builtins the program uses *)

Module Str.

Definition code (c : ascii) : N := N_of_ascii c.

(** [c.isspace()] on U+0000..U+00FF: tab, the line breaks, the four
    separators U+001C..U+001F, space, NEL and the no-break space. *)
Definition isspace (c : ascii) : bool :=
  let n := code c in
  ((9 <=? n) && (n <=? 13) || (28 <=? n) && (n <=? 32)
   || (n =? 133) || (n =? 160))%N.

(** [c.lower()]: A..Z and the accented capitals U+00C0..U+00DE (the
    multiplication sign U+00D7 apart) move up by 32. *)
Definition lower_char (c : ascii) : ascii :=
  let n := code c in
  if ((65 <=? n) && (n <=? 90)
      || (192 <=? n) && (n <=? 222) && negb (n =? 215))%N
  then ascii_of_N (n + 32) else c.

Fixpoint lower (s : string) : string :=
  match s with
  | "" => ""
  | String c s' => String (lower_char c) (lower s')
  end.

Fixpoint startswith (p s : string) : bool :=
  match p, s with
  | "", _ => true
  | String a p', String b s' => Ascii.eqb a b && startswith p' s'
  | String _ _, "" => false
  end.

(** [needle in hay] *)
Fixpoint contains (needle hay : string) : bool :=
  startswith needle hay
  || match hay with
     | "" => false
     | String _ hay' => contains needle hay'
     end.

Fixpoint lstrip (s : string) : string :=
  match s with
  | "" => ""
  | String c s' => if isspace c then lstrip s' else s
  end.

Fixpoint rstrip (s : string) : string :=
  match s with
  | "" => ""
  | String c s' =>
      match rstrip s' with
      | "" => if isspace c then "" else String c ""
      | r => String c r
      end
  end.

Definition strip (s : string) : string := rstrip (lstrip s).

(** [s.split()] with no separator: the maximal runs of non-space
    characters, in order.  [word] is the run being read. *)
Fixpoint split_from (word s : string) : list string :=
  match s with
  | "" => match word with "" => [] | _ => [word] end
  | String c s' =>
      if isspace c
      then match word with
           | "" => split_from "" s'
           | _ => word :: split_from "" s'
           end
      else split_from (word +:+ String c "") s'
  end.

Definition split (s : string) : list string := split_from "" s.

(** [sep.join(l)] *)
Fixpoint join (sep : string) (l : list string) : string :=
  match l with
  | [] => ""
  | [x] => x
  | x :: l' => x +:+ sep +:+ join sep l'
  end.

(** [s.replace(old, new)] for a one-character [old]. *)
Fixpoint replace (old : ascii) (new s : string) : string :=
  match s with
  | "" => ""
  | String c s' =>
      if Ascii.eqb c old then new +:+ replace old new s'
      else String c (replace old new s')
  end.

(** [bool(s)] *)
Definition truthy (s : string) : bool :=
  match s with "" => false | _ => true end.

End Str.

(** ** Numbers *)

Inductive pynum : Type :=
| Finite (q : Q)
| PosInf
| NegInf
| NaN.

Module Num.

Definition Qltb (x y : Q) : bool :=
  (Qnum x * QDen y <? Qnum y * QDen x)%Z.

(** [x < n] for a number [x] and an [int] [n]. *)
Definition ltb_int (x : pynum) (n : Z) : bool :=
  match x with
  | Finite q => Qltb q (inject_Z n)
  | NegInf => true
  | PosInf | NaN => false
  end.

(** [bool(x)] *)
Definition truthy (x : pynum) : bool :=
  match x with
  | Finite q => negb (Qnum q =? 0)%Z
  | _ => true
  end.

(** Decimal digits of [n] with a comma before every group of three,
    counted from the right. *)
Fixpoint group3 (rev_digits : list ascii) : list ascii :=
  match rev_digits with
  | a :: b :: c :: ((_ :: _) as rest) => a :: b :: c :: ","%char :: group3 rest
  | l => l
  end.

Definition digits (n : N) : string := NilZero.string_of_uint (N.to_uint n).

Definition with_commas (n : N) : string :=
  string_of_list_ascii (rev (group3 (rev (list_ascii_of_string (digits n))))).

Definition two_digits (n : N) : string :=
  if (n <? 10)%N then "0" +:+ digits n else digits n.

(** [|q| * 100] rounded to the nearest integer, ties to even. *)
Definition round_cents (q : Q) : N :=
  let a := (Z.abs_N (Qnum q) * 100)%N in
  let d := Npos (Qden q) in
  let n := (a / d)%N in
  let r := (a mod d)%N in
  if (d <? 2 * r)%N then (n + 1)%N
  else if (2 * r =? d)%N then (if N.even n then n else n + 1)%N
  else n.

(** [f"{x:,.2f}"] *)
Definition format_comma_2f (x : pynum) : string :=
  match x with
  | Finite q =>
      let c := round_cents q in
      (if (Qnum q <? 0)%Z then "-" else "")
      +:+ with_commas (c / 100) +:+ "." +:+ two_digits (c mod 100)
  | PosInf => "inf"
  | NegInf => "-inf"
  | NaN => "nan"
  end.

(** [f"{n:,}"] for an [int] [n]. *)
Definition format_comma_int (n : Z) : string :=
  (if (n <? 0)%Z then "-" else "") +:+ with_commas (Z.abs_N n).

End Num.

(** ** The fragment of the [re] module the program uses

    Patterns are kept as the source writes them and compiled to a syntax
    tree: literals, [.], [^], [$], the escapes [\s \d \n \t \r] and escaped
    punctuation, character sets with ranges and negation, the quantifiers
    [* + ? {m} {m,n}] and their lazy forms, capturing and non-capturing
    groups, negative lookahead and alternation.  Matching is the
    backtracking search of [re.search]: leftmost start, alternatives in
    order, greedy quantifiers longest first. *)

Module Re.

Inductive flag : Type := IGNORECASE | MULTILINE.

Definition has_flag (f : flag) (flags : list flag) : bool :=
  existsb (fun g => match f, g with
                    | IGNORECASE, IGNORECASE | MULTILINE, MULTILINE => true
                    | _, _ => false
                    end) flags.

(** A member of a character set. *)
Inductive item : Type :=
| Lit (c : ascii)
| Range (lo hi : ascii)
| Space
| Digit.

Inductive regex : Type :=
| Empty
| Char (c : ascii)
| Dot
| CharSet (negate : bool) (items : list item)
| Bol
| Eol
| Seq (r1 r2 : regex)
| Alt (r1 r2 : regex)
| Repeat (greedy : bool) (min : nat) (max : option nat) (r : regex)
| Group (index : nat) (r : regex)
| NotAhead (r : regex).

(** *** Matching one character *)

Definition newline : ascii := ascii_of_N 10.

Definition is_newline (c : ascii) : bool := (Str.code c =? 10)%N.

Definition is_digit (c : ascii) : bool :=
  let n := Str.code c in ((48 <=? n) && (n <=? 57))%N.

Definition in_range (lo hi c : ascii) : bool :=
  ((Str.code lo <=? Str.code c) && (Str.code c <=? Str.code hi))%N.

(** The capital that [lower] sends to the small letter [c]; [c] itself when
    there is none in U+0000..U+00FF. *)
Definition capital_of (c : ascii) : ascii :=
  let n := Str.code c in
  if ((97 <=? n) && (n <=? 122)
      || (224 <=? n) && (n <=? 254) && negb (n =? 247))%N
  then ascii_of_N (n - 32) else c.

Definition char_matches (ignorecase : bool) (x c : ascii) : bool :=
  if ignorecase then Ascii.eqb (Str.lower_char x) (Str.lower_char c)
  else Ascii.eqb x c.

(** Under IGNORECASE a set holds [c] when it holds a character with the
    same lower case. *)
Definition item_matches (ignorecase : bool) (c : ascii) (i : item) : bool :=
  match i with
  | Lit x => char_matches ignorecase x c
  | Range lo hi =>
      if ignorecase
      then in_range lo hi (Str.lower_char c)
           || in_range lo hi (capital_of (Str.lower_char c))
      else in_range lo hi c
  | Space => Str.isspace c
  | Digit => is_digit c
  end.

Definition set_matches (ignorecase negate : bool) (items : list item)
  (c : ascii) : bool :=
  xorb negate (existsb (item_matches ignorecase c) items).

(** *** Backtracking matcher

    A matcher reads from the rest of the text [s], knowing the character
    before it ([prev], [None] at the start of the text) and the groups
    captured so far, and hands what is left to its continuation. *)

Abbreviation captures := (gmap nat string).

Definition result : Type := option (string * captures).

Definition cont : Type := option ascii -> string -> captures -> result.

Definition matcher : Type := option ascii -> string -> captures -> cont -> result.

(** The part of [s] read before reaching its suffix [rest]. *)
Definition consumed (s rest : string) : string :=
  String.substring 0 (String.length s - String.length rest) s.

Definition one_char (ok : ascii -> bool) : matcher :=
  fun prev s g k =>
    match s with
    | String c s' => if ok c then k (Some c) s' g else None
    | EmptyString => None
    end.

Definition at_bol (multiline : bool) (prev : option ascii) : bool :=
  match prev with
  | None => true
  | Some c => multiline && is_newline c
  end.

Definition at_eol (multiline : bool) (s : string) : bool :=
  match s with
  | EmptyString => true
  | String c s' =>
      is_newline c
      && (multiline || match s' with EmptyString => true | _ => false end)
  end.

(** The [n] iterations a quantifier requires. *)
Fixpoint repeat_min (body : matcher) (n : nat) (k : cont) : cont :=
  fun prev s g =>
    match n with
    | O => k prev s g
    | S n' => body prev s g (repeat_min body n' k)
    end.

Definition allows (budget : option nat) : bool :=
  match budget with
  | Some O => false
  | _ => true
  end.

(** One more iteration, which has to read at least one character. *)
Definition advance (body : matcher) (next : cont) : cont :=
  fun prev s g =>
    body prev s g
      (fun prev' s' g' =>
         if String.length s' <? String.length s then next prev' s' g' else None).

(** The iterations a quantifier allows beyond the required ones: at most
    [budget] of them ([None]: unbounded).  Each reads a character, so
    [fuel], the length of the text left, bounds their number. *)
Fixpoint repeat_more (greedy : bool) (body : matcher) (fuel : nat)
  (budget : option nat) (k : cont) : cont :=
  fun prev s g =>
    match fuel with
    | O => k prev s g
    | S fuel' =>
        let next := repeat_more greedy body fuel' (pred <$> budget) k in
        if greedy
        then match (if allows budget then advance body next prev s g else None) with
             | Some m => Some m
             | None => k prev s g
             end
        else match k prev s g with
             | Some m => Some m
             | None => if allows budget then advance body next prev s g else None
             end
    end.

Section Matcher.

Variables ignorecase multiline : bool.

Fixpoint run (r : regex) : matcher :=
  fun prev s g k =>
    match r with
    | Empty => k prev s g
    | Char x => one_char (char_matches ignorecase x) prev s g k
    | Dot => one_char (fun c => negb (is_newline c)) prev s g k
    | CharSet negate items =>
        one_char (set_matches ignorecase negate items) prev s g k
    | Bol => if at_bol multiline prev then k prev s g else None
    | Eol => if at_eol multiline s then k prev s g else None
    | Seq r1 r2 => run r1 prev s g (fun prev' s' g' => run r2 prev' s' g' k)
    | Alt r1 r2 =>
        match run r1 prev s g k with
        | Some m => Some m
        | None => run r2 prev s g k
        end
    | Repeat greedy min max r' =>
        repeat_min (run r') min
          (fun prev' s' g' =>
             repeat_more greedy (run r') (String.length s')
               ((fun m => m - min) <$> max) k prev' s' g')
          prev s g
    | Group i r' =>
        run r' prev s g (fun prev' s' g' => k prev' s' (<[i := consumed s s']> g'))
    | NotAhead r' =>
        match run r' prev s g (fun _ s' g' => Some (s', g')) with
        | Some _ => None
        | None => k prev s g
        end
    end.

(** The leftmost match: every start position in turn. *)
Fixpoint search_from (r : regex) (prev : option ascii) (s : string)
  : option (string * captures) :=
  match run r prev s ∅ (fun _ rest g => Some (rest, g)) with
  | Some (rest, g) => Some (consumed s rest, g)
  | None =>
      match s with
      | EmptyString => None
      | String c s' => search_from r (Some c) s'
      end
  end.

End Matcher.

Fixpoint count_groups (r : regex) : nat :=
  match r with
  | Seq r1 r2 | Alt r1 r2 => count_groups r1 + count_groups r2
  | Repeat _ _ _ r' | NotAhead r' => count_groups r'
  | Group _ r' => S (count_groups r')
  | _ => 0
  end.

(** *** Compiling a pattern

    The pattern is read character by character into tokens, and the tokens
    are assembled with a stack of open groups.  Groups are numbered from 1
    in the order of their opening parentheses. *)

Inductive opener : Type := Capture | NonCapture | NegLookahead.

Inductive token : Type :=
| TAtom (r : regex)
| TOpen (o : opener)
| TClose
| TBar
| TQuant (greedy : bool) (min : nat) (max : option nat).

(** Where the reader is.  The items of a set are collected in reverse. *)
Inductive mode : Type :=
| Normal
| Escape
| Paren
| ParenQ
| SetOpen
| SetItem (negate : bool) (items : list item)
| SetLit (negate : bool) (items : list item) (lo : ascii)
| SetDash (negate : bool) (items : list item) (lo : ascii)
| SetEscape (negate : bool) (items : list item) (range_from : option ascii)
| BraceMin (min : option nat)
| BraceMax (min : nat) (max : option nat).

Definition is_alnum (c : ascii) : bool :=
  let n := Str.code c in
  (is_digit c || (65 <=? n) && (n <=? 90) || (97 <=? n) && (n <=? 122))%N.

(** What follows a backslash. *)
Definition escape_item (c : ascii) : option item :=
  match c with
  | "s"%char => Some Space
  | "d"%char => Some Digit
  | "n"%char => Some (Lit newline)
  | "t"%char => Some (Lit (ascii_of_N 9))
  | "r"%char => Some (Lit (ascii_of_N 13))
  | _ => if is_alnum c then None else Some (Lit c)
  end.

Definition digit_value (c : ascii) : nat := N.to_nat (Str.code c - 48).

Definition step_normal (acc : list token) (c : ascii)
  : option (mode * list token) :=
  match c with
  | "\"%char => Some (Escape, acc)
  | "("%char => Some (Paren, acc)
  | ")"%char => Some (Normal, TClose :: acc)
  | "|"%char => Some (Normal, TBar :: acc)
  | "["%char => Some (SetOpen, acc)
  | "."%char => Some (Normal, TAtom Dot :: acc)
  | "^"%char => Some (Normal, TAtom Bol :: acc)
  | "$"%char => Some (Normal, TAtom Eol :: acc)
  | "*"%char => Some (Normal, TQuant true 0 None :: acc)
  | "+"%char => Some (Normal, TQuant true 1 None :: acc)
  | "?"%char =>
      match acc with
      | TQuant true min max :: acc' => Some (Normal, TQuant false min max :: acc')
      | _ => Some (Normal, TQuant true 0 (Some 1) :: acc)
      end
  | "{"%char => Some (BraceMin None, acc)
  | _ => Some (Normal, TAtom (Char c) :: acc)
  end.

Definition step_set_item (negate : bool) (items : list item)
  (acc : list token) (c : ascii) : option (mode * list token) :=
  match c with
  | "]"%char =>
      match items with
      | [] => Some (SetLit negate [] c, acc)
      | _ => Some (Normal, TAtom (CharSet negate (rev items)) :: acc)
      end
  | "\"%char => Some (SetEscape negate items None, acc)
  | _ => Some (SetLit negate items c, acc)
  end.

Definition range_item (lo hi : ascii) : option item :=
  if (Str.code lo <=? Str.code hi)%N then Some (Range lo hi) else None.

Definition step (m : mode) (acc : list token) (c : ascii)
  : option (mode * list token) :=
  match m with
  | Normal => step_normal acc c
  | Escape =>
      match escape_item c with
      | Some (Lit x) => Some (Normal, TAtom (Char x) :: acc)
      | Some i => Some (Normal, TAtom (CharSet false [i]) :: acc)
      | None => None
      end
  | Paren =>
      match c with
      | "?"%char => Some (ParenQ, acc)
      | _ => step_normal (TOpen Capture :: acc) c
      end
  | ParenQ =>
      match c with
      | ":"%char => Some (Normal, TOpen NonCapture :: acc)
      | "!"%char => Some (Normal, TOpen NegLookahead :: acc)
      | _ => None
      end
  | SetOpen =>
      match c with
      | "^"%char => Some (SetItem true [], acc)
      | _ => step_set_item false [] acc c
      end
  | SetItem negate items => step_set_item negate items acc c
  | SetLit negate items lo =>
      match c with
      | "-"%char => Some (SetDash negate items lo, acc)
      | _ => step_set_item negate (Lit lo :: items) acc c
      end
  | SetDash negate items lo =>
      match c with
      | "]"%char =>
          Some (Normal,
                TAtom (CharSet negate (rev (Lit "-"%char :: Lit lo :: items))) :: acc)
      | "\"%char => Some (SetEscape negate items (Some lo), acc)
      | _ => i ← range_item lo c; Some (SetItem negate (i :: items), acc)
      end
  | SetEscape negate items None =>
      match escape_item c with
      | Some (Lit x) => Some (SetLit negate items x, acc)
      | Some i => Some (SetItem negate (i :: items), acc)
      | None => None
      end
  | SetEscape negate items (Some lo) =>
      match escape_item c with
      | Some (Lit x) => i ← range_item lo x; Some (SetItem negate (i :: items), acc)
      | _ => None
      end
  | BraceMin min =>
      if is_digit c
      then Some (BraceMin (Some (10 * default 0 min + digit_value c)), acc)
      else match c, min with
           | ","%char, _ => Some (BraceMax (default 0 min) None, acc)
           | "}"%char, Some n => Some (Normal, TQuant true n (Some n) :: acc)
           | _, _ => None
           end
  | BraceMax min max =>
      if is_digit c
      then Some (BraceMax min (Some (10 * default 0 max + digit_value c)), acc)
      else match c, max with
           | "}"%char, None => Some (Normal, TQuant true min None :: acc)
           | "}"%char, Some n =>
               if min <=? n then Some (Normal, TQuant true min max :: acc) else None
           | _, _ => None
           end
  end.

Fixpoint tokenize (m : mode) (acc : list token) (s : string)
  : option (list token) :=
  match s with
  | EmptyString =>
      match m with
      | Normal => Some (rev acc)
      | _ => None
      end
  | String c s' =>
      match step m acc c with
      | Some (m', acc') => tokenize m' acc' s'
      | None => None
      end
  end.

Inductive wrapper : Type := Top | Capturing (index : nat) | Plain | Lookahead.

(** An open group: the alternatives already closed and the atoms of the
    one being read, both in reverse. *)
Record frame : Type := Frame {
  wrap : wrapper;
  alts : list regex;
  atoms : list regex
}.

Definition seq_of (rev_atoms : list regex) : regex :=
  match rev_atoms with
  | [] => Empty
  | last :: before => fold_left (fun r a => Seq a r) before last
  end.

Definition close_frame (f : frame) : regex :=
  let r := fold_left (fun r a => Alt a r) (alts f) (seq_of (atoms f)) in
  match wrap f with
  | Capturing i => Group i r
  | Lookahead => NotAhead r
  | Top | Plain => r
  end.

Definition push (r : regex) (f : frame) : frame :=
  Frame (wrap f) (alts f) (r :: atoms f).

(** [quantifiable]: the last token read was an atom or a closed group. *)
Fixpoint parse (next : nat) (stack : list frame) (cur : frame)
  (quantifiable : bool) (toks : list token) : option regex :=
  match toks with
  | [] =>
      match stack with
      | [] => Some (close_frame cur)
      | _ :: _ => None
      end
  | TAtom r :: toks' => parse next stack (push r cur) true toks'
  | TOpen Capture :: toks' =>
      parse (S next) (cur :: stack) (Frame (Capturing next) [] []) false toks'
  | TOpen NonCapture :: toks' =>
      parse next (cur :: stack) (Frame Plain [] []) false toks'
  | TOpen NegLookahead :: toks' =>
      parse next (cur :: stack) (Frame Lookahead [] []) false toks'
  | TClose :: toks' =>
      match stack with
      | [] => None
      | parent :: stack' =>
          parse next stack' (push (close_frame cur) parent) true toks'
      end
  | TBar :: toks' =>
      parse next stack
        (Frame (wrap cur) (seq_of (atoms cur) :: alts cur) []) false toks'
  | TQuant greedy min max :: toks' =>
      match quantifiable, atoms cur with
      | true, a :: before =>
          parse next stack
            (Frame (wrap cur) (alts cur) (Repeat greedy min max a :: before))
            false toks'
      | _, _ => None
      end
  end.

Definition compile (pattern : string) : option regex :=
  toks ← tokenize Normal [] pattern;
  parse 1 [] (Frame Top [] []) false toks.

(** *** [re.search] and match objects *)

Record match_object : Type := Match {
  group0 : string;
  groups : captures;
  ngroups : nat
}.

(** [re.search(pattern, text, flags)]: [None] when nothing matches. *)
Definition search (pattern text : string) (flags : list flag)
  : outcome (option match_object) :=
  match compile pattern with
  | None => Raise ReError
  | Some r =>
      Return
        (match search_from (has_flag IGNORECASE flags) (has_flag MULTILINE flags)
                 r None text with
         | Some (whole, g) => Some (Match whole g (count_groups r))
         | None => None
         end)
  end.

(** [m.group(i)]: [None] for a group that took no part in the match. *)
Definition group (m : match_object) (i : nat) : outcome (option string) :=
  match i with
  | O => Return (Some (group0 m))
  | _ => if i <=? ngroups m then Return (groups m !! i) else Raise IndexError
  end.

End Re.

(** ** [float(s)]

    The literals [float] accepts on U+0000..U+00FF: surrounding white space,
    a sign, then [inf], [infinity] or [nan] in any case, or decimal digits
    (single underscores between digits allowed) with an optional point and
    exponent.  The value is the exact decimal one. *)

Module Float.

Inductive mode : Type :=
| Start | Int | IntUs | Point (has_int : bool) | Frac | FracUs
| Exp | ExpSign | ExpDigits | ExpUs.

(** Mantissa digits read, how many of them follow the point, and the
    exponent. *)
Record acc : Type := Acc {
  mant : N;
  scale : nat;
  exp_neg : bool;
  exp_val : N
}.

Definition add_int (a : acc) (d : N) : acc :=
  Acc (10 * mant a + d) (scale a) (exp_neg a) (exp_val a).

Definition add_frac (a : acc) (d : N) : acc :=
  Acc (10 * mant a + d) (S (scale a)) (exp_neg a) (exp_val a).

Definition add_exp (a : acc) (d : N) : acc :=
  Acc (mant a) (scale a) (exp_neg a) (10 * exp_val a + d).

Definition set_exp_neg (a : acc) (b : bool) : acc :=
  Acc (mant a) (scale a) b (exp_val a).

Definition is_e (c : ascii) : bool :=
  Ascii.eqb c "e"%char || Ascii.eqb c "E"%char.

Definition step (m : mode) (a : acc) (c : ascii) : option (mode * acc) :=
  let d := (Str.code c - 48)%N in
  let digit := Re.is_digit c in
  let us := Ascii.eqb c "_"%char in
  let point := Ascii.eqb c "."%char in
  match m with
  | Start =>
      if digit then Some (Int, add_int a d)
      else if point then Some (Point false, a) else None
  | Int =>
      if digit then Some (Int, add_int a d)
      else if us then Some (IntUs, a)
      else if point then Some (Point true, a)
      else if is_e c then Some (Exp, a) else None
  | IntUs => if digit then Some (Int, add_int a d) else None
  | Point has_int =>
      if digit then Some (Frac, add_frac a d)
      else if is_e c && has_int then Some (Exp, a) else None
  | Frac =>
      if digit then Some (Frac, add_frac a d)
      else if us then Some (FracUs, a)
      else if is_e c then Some (Exp, a) else None
  | FracUs => if digit then Some (Frac, add_frac a d) else None
  | Exp =>
      if digit then Some (ExpDigits, add_exp a d)
      else if Ascii.eqb c "+"%char then Some (ExpSign, a)
      else if Ascii.eqb c "-"%char then Some (ExpSign, set_exp_neg a true)
      else None
  | ExpSign => if digit then Some (ExpDigits, add_exp a d) else None
  | ExpDigits =>
      if digit then Some (ExpDigits, add_exp a d)
      else if us then Some (ExpUs, a) else None
  | ExpUs => if digit then Some (ExpDigits, add_exp a d) else None
  end.

Definition accepting (m : mode) : bool :=
  match m with
  | Int | Point true | Frac | ExpDigits => true
  | _ => false
  end.

(** [mant * 10 ^ (exp - scale)] *)
Definition value (a : acc) : Q :=
  let e := ((if exp_neg a then - Z.of_N (exp_val a) else Z.of_N (exp_val a))
            - Z.of_nat (scale a))%Z in
  if (0 <=? e)%Z then inject_Z (Z.of_N (mant a) * 10 ^ e)
  else Z.of_N (mant a) # Z.to_pos (10 ^ (- e)).

Fixpoint number (m : mode) (a : acc) (s : string) : option Q :=
  match s with
  | EmptyString => if accepting m then Some (value a) else None
  | String c s' =>
      match step m a c with
      | Some (m', a') => number m' a' s'
      | None => None
      end
  end.

Definition unsigned (body : string) (negative : bool) : outcome pynum :=
  let low := Str.lower body in
  if String.eqb low "inf" || String.eqb low "infinity"
  then Return (if negative then NegInf else PosInf)
  else if String.eqb low "nan" then Return NaN
  else match number Start (Acc 0 0 false 0) body with
       | Some q => Return (Finite (if negative then Qopp q else q))
       | None => Raise ValueError
       end.

Definition float (s : string) : outcome pynum :=
  match Str.strip s with
  | String "+" body => unsigned body false
  | String "-" body => unsigned body true
  | body => unsigned body false
  end.

End Float.

(** ** Values held by a claim record *)

Inductive pyval : Type :=
| PyNone
| PyStr (s : string)
| PyNum (x : pynum).

Abbreviation record := (gmap string pyval).

(** [d.get(key)] and [d.get(key, dflt)] *)
Definition dict_get (d : record) (key : string) : pyval :=
  default PyNone (d !! key).

Definition dict_get_or (d : record) (key : string) (dflt : pyval) : pyval :=
  default dflt (d !! key).

(** [bool(v)] *)
Definition truthy (v : pyval) : bool :=
  match v with
  | PyNone => false
  | PyStr s => Str.truthy s
  | PyNum x => Num.truthy x
  end.

(** [v is None] *)
Definition is_none (v : pyval) : bool :=
  match v with
  | PyNone => true
  | _ => false
  end.

(** [v.lower()]: only a [str] has the method. *)
Definition method_lower (v : pyval) : outcome string :=
  match v with
  | PyStr s => Return (Str.lower s)
  | _ => Raise AttributeError
  end.

(** [v == s] for a string literal [s]. *)
Definition eq_str (v : pyval) (s : string) : bool :=
  match v with
  | PyStr t => String.eqb t s
  | _ => false
  end.

(** [v < n] for an [int] literal [n]: a [str] is not ordered against it. *)
Definition lt_int (v : pyval) (n : Z) : outcome bool :=
  match v with
  | PyNum x => Return (Num.ltb_int x n)
  | _ => Raise TypeError
  end.

(** [f"{v:,.2f}"]: the format is a number's. *)
Definition format_comma_2f (v : pyval) : outcome string :=
  match v with
  | PyNum x => Return (Num.format_comma_2f x)
  | PyNone => Raise TypeError
  | PyStr _ => Raise ValueError
  end.

(** ** ClaimsProcessor: class constants *)

Definition MANDATORY_FIELDS : list string :=
  [ "policy_number";
    "policyholder_name";
    "date_of_loss";
    "location_of_loss";
    "description_of_accident";
    "claim_type" ].

Definition FAST_TRACK_THRESHOLD : Z := 25000.

Definition FRAUD_KEYWORDS : list string :=
  [ "fraud"; "inconsistent"; "staged"; "suspicious"; "fabricated" ].

(** ** ClaimsProcessor._extract_field *)

(** [v.strip()] where [v] may be [None]. *)
Definition method_strip (v : option string) : outcome string :=
  match v with
  | Some s => Return (Str.strip s)
  | None => Raise AttributeError
  end.

Definition _extract_field (text pattern : string) : outcome (option string) :=
  found ← Re.search pattern text [Re.IGNORECASE; Re.MULTILINE];
  match found with
  | Some m =>
      g ← Re.group m 1;
      value ← method_strip g;
      let value := Str.join " " (Str.split value) in
      Return (if Str.truthy value then Some value else None)
  | None => Return None
  end.

(** ** ClaimsProcessor._determine_claim_type *)

Definition _determine_claim_type (text : string) : string :=
  let text_lower := Str.lower text in
  let injury_keywords :=
    ["injury"; "injured"; "hospital"; "medical"; "ambulance"; "bodily"] in
  if existsb (fun keyword => Str.contains keyword text_lower) injury_keywords
  then "injury"
  else if Str.contains "property" text_lower || Str.contains "damage" text_lower
  then "property_damage"
  else if Str.contains "collision" text_lower || Str.contains "accident" text_lower
  then "collision"
  else "auto".

(** ** ClaimsProcessor.extract_from_pdf

    [extracted] is a dict of five dicts, updated in place.  A statement of
    the [try] body takes the dict and gives it back with its outcome, so
    that the updates made before an exception are the ones the [except]
    clause returns. *)

Abbreviation nested := (gmap string (gmap string pyval)).

Definition stmt (A : Type) : Type := nested -> nested * outcome A.

#[global] Instance stmt_ret : MRet stmt := fun A a extracted =>
  (extracted, Return a).

#[global] Instance stmt_bind : MBind stmt := fun A B f m extracted =>
  match m extracted with
  | (extracted', Return a) => f a extracted'
  | (extracted', Raise e) => (extracted', Raise e)
  end.

(** A call that leaves [extracted] alone. *)
Definition call {A : Type} (o : outcome A) : stmt A := fun extracted =>
  (extracted, o).

(** [extracted[section][key] = v] *)
Definition store (section key : string) (v : pyval) : stmt unit :=
  fun extracted =>
    match extracted !! section with
    | Some d => (<[section := <[key := v]> d]> extracted, Return tt)
    | None => (extracted, Raise KeyError)
    end.

Definition of_optional (v : option string) : pyval :=
  match v with
  | Some s => PyStr s
  | None => PyNone
  end.

(** [bool(v)] for an optional string. *)
Definition truthy_opt (v : option string) : bool := truthy (of_optional v).

(** [str(v)] for an optional string, as an f-string prints it. *)
Definition str_of (v : option string) : string :=
  match v with
  | Some s => s
  | None => "None"
  end.

(** [filter(None, l)] *)
Definition filter_truthy (l : list (option string)) : list string :=
  omap (fun v => match v with
                 | Some s => if Str.truthy s then Some s else None
                 | None => None
                 end) l.

(** [if v and v.strip(): parts.append(v.strip())] *)
Definition append_part (parts : list string) (v : option string) : list string :=
  match v with
  | Some s => if Str.truthy s && Str.truthy (Str.strip s)
              then parts ++ [Str.strip s] else parts
  | None => parts
  end.

Definition initial_extracted : nested :=
  <["policy_information" := ∅]>
  (<["incident_information" := ∅]>
  (<["involved_parties" := ∅]>
  (<["asset_details" := ∅]>
  (<["other_fields" := ∅]> ∅)))).

(** The body of the [try] block, from the text of the pages on. *)
Definition extract_fields (full_text : string) : stmt unit :=
  (* Policy information *)
  policy_number ← call (_extract_field full_text
    "POLICY NUMBER[:\s]*([A-Z0-9-]+)");
  store "policy_information" "policy_number" (of_optional policy_number);;
  policyholder_name ← call (_extract_field full_text
    "NAME OF INSURED[:\s]*\(First, Middle, Last\)[:\s]*([A-Za-z\s,\.]+?)(?:\n|DATE OF BIRTH)");
  store "policy_information" "policyholder_name" (of_optional policyholder_name);;
  effective_date ← call (_extract_field full_text
    "EFFECTIVE DATE[:\s]*(\d{1,2}[/-]\d{1,2}[/-]\d{2,4})");
  (if truthy_opt effective_date
   then store "policy_information" "effective_date" (of_optional effective_date)
   else mret tt);;
  (* Incident information *)
  date_of_loss ← call (_extract_field full_text
    "DATE OF LOSS AND TIME[:\s]*(\d{1,2}[/-]\d{1,2}[/-]\d{2,4})");
  store "incident_information" "date_of_loss" (of_optional date_of_loss);;
  time_match ← call (Re.search "(\d{1,2}:\d{2})\s*(AM|PM)" full_text [Re.IGNORECASE]);
  match time_match with
  | Some m =>
      g1 ← call (Re.group m 1);
      g2 ← call (Re.group m 2);
      store "incident_information" "time" (PyStr (str_of g1 +:+ " " +:+ str_of g2))
  | None => mret tt
  end;;
  street ← call (_extract_field full_text "STREET:[:\s]*([^\n]+)");
  city_state_zip ← call (_extract_field full_text "CITY, STATE, ZIP:[:\s]*([^\n]+)");
  let location_parts : list string := [] in
  let location_parts := append_part location_parts street in
  let location_parts := append_part location_parts city_state_zip in
  store "incident_information" "location"
    (match location_parts with
     | [] => PyNone
     | _ => PyStr (Str.join ", " location_parts)
     end);;
  desc ← call (_extract_field full_text
    "DESCRIPTION OF ACCIDENT[:\s]*\(ACORD[^\)]*\)[:\s]*([^\n]+(?:\n(?!LOSS|DRIVER|OWNER|VEHICLE)[^\n]+)*)");
  store "incident_information" "description" (of_optional desc);;
  (* Involved parties *)
  claimant ← call (_extract_field full_text
    "NAME OF INSURED[:\s]*\(First, Middle, Last\)[:\s]*([A-Za-z\s,\.]+?)(?:\n|INSURED)");
  store "involved_parties" "claimant" (of_optional claimant);;
  driver_name ← call (_extract_field full_text
    "DRIVER'S NAME AND ADDRESS[:\s]*\(Check if same as insured\)[:\s]*PHONE[^\n]*\n([A-Za-z\s,\.]+?)(?:\n|PHONE)");
  store "involved_parties" "driver_name" (of_optional driver_name);;
  phone_match ← call (Re.search
    "PHONE #[:\s]*HOME BUS CELL PRIMARY[:\s]*(\d{3}[-\.\s]?\d{3}[-\.\s]?\d{4})"
    full_text []);
  match phone_match with
  | Some m =>
      g1 ← call (Re.group m 1);
      store "involved_parties" "contact_phone" (of_optional g1)
  | None => mret tt
  end;;
  email ← call (_extract_field full_text
    "E-MAIL ADDRESS:[:\s]*PRIMARY E-MAIL ADDRESS:[:\s]*([^\s\n]+@[^\s\n]+)");
  store "involved_parties" "contact_email" (of_optional email);;
  (* Asset details *)
  vehicle_year ← call (_extract_field full_text "VEH #[:\s]*YEAR[:\s]*(\d{4})");
  vehicle_make ← call (_extract_field full_text "MAKE:[:\s]*([A-Z][A-Za-z]+)");
  vehicle_model ← call (_extract_field full_text
    "MODEL:[:\s]*([A-Za-z0-9\s]+?)(?:\n|BODY)");
  vin ← call (_extract_field full_text "V\.I\.N\.:[:\s]*([A-Z0-9]{17})");
  store "asset_details" "asset_type" (PyStr "vehicle");;
  (if truthy_opt vehicle_year || truthy_opt vehicle_make || truthy_opt vehicle_model
   then
     let vehicle_desc :=
       Str.join " " (filter_truthy [vehicle_year; vehicle_make; vehicle_model]) in
     store "asset_details" "vehicle_description" (PyStr vehicle_desc)
   else mret tt);;
  store "asset_details" "asset_id" (of_optional vin);;
  estimate ← call (_extract_field full_text
    "ESTIMATE AMOUNT:[:\s]*\$?([0-9,]+(?:\.\d{2})?)");
  match estimate with
  | Some e =>
      if Str.truthy e
      then
        let estimate_clean := Str.replace ","%char "" e in
        match Float.float estimate_clean with
        | Return x => store "asset_details" "estimated_damage" (PyNum x)
        | Raise ValueError => store "asset_details" "estimated_damage" PyNone
        | Raise other => call (Raise other)
        end
      else mret tt
  | None => mret tt
  end;;
  (* Claim type *)
  let claim_type := _determine_claim_type full_text in
  store "other_fields" "claim_type" (PyStr claim_type);;
  lob ← call (_extract_field full_text
    "LINE OF BUSINESS[:\s]*([A-Z\s]+?)(?:\n|ACORD)");
  store "other_fields" "line_of_business" (of_optional lob);;
  naic ← call (_extract_field full_text "CARRIER NAIC CODE[:\s]*(\d+)");
  store "other_fields" "naic_code" (of_optional naic).

(** [pdf] is what the text layer of the document gives: the text of its
    pages, each followed by a line break, or the exception raised while
    reading it.  Whatever is raised inside the [try] block is caught, and
    [extracted] is returned as it stands. *)
Definition extract_from_pdf (pdf : outcome string) : nested :=
  let extracted := initial_extracted in
  match pdf with
  | Return full_text => fst (extract_fields full_text extracted)
  | Raise _ => extracted
  end.

(** ** ClaimsProcessor.flatten_extracted_data *)

(** [extracted[section].get(key)] *)
Definition section_get (extracted : nested) (section key : string)
  : outcome pyval :=
  match extracted !! section with
  | Some d => Return (dict_get d key)
  | None => Raise KeyError
  end.

Definition flatten_extracted_data (extracted : nested) : outcome record :=
  let flattened : record := ∅ in
  (* Policy information *)
  v ← section_get extracted "policy_information" "policy_number";
  let flattened := <["policy_number" := v]> flattened in
  v ← section_get extracted "policy_information" "policyholder_name";
  let flattened := <["policyholder_name" := v]> flattened in
  v ← section_get extracted "policy_information" "effective_date";
  let flattened := <["effective_date" := v]> flattened in
  (* Incident information *)
  v ← section_get extracted "incident_information" "date_of_loss";
  let flattened := <["date_of_loss" := v]> flattened in
  v ← section_get extracted "incident_information" "time";
  let flattened := <["time_of_loss" := v]> flattened in
  v ← section_get extracted "incident_information" "location";
  let flattened := <["location_of_loss" := v]> flattened in
  v ← section_get extracted "incident_information" "description";
  let flattened := <["description_of_accident" := v]> flattened in
  (* Involved parties *)
  v ← section_get extracted "involved_parties" "claimant";
  let flattened := <["claimant" := v]> flattened in
  v ← section_get extracted "involved_parties" "driver_name";
  let flattened := <["driver_name" := v]> flattened in
  v ← section_get extracted "involved_parties" "contact_phone";
  let flattened := <["contact_phone" := v]> flattened in
  v ← section_get extracted "involved_parties" "contact_email";
  let flattened := <["contact_email" := v]> flattened in
  (* Asset details *)
  v ← section_get extracted "asset_details" "asset_type";
  let flattened := <["asset_type" := v]> flattened in
  v ← section_get extracted "asset_details" "asset_id";
  let flattened := <["asset_id" := v]> flattened in
  v ← section_get extracted "asset_details" "vehicle_description";
  let flattened := <["vehicle_description" := v]> flattened in
  v ← section_get extracted "asset_details" "estimated_damage";
  let flattened := <["estimated_damage" := v]> flattened in
  (* Other *)
  v ← section_get extracted "other_fields" "claim_type";
  let flattened := <["claim_type" := v]> flattened in
  v ← section_get extracted "other_fields" "line_of_business";
  let flattened := <["line_of_business" := v]> flattened in
  v ← section_get extracted "other_fields" "naic_code";
  let flattened := <["naic_code" := v]> flattened in
  Return flattened.

(** ** ClaimsProcessor.validate_fields *)

Definition validate_fields (flattened_data : record) : list string :=
  fold_left
    (fun missing field =>
       if negb (truthy (dict_get flattened_data field))
       then missing ++ [field]
       else missing)
    MANDATORY_FIELDS [].

(** ** ClaimsProcessor.route_claim *)

Definition route_claim (flattened_data : record) (missing_fields : list string)
  : outcome (string * string) :=
  let reasons : list string := [] in
  (* Rule 1 *)
  match missing_fields with
  | _ :: _ =>
      let route := "Manual Review" in
      let reasons :=
        reasons ++ ["Missing mandatory fields: " +:+ Str.join ", " missing_fields] in
      Return (route, Str.join "; " reasons)
  | [] =>
      (* Rule 2 *)
      description ←
        method_lower (dict_get_or flattened_data "description_of_accident" (PyStr ""));
      if existsb (fun keyword => Str.contains keyword description) FRAUD_KEYWORDS
      then
        let route := "Investigation Queue" in
        let reasons := reasons ++ ["Description contains potential fraud indicators"] in
        Return (route, Str.join "; " reasons)
      else
        (* Rule 3 *)
        if eq_str (dict_get flattened_data "claim_type") "injury"
        then
          let route := "Specialist Queue" in
          let reasons :=
            reasons ++ ["Claim involves injury and requires specialist review"] in
          Return (route, Str.join "; " reasons)
        else
          (* Rule 4 *)
          let estimated_damage := dict_get flattened_data "estimated_damage" in
          if negb (is_none estimated_damage)
          then
            below ← lt_int estimated_damage FAST_TRACK_THRESHOLD;
            if below : bool
            then
              let route := "Fast-Track" in
              amount ← format_comma_2f estimated_damage;
              let reasons :=
                reasons ++
                ["Estimated damage ($" +:+ amount
                 +:+ ") is below fast-track threshold ($"
                 +:+ Num.format_comma_int FAST_TRACK_THRESHOLD +:+ ")"] in
              Return (route, Str.join "; " reasons)
            else
              let route := "Standard Processing" in
              amount ← format_comma_2f estimated_damage;
              let reasons :=
                reasons ++
                ["Estimated damage ($" +:+ amount
                 +:+ ") exceeds fast-track threshold ($"
                 +:+ Num.format_comma_int FAST_TRACK_THRESHOLD +:+ ")"] in
              Return (route, Str.join "; " reasons)
          else
            let route := "Manual Review" in
            let reasons :=
              reasons ++ ["Estimated damage amount is missing or invalid"] in
            Return (route, Str.join "; " reasons)
  end.

(** ** ClaimsProcessor.process_claim *)

Record processing_result : Type := Result {
  extractedFields : record;
  missingFields : list string;
  recommendedRoute : string;
  reasoning : string
}.

Definition process_claim (pdf : outcome string) : outcome processing_result :=
  let extracted := extract_from_pdf pdf in
  flattened ← flatten_extracted_data extracted;
  let missing := validate_fields flattened in
  '(route, reasoning) ← route_claim flattened missing;
  Return (Result flattened missing route reasoning).

(** ** The text of the pages

    [extract_from_pdf] opens the document and joins the text of its pages,
    each followed by a line break.  A document is what opening it gives:
    an exception, or its pages; a page is what [extract_text] gives: an
    exception, the text of the page, or [None]. *)

Definition page : Type := outcome (option string).

Definition document : Type := outcome (list page).

(** [t + "\n"]: [None] cannot be added to a string. *)
Definition add_newline (t : option string) : outcome string :=
  match t with
  | Some s => Return (s +:+ String Re.newline "")
  | None => Raise TypeError
  end.

(** [for page in pdf.pages: full_text += page.extract_text() + "\n"] *)
Fixpoint read_pages (full_text : string) (pages : list page) : outcome string :=
  match pages with
  | [] => Return full_text
  | p :: rest =>
      t ← p;
      line ← add_newline t;
      read_pages (full_text +:+ line) rest
  end.

Definition pages_text (doc : document) : outcome string :=
  pages ← doc;
  let full_text := "" in
  read_pages full_text pages.

(** ** test_claims.process_text_fnol

    The test script reads the text of a notice from a file and runs the
    same statements as [extract_from_pdf] on it, some with patterns of its
    own; it has no [try], so an exception leaves the function.  [file] is
    what reading the file gives: its text, or the exception raised. *)

Definition text_fields (full_text : string) : stmt unit :=
  policy_number ← call (_extract_field full_text
    "POLICY NUMBER[:\s]*([A-Z0-9-]+)");
  store "policy_information" "policy_number" (of_optional policy_number);;
  policyholder_name ← call (_extract_field full_text
    "NAME OF INSURED[:\s]*\(First, Middle, Last\)[:\s]*([A-Za-z\s,\.]+?)(?:\n|INSURED|DATE OF BIRTH)");
  store "policy_information" "policyholder_name" (of_optional policyholder_name);;
  date_of_loss ← call (_extract_field full_text
    "DATE OF LOSS AND TIME[:\s]*(\d{1,2}[/-]\d{1,2}[/-]\d{2,4})");
  store "incident_information" "date_of_loss" (of_optional date_of_loss);;
  time_match ← call (Re.search "(\d{1,2}:\d{2})\s*(AM|PM)" full_text [Re.IGNORECASE]);
  match time_match with
  | Some m =>
      g1 ← call (Re.group m 1);
      g2 ← call (Re.group m 2);
      store "incident_information" "time" (PyStr (str_of g1 +:+ " " +:+ str_of g2))
  | None => mret tt
  end;;
  street ← call (_extract_field full_text "STREET:[:\s]*([^\n]+)");
  city_state_zip ← call (_extract_field full_text "CITY, STATE, ZIP:[:\s]*([^\n]+)");
  let location_parts : list string := [] in
  let location_parts := append_part location_parts street in
  let location_parts := append_part location_parts city_state_zip in
  store "incident_information" "location"
    (match location_parts with
     | [] => PyNone
     | _ => PyStr (Str.join ", " location_parts)
     end);;
  description ← call (_extract_field full_text
    "DESCRIPTION OF ACCIDENT[:\s]*([^\n]+(?:\n(?!INSURED VEHICLE|DRIVER|OWNER|WITNESSES)[^\n]+)*)");
  store "incident_information" "description" (of_optional description);;
  claimant ← call (_extract_field full_text
    "NAME OF INSURED[:\s]*\(First, Middle, Last\)[:\s]*([A-Za-z\s,\.]+?)(?:\n|INSURED)");
  store "involved_parties" "claimant" (of_optional claimant);;
  phone_match ← call (Re.search
    "PHONE #[:\s]*PRIMARY[:\s]*(\d{3}[-\.\s]?\d{3}[-\.\s]?\d{4})" full_text []);
  match phone_match with
  | Some m =>
      g1 ← call (Re.group m 1);
      store "involved_parties" "contact_phone" (of_optional g1)
  | None => mret tt
  end;;
  email ← call (_extract_field full_text
    "E-MAIL ADDRESS[:\s]*PRIMARY[:\s]*([^\s\n]+@[^\s\n]+)");
  store "involved_parties" "contact_email" (of_optional email);;
  vehicle_year ← call (_extract_field full_text "(?:VEH #.*)?YEAR[:\s]*(\d{4})");
  vehicle_make ← call (_extract_field full_text "MAKE:[:\s]*([A-Z][A-Za-z]+)");
  vehicle_model ← call (_extract_field full_text
    "MODEL:[:\s]*([A-Za-z0-9\s]+?)(?:\n|BODY)");
  vin ← call (_extract_field full_text "V\.I\.N\.:[:\s]*([A-Z0-9]{17})");
  store "asset_details" "asset_type" (PyStr "vehicle");;
  (if truthy_opt vehicle_year || truthy_opt vehicle_make || truthy_opt vehicle_model
   then
     let vehicle_desc :=
       Str.join " " (filter_truthy [vehicle_year; vehicle_make; vehicle_model]) in
     store "asset_details" "vehicle_description" (PyStr vehicle_desc)
   else mret tt);;
  store "asset_details" "asset_id" (of_optional vin);;
  estimate ← call (_extract_field full_text
    "ESTIMATE AMOUNT:[:\s]*\$?([0-9,]+(?:\.\d{2})?)");
  match estimate with
  | Some e =>
      if Str.truthy e
      then
        let estimate_clean := Str.replace ","%char "" e in
        match Float.float estimate_clean with
        | Return x => store "asset_details" "estimated_damage" (PyNum x)
        | Raise ValueError => store "asset_details" "estimated_damage" PyNone
        | Raise other => call (Raise other)
        end
      else mret tt
  | None => mret tt
  end;;
  let claim_type := _determine_claim_type full_text in
  store "other_fields" "claim_type" (PyStr claim_type);;
  lob ← call (_extract_field full_text
    "LINE OF BUSINESS[:\s]*([A-Z\s]+?)(?:\n|INSURED)");
  store "other_fields" "line_of_business" (of_optional lob);;
  naic ← call (_extract_field full_text "CARRIER NAIC CODE[:\s]*(\d+)");
  store "other_fields" "naic_code" (of_optional naic).

Definition process_text_fnol (file : outcome string) : outcome processing_result :=
  full_text ← file;
  let extracted := initial_extracted in
  match text_fields full_text extracted with
  | (extracted, Return _) =>
      flattened ← flatten_extracted_data extracted;
      let missing := validate_fields flattened in
      '(route, reasoning) ← route_claim flattened missing;
      Return (Result flattened missing route reasoning)
  | (_, Raise e) => Raise e
  end.

(** ** demo.py

    The demo prints what it finds.  A statement of the demo takes the lines
    printed so far and gives them back with its outcome; a line is the text
    of one call of [print], and the pictographs of the literals are held as
    the bytes of their UTF-8 encoding.  [fs] is the file system: what
    reading the file of a given name gives. *)

Definition io (A : Type) : Type := list string -> list string * outcome A.

#[global] Instance io_ret : MRet io := fun A a out => (out, Return a).

#[global] Instance io_bind : MBind io := fun A B f m out =>
  match m out with
  | (out', Return a) => f a out'
  | (out', Raise e) => (out', Raise e)
  end.

Definition print (line : string) : io unit := fun out =>
  (out ++ [line], Return tt).

(** A call that prints nothing. *)
Definition lift {A : Type} (o : outcome A) : io A := fun out => (out, o).

(** [s * n] *)
Fixpoint str_repeat (s : string) (n : nat) : string :=
  match n with
  | O => ""
  | S n' => s +:+ str_repeat s n'
  end.

(** [str(n)] for the length of a list. *)
Definition str_of_nat (n : nat) : string := Num.digits (N.of_nat n).

Definition line_break : string := String Re.newline "".

Definition print_header (text : string) : io unit :=
  print (line_break +:+ str_repeat "=" 80);;
  print ("  " +:+ text);;
  print (str_repeat "=" 80 +:+ line_break).

Definition print_section (text : string) : io unit :=
  print (line_break +:+ str_repeat "-" 80);;
  print ("  " +:+ text);;
  print (str_repeat "-" 80).

Definition print_field (label : string) (value : option string) (indent : nat)
  : io unit :=
  let spaces := str_repeat " " indent in
  if truthy_opt value
  then print (spaces +:+ label +:+ ": " +:+ str_of value)
  else print (spaces +:+ label +:+ ": [MISSING]").

Definition demo_extraction (fs : string -> outcome string) (sample_file : string)
  : io string :=
  print_section "📄 FIELD EXTRACTION";;
  text ← lift (fs sample_file);
  policy_num ← lift (_extract_field text "POLICY NUMBER[:\s]*([A-Z0-9-]+)");
  print_field "Policy Number" policy_num 2;;
  name ← lift (_extract_field text
    "NAME OF INSURED[:\s]*\(First, Middle, Last\)[:\s]*([A-Za-z\s,\.]+?)(?:\n|INSURED)");
  print_field "Policyholder" name 2;;
  date ← lift (_extract_field text
    "DATE OF LOSS AND TIME[:\s]*(\d{1,2}[/-]\d{1,2}[/-]\d{2,4})");
  print_field "Loss Date" date 2;;
  estimate ← lift (_extract_field text
    "ESTIMATE AMOUNT:[:\s]*\$?([0-9,]+(?:\.\d{2})?)");
  print_field "Damage Estimate"
    (if truthy_opt estimate then Some ("$" +:+ str_of estimate) else None) 2;;
  mret text.

(** The attributes of the function behind the method [extract_from_pdf]:
    it is defined without a decorator, so it has none of its own. *)
Definition extract_from_pdf_attributes : list string := [].

(** [method.name], for a name the method type does not define: the
    attribute is looked up on the function. *)
Definition getattr_method (attributes : list string) (name : string)
  : outcome unit :=
  if existsb (String.eqb name) attributes then Return tt else Raise AttributeError.

(** [for x in l: print(f"{prefix}{x}")] *)
Fixpoint print_each (prefix : string) (l : list string) : io unit :=
  match l with
  | [] => mret tt
  | x :: l' => print (prefix +:+ x);; print_each prefix l'
  end.

Definition demo_validation (text : string) : io unit :=
  print_section "✅ FIELD VALIDATION";;
  lift (getattr_method extract_from_pdf_attributes "__wrapped__");;
  (* the call [__wrapped__(processor, None)]: there is no file to open *)
  let extracted := extract_from_pdf (Raise TypeError) in
  policy_number ← lift (_extract_field text "POLICY NUMBER[:\s]*([A-Z0-9-]+)");
  let extracted : nested :=
    <["policy_information" := <["policy_number" := of_optional policy_number]> ∅]>
    (<["incident_information" := ∅]>
    (<["involved_parties" := ∅]>
    (<["asset_details" := ∅]>
    (<["other_fields" := ∅]> ∅)))) in
  flattened ← lift (flatten_extracted_data extracted);
  let missing := validate_fields flattened in
  print ("  Total Fields Checked: " +:+ str_of_nat (length MANDATORY_FIELDS));;
  print ("  Missing Fields: " +:+ str_of_nat (length missing));;
  match missing with
  | _ :: _ =>
      print (line_break +:+ "  ⚠️  Missing Fields:");;
      print_each "    - " missing
  | [] => print (line_break +:+ "  ✓ All mandatory fields present")
  end.

(** The pictograph of each route. *)
Definition route_icon : list (string * string) :=
  [ ("Fast-Track", "🚀");
    ("Manual Review", "👤");
    ("Investigation Queue", "🔍");
    ("Specialist Queue", "⚕️");
    ("Standard Processing", "📋") ].

(** [d.get(key, dflt)] for a dict written as a list of pairs. *)
Fixpoint assoc_get (d : list (string * string)) (key dflt : string) : string :=
  match d with
  | [] => dflt
  | (k, v) :: d' => if String.eqb k key then v else assoc_get d' key dflt
  end.

(** A statement on the nested dict, run for the dict it leaves. *)
Definition updated (m : stmt unit) (extracted : nested) : io nested :=
  match m extracted with
  | (extracted', Return _) => mret extracted'
  | (_, Raise e) => lift (Raise e)
  end.

Definition demo_routing (fs : string -> outcome string) (sample_file : string)
  : io unit :=
  print_section "🎯 ROUTING DECISION";;
  text ← lift (fs sample_file);
  policy_number ← lift (_extract_field text "POLICY NUMBER[:\s]*([A-Z0-9-]+)");
  policyholder_name ← lift (_extract_field text
    "NAME OF INSURED[:\s]*\(First, Middle, Last\)[:\s]*([A-Za-z\s,\.]+?)(?:\n|INSURED)");
  date_of_loss ← lift (_extract_field text
    "DATE OF LOSS AND TIME[:\s]*(\d{1,2}[/-]\d{1,2}[/-]\d{2,4})");
  location ← lift (_extract_field text "CITY, STATE, ZIP:[:\s]*([^\n]+)");
  description ← lift (_extract_field text
    "DESCRIPTION OF ACCIDENT[:\s]*([^\n]+(?:\n(?!INSURED VEHICLE|DRIVER)[^\n]+)*)");
  let claim_type := _determine_claim_type text in
  let extracted : nested :=
    <["policy_information" :=
        <["policy_number" := of_optional policy_number]>
        (<["policyholder_name" := of_optional policyholder_name]> ∅)]>
    (<["incident_information" :=
        <["date_of_loss" := of_optional date_of_loss]>
        (<["location" := of_optional location]>
        (<["description" := of_optional description]> ∅))]>
    (<["involved_parties" := ∅]>
    (<["asset_details" := <["estimated_damage" := PyNone]> ∅]>
    (<["other_fields" := <["claim_type" := PyStr claim_type]> ∅]> ∅)))) in
  estimate ← lift (_extract_field text
    "ESTIMATE AMOUNT:[:\s]*\$?([0-9,]+(?:\.\d{2})?)");
  extracted ←
    (if truthy_opt estimate
     then
       x ← lift (Float.float (Str.replace ","%char "" (str_of estimate)));
       updated (store "asset_details" "estimated_damage" (PyNum x)) extracted
     else mret extracted);
  flattened ← lift (flatten_extracted_data extracted);
  let missing := validate_fields flattened in
  '(route, reasoning) ← lift (route_claim flattened missing);
  print ("  Route: " +:+ route);;
  print ("  Reasoning: " +:+ reasoning);;
  print (line_break +:+ "  " +:+ assoc_get route_icon route "📌"
         +:+ " Claim will be sent to: " +:+ route).

Definition demo_complete_flow (fs : string -> outcome string)
  (sample_file : string) : io unit :=
  print_header "AUTONOMOUS INSURANCE CLAIMS PROCESSING - DEMO";;
  print ("📁 Processing: " +:+ sample_file +:+ line_break);;
  text ← demo_extraction fs sample_file;
  demo_validation text;;
  demo_routing fs sample_file;;
  print (line_break +:+ str_repeat "=" 80 +:+ line_break).

(** * Vocabulary of the statements *)

(** The five routing lanes. *)
Definition ROUTES : list string :=
  [ "Manual Review"; "Investigation Queue"; "Specialist Queue";
    "Fast-Track"; "Standard Processing" ].

(** The keys of a flattened record. *)
Definition RECORD_KEYS : list string :=
  [ "policy_number"; "policyholder_name"; "effective_date";
    "date_of_loss"; "time_of_loss"; "location_of_loss";
    "description_of_accident";
    "claimant"; "driver_name"; "contact_phone"; "contact_email";
    "asset_type"; "asset_id"; "vehicle_description"; "estimated_damage";
    "claim_type"; "line_of_business"; "naic_code" ].

(** [needle] occurs in [hay] as a contiguous run of characters. *)
Definition occurs (needle hay : string) : Prop :=
  exists pre post, hay = pre +:+ needle +:+ post.

(** The description the fraud gate reads: the value under the key, the
    empty string when the record has no such key. *)
Definition description_text (rec : record) (d : string) : Prop :=
  rec !! "description_of_accident" = Some (PyStr d)
  \/ (rec !! "description_of_accident" = None /\ d = "").

(** One of the keywords occurs in the case-folded text. *)
Definition mentions (keywords : list string) (text : string) : Prop :=
  exists kw, In kw keywords /\ occurs kw (Str.lower text).

Definition has_fraud_keyword (d : string) : Prop := mentions FRAUD_KEYWORDS d.

Definition fraud_gate (description : string) : bool :=
  existsb (fun keyword => Str.contains keyword description) FRAUD_KEYWORDS.

(** Every match of [r] captures group [i]: the group lies on every path
    through [r]. *)
Fixpoint always_captures (i : nat) (r : Re.regex) : bool :=
  match r with
  | Re.Group j r' => (i =? j) || always_captures i r'
  | Re.Seq r1 r2 => always_captures i r1 || always_captures i r2
  | Re.Alt r1 r2 => always_captures i r1 && always_captures i r2
  | Re.Repeat _ min _ r' => (0 <? min) && always_captures i r'
  | _ => false
  end.

(** A pattern whose matches all capture group 1. *)
Definition captures_group1 (pattern : string) : bool :=
  match Re.compile pattern with
  | Some r => always_captures 1 r && (1 <=? Re.count_groups r)
  | None => false
  end.

(** The normalisation of an extracted value as the specification words it:
    leading and trailing white space is dropped and every run of white
    space inside becomes one space.  [started]: a character has been kept;
    [gap]: white space was met since. *)
Fixpoint collapse_from (started gap : bool) (s : string) : string :=
  match s with
  | EmptyString => ""
  | String c s' =>
      if Str.isspace c then collapse_from started started s'
      else if gap
           then String " " (String c (collapse_from true false s'))
           else String c (collapse_from true false s')
  end.

Definition collapse_whitespace (s : string) : string :=
  collapse_from false false s.

(** [value if value else None] *)
Definition nonempty (value : string) : option string :=
  if Str.truthy value then Some value else None.

(** The injury terms of the classifier. *)
Definition INJURY_TERMS : list string :=
  ["injury"; "injured"; "hospital"; "medical"; "ambulance"; "bodily"].

(** The four claim types. *)
Definition CLAIM_TYPES : list string :=
  ["injury"; "property_damage"; "collision"; "auto"].

(** The value [_extract_field] returns, [None] should it raise. *)
Definition extracted_value (text pattern : string) : option string :=
  match _extract_field text pattern with
  | Return v => v
  | Raise _ => None
  end.

(** A value [validate_fields] counts as missing: [None] (also for a key the
    record does not have), the empty string, or a zero. *)
Definition falsy (v : pyval) : Prop :=
  v = PyNone \/ v = PyStr "" \/ exists q, v = PyNum (Finite q) /\ (q == 0)%Q.

(** A mandatory field is blank: its value is a string that normalises to
    the empty string. *)
Definition blank (v : pyval) : Prop :=
  exists s, v = PyStr s /\ collapse_whitespace s = "".

(** The patterns [extract_from_pdf] hands to [_extract_field]. *)
Definition FIELD_PATTERNS : list string :=
  [ "POLICY NUMBER[:\s]*([A-Z0-9-]+)";
    "NAME OF INSURED[:\s]*\(First, Middle, Last\)[:\s]*([A-Za-z\s,\.]+?)(?:\n|DATE OF BIRTH)";
    "EFFECTIVE DATE[:\s]*(\d{1,2}[/-]\d{1,2}[/-]\d{2,4})";
    "DATE OF LOSS AND TIME[:\s]*(\d{1,2}[/-]\d{1,2}[/-]\d{2,4})";
    "STREET:[:\s]*([^\n]+)";
    "CITY, STATE, ZIP:[:\s]*([^\n]+)";
    "DESCRIPTION OF ACCIDENT[:\s]*\(ACORD[^\)]*\)[:\s]*([^\n]+(?:\n(?!LOSS|DRIVER|OWNER|VEHICLE)[^\n]+)*)";
    "NAME OF INSURED[:\s]*\(First, Middle, Last\)[:\s]*([A-Za-z\s,\.]+?)(?:\n|INSURED)";
    "DRIVER'S NAME AND ADDRESS[:\s]*\(Check if same as insured\)[:\s]*PHONE[^\n]*\n([A-Za-z\s,\.]+?)(?:\n|PHONE)";
    "E-MAIL ADDRESS:[:\s]*PRIMARY E-MAIL ADDRESS:[:\s]*([^\s\n]+@[^\s\n]+)";
    "VEH #[:\s]*YEAR[:\s]*(\d{4})";
    "MAKE:[:\s]*([A-Z][A-Za-z]+)";
    "MODEL:[:\s]*([A-Za-z0-9\s]+?)(?:\n|BODY)";
    "V\.I\.N\.:[:\s]*([A-Z0-9]{17})";
    "ESTIMATE AMOUNT:[:\s]*\$?([0-9,]+(?:\.\d{2})?)";
    "LINE OF BUSINESS[:\s]*([A-Z\s]+?)(?:\n|ACORD)";
    "CARRIER NAIC CODE[:\s]*(\d+)" ].

(** One attempt of [r] at the start of [s]: what is left and the groups. *)
Definition match_at (ignorecase multiline : bool) (r : Re.regex)
  (prev : option ascii) (s : string) : option (string * Re.captures) :=
  Re.run ignorecase multiline r prev s ∅ (fun _ rest g => Some (rest, g)).

(** The character before the text that follows [pre]. *)
Fixpoint prev_after (prev : option ascii) (pre : string) : option ascii :=
  match pre with
  | EmptyString => prev
  | String c pre' => prev_after (Some c) pre'
  end.

(** Every success of [m] goes through its continuation, with the groups
    before and after related by [Q]. *)
Definition through (m : Re.matcher) (Q : Re.captures -> Re.captures -> Prop)
  : Prop :=
  forall prev s g k res,
    m prev s g k = Some res ->
    exists prev' s' g', k prev' s' g' = Some res /\ Q g g'.

(** Group [i], once captured, stays captured; and is captured when [b]. *)
Definition keeps (i : nat) (g g' : Re.captures) : Prop :=
  is_Some (g !! i) -> is_Some (g' !! i).

Definition keeps_and (i : nat) (b : bool) (g g' : Re.captures) : Prop :=
  keeps i g g' /\ (b = true -> is_Some (g' !! i)).

(** [m] treats continuations that agree alike. *)
Definition extensional (m : Re.matcher) : Prop :=
  forall prev s g k1 k2,
    (forall prev' s' g', k1 prev' s' g' = k2 prev' s' g') ->
    m prev s g k1 = m prev s g k2.

(** ** The assembled record, field by field

    What [flatten_extracted_data (extract_from_pdf text)] holds under each
    key, written as a table over the values of the extractions. *)

(** The match [re.search] returns, [None] should it raise. *)
Definition found (text pattern : string) (flags : list Re.flag)
  : option Re.match_object :=
  match Re.search pattern text flags with
  | Return m => m
  | Raise _ => None
  end.

Definition expected_time (text : string) : pyval :=
  match found text "(\d{1,2}:\d{2})\s*(AM|PM)" [Re.IGNORECASE] with
  | Some m =>
      PyStr (str_of (Re.groups m !! 1) +:+ " " +:+ str_of (Re.groups m !! 2))
  | None => PyNone
  end.

Definition expected_phone (text : string) : pyval :=
  match found text
          "PHONE #[:\s]*HOME BUS CELL PRIMARY[:\s]*(\d{3}[-\.\s]?\d{3}[-\.\s]?\d{4})"
          [] with
  | Some m => of_optional (Re.groups m !! 1)
  | None => PyNone
  end.

Definition expected_location (street city_state_zip : option string) : pyval :=
  match append_part (append_part [] street) city_state_zip with
  | [] => PyNone
  | parts => PyStr (Str.join ", " parts)
  end.

Definition expected_vehicle (year make model : option string) : pyval :=
  if truthy_opt year || truthy_opt make || truthy_opt model
  then PyStr (Str.join " " (filter_truthy [year; make; model]))
  else PyNone.

(** The amount: the captured text without its commas, read as a number;
    [None] when there is no capture or it does not read as a number. *)
Definition expected_damage (estimate : option string) : pyval :=
  match estimate with
  | Some e =>
      match Float.float (Str.replace ","%char "" e) with
      | Return x => PyNum x
      | Raise _ => PyNone
      end
  | None => PyNone
  end.

Definition expected_record (text : string) : record :=
  let field := extracted_value text in
  list_to_map
    [ ("policy_number", of_optional (field "POLICY NUMBER[:\s]*([A-Z0-9-]+)"));
      ("policyholder_name", of_optional (field
         "NAME OF INSURED[:\s]*\(First, Middle, Last\)[:\s]*([A-Za-z\s,\.]+?)(?:\n|DATE OF BIRTH)"));
      ("effective_date", of_optional (field
         "EFFECTIVE DATE[:\s]*(\d{1,2}[/-]\d{1,2}[/-]\d{2,4})"));
      ("date_of_loss", of_optional (field
         "DATE OF LOSS AND TIME[:\s]*(\d{1,2}[/-]\d{1,2}[/-]\d{2,4})"));
      ("time_of_loss", expected_time text);
      ("location_of_loss",
         expected_location (field "STREET:[:\s]*([^\n]+)")
           (field "CITY, STATE, ZIP:[:\s]*([^\n]+)"));
      ("description_of_accident", of_optional (field
         "DESCRIPTION OF ACCIDENT[:\s]*\(ACORD[^\)]*\)[:\s]*([^\n]+(?:\n(?!LOSS|DRIVER|OWNER|VEHICLE)[^\n]+)*)"));
      ("claimant", of_optional (field
         "NAME OF INSURED[:\s]*\(First, Middle, Last\)[:\s]*([A-Za-z\s,\.]+?)(?:\n|INSURED)"));
      ("driver_name", of_optional (field
         "DRIVER'S NAME AND ADDRESS[:\s]*\(Check if same as insured\)[:\s]*PHONE[^\n]*\n([A-Za-z\s,\.]+?)(?:\n|PHONE)"));
      ("contact_phone", expected_phone text);
      ("contact_email", of_optional (field
         "E-MAIL ADDRESS:[:\s]*PRIMARY E-MAIL ADDRESS:[:\s]*([^\s\n]+@[^\s\n]+)"));
      ("asset_type", PyStr "vehicle");
      ("asset_id", of_optional (field "V\.I\.N\.:[:\s]*([A-Z0-9]{17})"));
      ("vehicle_description",
         expected_vehicle (field "VEH #[:\s]*YEAR[:\s]*(\d{4})")
           (field "MAKE:[:\s]*([A-Z][A-Za-z]+)")
           (field "MODEL:[:\s]*([A-Za-z0-9\s]+?)(?:\n|BODY)"));
      ("estimated_damage", expected_damage (field
         "ESTIMATE AMOUNT:[:\s]*\$?([0-9,]+(?:\.\d{2})?)"));
      ("claim_type", PyStr (_determine_claim_type text));
      ("line_of_business", of_optional (field
         "LINE OF BUSINESS[:\s]*([A-Z\s]+?)(?:\n|ACORD)"));
      ("naic_code", of_optional (field "CARRIER NAIC CODE[:\s]*(\d+)")) ].

(** The record of a document whose text could not be read. *)
Definition empty_record : record :=
  list_to_map (map (fun key => (key, PyNone)) RECORD_KEYS).

(** ** A logic for the statements of [extract_from_pdf]

    [view] is what the nested dict holds, by section and key. *)

Definition SECTIONS : list string :=
  [ "policy_information"; "incident_information"; "involved_parties";
    "asset_details"; "other_fields" ].

Definition view : Type := string -> string -> option pyval.

Definition empty_view : view := fun _ _ => None.

(** The view after an assignment that takes place when [v] is [Some _]. *)
Definition upd (section key : string) (v : option pyval) (mu : view) : view :=
  fun s k =>
    if String.eqb s section && String.eqb k key
    then match v with
         | Some _ => v
         | None => mu s k
         end
    else mu s k.

Definition lookup2 (extracted : nested) (section key : string) : option pyval :=
  match extracted !! section with
  | Some d => d !! key
  | None => None
  end.

Definition models (extracted : nested) (mu : view) : Prop :=
  (forall s, In s SECTIONS -> is_Some (extracted !! s))
  /\ forall s k, lookup2 extracted s k = mu s k.

(** [m], run on a dict that holds [mu], returns without raising and leaves
    a dict whose view satisfies [Q]. *)
Definition wp {A : Type} (m : stmt A) (mu : view) (Q : A -> view -> Prop) : Prop :=
  forall extracted,
    models extracted mu ->
    exists a extracted' mu',
      m extracted = (extracted', Return a)
      /\ models extracted' mu' /\ Q a mu'.

(** The flat key of each entry of the nested dict, in the order
    [flatten_extracted_data] reads them. *)
Definition FLATTEN_TABLE : list (string * (string * string)) :=
  [ ("policy_number", ("policy_information", "policy_number"));
    ("policyholder_name", ("policy_information", "policyholder_name"));
    ("effective_date", ("policy_information", "effective_date"));
    ("date_of_loss", ("incident_information", "date_of_loss"));
    ("time_of_loss", ("incident_information", "time"));
    ("location_of_loss", ("incident_information", "location"));
    ("description_of_accident", ("incident_information", "description"));
    ("claimant", ("involved_parties", "claimant"));
    ("driver_name", ("involved_parties", "driver_name"));
    ("contact_phone", ("involved_parties", "contact_phone"));
    ("contact_email", ("involved_parties", "contact_email"));
    ("asset_type", ("asset_details", "asset_type"));
    ("asset_id", ("asset_details", "asset_id"));
    ("vehicle_description", ("asset_details", "vehicle_description"));
    ("estimated_damage", ("asset_details", "estimated_damage"));
    ("claim_type", ("other_fields", "claim_type"));
    ("line_of_business", ("other_fields", "line_of_business"));
    ("naic_code", ("other_fields", "naic_code")) ].

Definition flatten_view (mu : view) : record :=
  list_to_map
    (map (fun '(flat, (section, key)) => (flat, default PyNone (mu section key)))
       FLATTEN_TABLE).

(** The order of the classifier's cascade: a type found earlier ranks
    higher. *)
Definition claim_rank (claim_type : string) : nat :=
  if String.eqb claim_type "injury" then 3
  else if String.eqb claim_type "property_damage" then 2
  else if String.eqb claim_type "collision" then 1
  else 0.

(** Every character of [s] satisfies [p]. *)
Fixpoint every (p : ascii -> bool) (s : string) : bool :=
  match s with
  | EmptyString => true
  | String c s' => p c && every p s'
  end.

(** A value is in normal form: it has a character, none of its white space
    is anything but a single space between two words. *)
Definition normal_form (v : string) : Prop :=
  v <> ""
  /\ Str.strip v = v
  /\ Str.join " " (Str.split v) = v
  /\ every (fun c => negb (Str.isspace c) || Ascii.eqb c " ") v = true
  /\ ~ occurs "  " v.

(** The result of a document that gave no text. *)
Definition unread_result : processing_result :=
  Result empty_record MANDATORY_FIELDS "Manual Review"
    "Missing mandatory fields: policy_number, policyholder_name, date_of_loss, location_of_loss, description_of_accident, claim_type".

(** [s] continues a value in normal form: after a word ([after_word]) it
    may end or go on with one space and a word; otherwise it starts with a
    word. *)
Fixpoint spaced (after_word : bool) (s : string) : bool :=
  match s with
  | EmptyString => after_word
  | String c s' =>
      if Str.isspace c
      then after_word && Ascii.eqb c " " && spaced false s'
      else spaced true s'
  end.

(** A page with a text layer, and the lines of several pages. *)
Definition text_page (t : string) : page := Return (Some t).

Fixpoint page_lines (texts : list string) : string :=
  match texts with
  | [] => ""
  | t :: rest => t +:+ String Re.newline "" +:+ page_lines rest
  end.

(** ** What an expression reads

    [lang ignorecase r w]: [w] is a text that [r] can read from start to
    end, the assertions ([^], [$] and the lookahead) taken as reading
    nothing.  It bounds what the matcher does from above: whatever a match
    or a group spans is in the language of its expression. *)

(** The texts of [ws] one after the other. *)
Fixpoint glue (ws : list string) : string :=
  match ws with
  | [] => ""
  | w :: ws' => w +:+ glue ws'
  end.

Section Lang.

Variable ignorecase : bool.

Fixpoint lang (r : Re.regex) (w : string) : Prop :=
  match r with
  | Re.Empty | Re.Bol | Re.Eol | Re.NotAhead _ => w = ""
  | Re.Char x => exists c, w = String c "" /\ Re.char_matches ignorecase x c = true
  | Re.Dot => exists c, w = String c "" /\ Re.is_newline c = false
  | Re.CharSet negate items =>
      exists c, w = String c ""
                /\ Re.set_matches ignorecase negate items c = true
  | Re.Seq r1 r2 => exists w1 w2, w = w1 +:+ w2 /\ lang r1 w1 /\ lang r2 w2
  | Re.Alt r1 r2 => lang r1 w \/ lang r2 w
  | Re.Repeat _ min max r' =>
      exists ws,
        w = glue ws
        /\ Forall (lang r') ws
        /\ min <= length ws
        /\ forall m, max = Some m -> length ws <= min + (m - min)
  | Re.Group _ r' => lang r' w
  end.

(** The characters [r] can read. *)
Fixpoint accepts (r : Re.regex) (c : ascii) : bool :=
  match r with
  | Re.Char x => Re.char_matches ignorecase x c
  | Re.Dot => negb (Re.is_newline c)
  | Re.CharSet negate items => Re.set_matches ignorecase negate items c
  | Re.Seq r1 r2 | Re.Alt r1 r2 => accepts r1 c || accepts r2 c
  | Re.Repeat _ _ _ r' | Re.Group _ r' => accepts r' c
  | Re.Empty | Re.Bol | Re.Eol | Re.NotAhead _ => false
  end.

End Lang.

(** The groups of [r] with their expressions; those of a lookahead are
    dropped with it. *)
Fixpoint groups_of (r : Re.regex) : list (nat * Re.regex) :=
  match r with
  | Re.Group j r' => (j, r') :: groups_of r'
  | Re.Seq r1 r2 | Re.Alt r1 r2 => groups_of r1 ++ groups_of r2
  | Re.Repeat _ _ _ r' => groups_of r'
  | _ => []
  end.

(** The least and the greatest number of characters [r] reads ([None]: no
    bound). *)
Fixpoint min_length (r : Re.regex) : nat :=
  match r with
  | Re.Char _ | Re.Dot | Re.CharSet _ _ => 1
  | Re.Seq r1 r2 => min_length r1 + min_length r2
  | Re.Alt r1 r2 => Nat.min (min_length r1) (min_length r2)
  | Re.Repeat _ min _ r' => min * min_length r'
  | Re.Group _ r' => min_length r'
  | Re.Empty | Re.Bol | Re.Eol | Re.NotAhead _ => 0
  end.

Fixpoint max_length (r : Re.regex) : option nat :=
  match r with
  | Re.Char _ | Re.Dot | Re.CharSet _ _ => Some 1
  | Re.Seq r1 r2 =>
      match max_length r1, max_length r2 with
      | Some a, Some b => Some (a + b)
      | _, _ => None
      end
  | Re.Alt r1 r2 =>
      match max_length r1, max_length r2 with
      | Some a, Some b => Some (Nat.max a b)
      | _, _ => None
      end
  | Re.Repeat _ min max r' =>
      match max, max_length r' with
      | Some m, Some a => Some ((min + (m - min)) * a)
      | _, _ => None
      end
  | Re.Group _ r' => max_length r'
  | Re.Empty | Re.Bol | Re.Eol | Re.NotAhead _ => Some 0
  end.



(** The groups a match leaves behind: each group of [g'] was in [g]
    already, or is a part of the text [s] that satisfies [P]. *)
Definition grown (P : nat -> string -> Prop) (s : string)
  (g g' : Re.captures) : Prop :=
  forall j c, g' !! j = Some c -> g !! j = Some c \/ (occurs c s /\ P j c).

(** [m] succeeds only through its continuation, having read a text of [L]
    from the front of [s]. *)
Definition reads (m : Re.matcher) (L : string -> Prop)
  (P : nat -> string -> Prop) : Prop :=
  forall prev s g k res,
    m prev s g k = Some res ->
    exists prev' w s' g',
      s = w +:+ s' /\ L w /\ grown P s g g' /\ k prev' s' g' = Some res.

(** Group [j] of [r] can span [c]. *)
Definition group_lang (ignorecase : bool) (r : Re.regex) (j : nat) (c : string)
  : Prop :=
  exists body, In (j, body) (groups_of r) /\ lang ignorecase body c.

(** The 256 characters. *)
Definition all_ascii : list ascii := map ascii_of_nat (seq 0 256).

(** [q] holds of every character that satisfies [p]. *)
Definition within (p q : ascii -> bool) : bool :=
  forallb (fun c => implb (p c) (q c)) all_ascii.



Definition amount_char (c : ascii) : bool :=
  Re.is_digit c || Ascii.eqb c "," || Ascii.eqb c ".".


Definition not_space (c : ascii) : bool := negb (Str.isspace c).

(** A field of the record is absent, or a string of between [lo] and [hi]
    characters that all satisfy [p] ([hi = None]: no upper bound). *)
Definition shaped (p : ascii -> bool) (lo : nat) (hi : option nat)
  (v : option pyval) : Prop :=
  v = Some PyNone
  \/ exists s,
       v = Some (PyStr s)
       /\ every p s = true
       /\ lo <= String.length s
       /\ forall n, hi = Some n -> String.length s <= n.

(** The expression of group [j] of a pattern. *)
Definition group_body (pattern : string) (j : nat) : option Re.regex :=
  r ← Re.compile pattern;
  match List.filter (fun '(i, _) => i =? j) (groups_of r) with
  | [(_, body)] => Some body
  | _ => None
  end.

Definition decimal_char (c : ascii) : bool :=
  Re.is_digit c || Ascii.eqb c ".".

(** The record [process_text_fnol] assembles, field by field. *)
Definition expected_text_phone (text : string) : pyval :=
  match found text
          "PHONE #[:\s]*PRIMARY[:\s]*(\d{3}[-\.\s]?\d{3}[-\.\s]?\d{4})" [] with
  | Some m => of_optional (Re.groups m !! 1)
  | None => PyNone
  end.

Definition expected_text_record (text : string) : record :=
  let field := extracted_value text in
  list_to_map
    [ ("policy_number", of_optional (field "POLICY NUMBER[:\s]*([A-Z0-9-]+)"));
      ("policyholder_name", of_optional (field
         "NAME OF INSURED[:\s]*\(First, Middle, Last\)[:\s]*([A-Za-z\s,\.]+?)(?:\n|INSURED|DATE OF BIRTH)"));
      ("effective_date", PyNone);
      ("date_of_loss", of_optional (field
         "DATE OF LOSS AND TIME[:\s]*(\d{1,2}[/-]\d{1,2}[/-]\d{2,4})"));
      ("time_of_loss", expected_time text);
      ("location_of_loss",
         expected_location (field "STREET:[:\s]*([^\n]+)")
           (field "CITY, STATE, ZIP:[:\s]*([^\n]+)"));
      ("description_of_accident", of_optional (field
         "DESCRIPTION OF ACCIDENT[:\s]*([^\n]+(?:\n(?!INSURED VEHICLE|DRIVER|OWNER|WITNESSES)[^\n]+)*)"));
      ("claimant", of_optional (field
         "NAME OF INSURED[:\s]*\(First, Middle, Last\)[:\s]*([A-Za-z\s,\.]+?)(?:\n|INSURED)"));
      ("driver_name", PyNone);
      ("contact_phone", expected_text_phone text);
      ("contact_email", of_optional (field
         "E-MAIL ADDRESS[:\s]*PRIMARY[:\s]*([^\s\n]+@[^\s\n]+)"));
      ("asset_type", PyStr "vehicle");
      ("asset_id", of_optional (field "V\.I\.N\.:[:\s]*([A-Z0-9]{17})"));
      ("vehicle_description",
         expected_vehicle (field "(?:VEH #.*)?YEAR[:\s]*(\d{4})")
           (field "MAKE:[:\s]*([A-Z][A-Za-z]+)")
           (field "MODEL:[:\s]*([A-Za-z0-9\s]+?)(?:\n|BODY)"));
      ("estimated_damage", expected_damage (field
         "ESTIMATE AMOUNT:[:\s]*\$?([0-9,]+(?:\.\d{2})?)"));
      ("claim_type", PyStr (_determine_claim_type text));
      ("line_of_business", of_optional (field
         "LINE OF BUSINESS[:\s]*([A-Z\s]+?)(?:\n|INSURED)"));
      ("naic_code", of_optional (field "CARRIER NAIC CODE[:\s]*(\d+)")) ].

(** The keys both assemblers fill from the same pattern. *)
Definition SHARED_KEYS : list string :=
  [ "policy_number"; "date_of_loss"; "time_of_loss"; "location_of_loss";
    "claimant"; "asset_type"; "asset_id"; "estimated_damage"; "claim_type";
    "naic_code" ].

(** The three lines of the banner. *)
Definition header_lines (title : string) : list string :=
  [ line_break +:+ str_repeat "=" 80; "  " +:+ title;
    str_repeat "=" 80 +:+ line_break ].

(** The three lines of a section heading. *)
Definition section_lines (title : string) : list string :=
  [ line_break +:+ str_repeat "-" 80; "  " +:+ title; str_repeat "-" 80 ].


(** The number a run of decimal digits writes after [mant]. *)
Fixpoint digit_fold (mant : N) (s : string) : N :=
  match s with
  | EmptyString => mant
  | String c s' => digit_fold (10 * mant + (Str.code c - 48)) s'
  end.


(** * Sample inputs *)

(** A record whose description is absent, every other field in order. *)
Definition absent_description_record : record :=
  <["policy_number" := PyStr "POL-2024-001"]>
  (<["description_of_accident" := PyNone]>
  (<["claim_type" := PyStr "collision"]>
  (<["estimated_damage" := PyNum (Finite (1500 # 1))]> ∅))).

(** Sample records. *)
Definition fraud_record : record :=
  <["description_of_accident" :=
      PyStr "Witness says the insured was DEFRAUDED; damage looks Suspiciously old"]>
  (<["claim_type" := PyStr "injury"]>
  (<["estimated_damage" := PyNum (Finite (1500 # 1))]> ∅)).

Definition threshold_record : record :=
  <["description_of_accident" := PyStr "Hit a deer on the county road"]>
  (<["claim_type" := PyStr "collision"]>
  (<["estimated_damage" := PyNum (Finite (25000 # 1))]> ∅)).

Definition absent_description_injury_record : record :=
  <["description_of_accident" := PyNone]>
  (<["claim_type" := PyStr "injury"]>
  (<["estimated_damage" := PyNum (Finite (50000 # 1))]> ∅)).

(** All mandatory fields are filled in, the policy number with spaces only. *)
Definition blank_policy_record : record :=
  <["policy_number" := PyStr "   "]>
  (<["policyholder_name" := PyStr "John A. Smith"]>
  (<["date_of_loss" := PyStr "03/15/2024"]>
  (<["location_of_loss" := PyStr "12 Main Street"]>
  (<["description_of_accident" := PyStr "Rear-ended at a red light."]>
  (<["claim_type" := PyStr "collision"]> ∅))))).

(** The text of a notice of loss, complete but for the three parts that
    vary between the sample documents: the line of the date of loss, the
    description of the accident and the estimated amount. *)
Definition notice (date_line description amount : string) : string :=
"AUTOMOBILE LOSS NOTICE
POLICY NUMBER: ABC123
CARRIER NAIC CODE: 12345
LINE OF BUSINESS: PERSONAL AUTO
NAME OF INSURED (First, Middle, Last): John A. Smith
EFFECTIVE DATE: 01/01/2024
" +:+ date_line +:+
"STREET: 12 Main Street
CITY, STATE, ZIP: Springfield, IL 62701
DESCRIPTION OF ACCIDENT (ACORD 101, Additional Remarks Schedule, may be attached if more space is required): "
+:+ description +:+ "
DRIVER'S NAME AND ADDRESS (Check if same as insured): PHONE # HOME BUS CELL PRIMARY
John A. Smith
PHONE # HOME BUS CELL PRIMARY 555-123-4567
E-MAIL ADDRESS: PRIMARY E-MAIL ADDRESS: john@example.com
VEH # YEAR 2019 MAKE: Toyota MODEL: Camry
BODY TYPE: sedan
V.I.N.: 1HGBH41JXMN109186
ESTIMATE AMOUNT: " +:+ amount +:+ "
".

Definition sample_text : string :=
  notice "DATE OF LOSS AND TIME: 03/15/2024 2:30 PM
" "Rear-ended at a red light.
Bumper cracked." "$10,000.00".

(** A notice whose amount is a lone comma: the pattern captures it, and
    nothing is left to read as a number once the comma is removed. *)
Definition comma_amount_text : string :=
"POLICY NUMBER: ABC123
ESTIMATE AMOUNT: ,
CARRIER NAIC CODE: 12345
".


(** A scanned page between two pages of text. *)
Definition scanned_document : document :=
  Return [ text_page "POLICY NUMBER: ABC123"; Return None;
           text_page "ESTIMATE AMOUNT: $900.00" ].

(** A notice as the text samples write it: the description follows its
    heading at once. *)
Definition plain_notice : string :=
"POLICY NUMBER: ABC123
NAME OF INSURED (First, Middle, Last): John A. Smith
DATE OF LOSS AND TIME: 03/15/2024 2:30 PM
CITY, STATE, ZIP: Springfield, IL 62701
DESCRIPTION OF ACCIDENT: Rear-ended at a red light.
ESTIMATE AMOUNT: $900.00
".

(** A file system in which every name gives the same text. *)
Definition every_file (text : string) : string -> outcome string :=
  fun _ => Return text.

(** * Properties *)

(** ** Strings *)

Lemma append_cons (c : ascii) (a b : string) :
  String c a +:+ b = String c (a +:+ b).
Proof. reflexivity. Qed.

Lemma append_nil_l (s : string) : "" +:+ s = s.
Proof. reflexivity. Qed.

Lemma append_nil_r (s : string) : s +:+ "" = s.
Proof.
  induction s as [|c s IH]; [reflexivity | now rewrite append_cons, IH].
Qed.

Lemma append_assoc (a b c : string) : (a +:+ b) +:+ c = a +:+ (b +:+ c).
Proof.
  induction a as [|x a IH]; [reflexivity | now rewrite !append_cons, IH].
Qed.

Lemma startswith_spec (p s : string) :
  Str.startswith p s = true <-> exists post, s = p +:+ post.
Proof.
  revert s. induction p as [|a p IH]; intros s.
  - split; [intros _; now exists s | reflexivity].
  - destruct s as [|b s]; cbn [Str.startswith].
    + split; [discriminate | intros [post H]; discriminate].
    + rewrite andb_true_iff, Ascii.eqb_eq, IH. split.
      * intros [-> [post ->]]. now exists post.
      * intros [post H]. rewrite append_cons in H. injection H as -> ->.
        split; [reflexivity | now exists post].
Qed.

Lemma contains_spec (needle hay : string) :
  Str.contains needle hay = true <-> occurs needle hay.
Proof.
  unfold occurs. induction hay as [|c hay IH].
  - cbn [Str.contains]. rewrite orb_false_r, startswith_spec. split.
    + intros [post H]. now exists "", post.
    + intros [[|x pre] [post H]]; [now exists post | discriminate].
  - cbn [Str.contains]. rewrite orb_true_iff, startswith_spec, IH. split.
    + intros [[post H] | [pre [post H]]].
      * now exists "", post.
      * exists (String c pre), post. now rewrite append_cons, H.
    + intros [[|x pre] [post H]].
      * left. now exists post.
      * right. rewrite append_cons in H. injection H as -> ->. now exists pre, post.
Qed.

Lemma lower_app (a b : string) :
  Str.lower (a +:+ b) = Str.lower a +:+ Str.lower b.
Proof.
  induction a as [|c a IH]; [reflexivity |].
  rewrite append_cons. cbn [Str.lower]. now rewrite IH, append_cons.
Qed.

Lemma occurs_lower (mid d : string) :
  occurs mid d -> occurs (Str.lower mid) (Str.lower d).
Proof.
  intros [pre [post ->]]. exists (Str.lower pre), (Str.lower post).
  now rewrite !lower_app.
Qed.

Lemma append_nonempty_l (a b : string) : a <> "" -> a +:+ b <> "".
Proof. destruct a as [|c a]; [congruence | discriminate]. Qed.

(** ** White space normalisation *)

Lemma split_from_cons (w : string) (c : ascii) (s : string) :
  Str.split_from w (String c s) =
    if Str.isspace c
    then match w with
         | EmptyString => Str.split_from "" s
         | _ => w :: Str.split_from "" s
         end
    else Str.split_from (w +:+ String c "") s.
Proof. reflexivity. Qed.

Lemma split_from_lstrip (s : string) :
  Str.split_from "" (Str.lstrip s) = Str.split_from "" s.
Proof.
  induction s as [|c s IH]; [reflexivity |].
  cbn [Str.lstrip]. rewrite split_from_cons.
  destruct (Str.isspace c) eqn:E; [exact IH |].
  now rewrite split_from_cons, E.
Qed.

Lemma split_from_rstrip (s : string) :
  forall w, Str.split_from w (Str.rstrip s) = Str.split_from w s.
Proof.
  induction s as [|c s IH]; intros w; [reflexivity |].
  cbn [Str.rstrip]. destruct (Str.rstrip s) as [|c' r] eqn:Er.
  - rewrite (split_from_cons w c s), <- !IH.
    destruct (Str.isspace c) eqn:E.
    + now destruct w.
    + now rewrite split_from_cons, E.
  - now rewrite !(split_from_cons w c), !IH.
Qed.

Lemma split_strip (s : string) : Str.split (Str.strip s) = Str.split s.
Proof.
  unfold Str.split, Str.strip. now rewrite split_from_rstrip, split_from_lstrip.
Qed.

Lemma split_from_nonempty (s : string) :
  forall w, Forall (fun x => x <> "") (Str.split_from w s).
Proof.
  induction s as [|c s IH]; intros w.
  - destruct w; cbn; [constructor | repeat constructor; discriminate].
  - rewrite split_from_cons. destruct (Str.isspace c); [| apply IH].
    destruct w; [apply IH | constructor; [discriminate | apply IH]].
Qed.

Lemma join_cons (sep x : string) (l : list string) :
  Str.join sep (x :: l) =
    match l with
    | [] => x
    | _ => x +:+ sep +:+ Str.join sep l
    end.
Proof. now destruct l. Qed.

Lemma join_nonempty (sep x : string) (l : list string) :
  x <> "" -> Str.join sep (x :: l) <> "".
Proof.
  intros Hx. rewrite join_cons. destruct l; [exact Hx |].
  now apply append_nonempty_l.
Qed.

Lemma collapse_from_gap (s : string) :
  collapse_from true true s =
    match collapse_from false false s with
    | EmptyString => ""
    | t => String " " t
    end.
Proof.
  induction s as [|c s IH]; [reflexivity |].
  cbn [collapse_from]. destruct (Str.isspace c); [exact IH | reflexivity].
Qed.

Lemma join_split_from (s : string) :
  forall w,
    Str.join " " (Str.split_from w s) =
      match w with
      | EmptyString => collapse_from false false s
      | _ => w +:+ collapse_from true false s
      end.
Proof.
  induction s as [|c s IH]; intros w.
  - destruct w; [reflexivity |]. cbn [Str.split_from collapse_from Str.join].
    now rewrite append_nil_r.
  - rewrite split_from_cons. cbn [collapse_from]. destruct (Str.isspace c).
    + destruct w as [|a w]; [apply (IH "") |].
      rewrite join_cons, collapse_from_gap. specialize (IH "").
      pose proof (split_from_nonempty s "") as Hne.
      destruct (Str.split_from "" s) as [|x l].
      * cbn in IH. rewrite <- IH. now rewrite append_nil_r.
      * apply Forall_cons_iff in Hne as [Hx _].
        pose proof (join_nonempty " " x l Hx) as Hj. rewrite IH in *.
        destruct (collapse_from false false s); [congruence | reflexivity].
    + rewrite IH. destruct w as [|a w]; [reflexivity |].
      now rewrite !append_cons, append_assoc.
Qed.

(** The normalisation [_extract_field] applies is the one the
    specification describes. *)
Lemma normalise_collapse (s : string) :
  Str.join " " (Str.split (Str.strip s)) = collapse_whitespace s.
Proof.
  rewrite split_strip. apply (join_split_from s "").
Qed.

(** ** Numbers *)


Lemma Qltb_ge (x y : Q) : Num.Qltb x y = false <-> (y <= x)%Q.
Proof. unfold Num.Qltb, Qle. rewrite Z.ltb_ge. reflexivity. Qed.

(** ** The matcher only adds captures *)

Section Captures.

Variables ignorecase multiline : bool.
Variable i : nat.

Lemma through_repeat_more (body : Re.matcher) (greedy : bool) :
  through body (keeps i) ->
  forall fuel budget k prev s g res,
    Re.repeat_more greedy body fuel budget k prev s g = Some res ->
    exists prev' s' g', k prev' s' g' = Some res /\ keeps i g g'.
Proof.
  intros Hbody. induction fuel as [|fuel IH]; intros budget k prev s g res H.
  - exists prev, s, g. split; [exact H | now intros ?].
  - cbn [Re.repeat_more] in H.
    assert (Hadv : forall res',
      (if Re.allows budget
       then Re.advance body
              (Re.repeat_more greedy body fuel (pred <$> budget) k) prev s g
       else None) = Some res' ->
      exists prev' s' g', k prev' s' g' = Some res' /\ keeps i g g').
    { intros res' Ha. destruct (Re.allows budget); [|discriminate].
      unfold Re.advance in Ha. apply Hbody in Ha as (p1 & s1 & g1 & Ha & Hk1).
      destruct (String.length s1 <? String.length s); [|discriminate].
      apply IH in Ha as (p2 & s2 & g2 & Ha & Hk2).
      exists p2, s2, g2. split; [exact Ha | intros ?; auto]. }
    destruct greedy.
    + match type of H with
      | match ?x with _ => _ end = _ => destruct x as [m|] eqn:E
      end.
      * injection H as <-. now apply Hadv.
      * exists prev, s, g. split; [exact H | now intros ?].
    + destruct (k prev s g) as [m|] eqn:E.
      * injection H as <-. exists prev, s, g. split; [exact E | now intros ?].
      * now apply Hadv.
Qed.

Lemma through_repeat_min (body : Re.matcher) (b : bool) :
  through body (keeps_and i b) ->
  forall n k prev s g res,
    Re.repeat_min body n k prev s g = Some res ->
    exists prev' s' g',
      k prev' s' g' = Some res /\ keeps_and i ((0 <? n) && b) g g'.
Proof.
  intros Hbody. induction n as [|n IH]; intros k prev s g res H.
  - exists prev, s, g. split; [exact H |]. split; [now intros ? | discriminate].
  - cbn [Re.repeat_min] in H.
    apply Hbody in H as (p1 & s1 & g1 & H & Hk1 & Hb1).
    apply IH in H as (p2 & s2 & g2 & H & Hk2 & _).
    exists p2, s2, g2. split; [exact H |]. split.
    + intros ?. auto.
    + cbn. intros ->. auto.
Qed.

Lemma through_run (r : Re.regex) :
  through (Re.run ignorecase multiline r) (keeps_and i (always_captures i r)).
Proof.
  induction r as [| c | | negate items | | | r1 IH1 r2 IH2 | r1 IH1 r2 IH2
                 | greedy min max r IH | j r IH | r IH];
    intros prev s g k res H; cbn [Re.run always_captures] in *.
  - exists prev, s, g. split; [exact H |]. split; [now intros ? | discriminate].
  - unfold Re.one_char in H. destruct s as [|c' s]; [discriminate |].
    destruct (Re.char_matches ignorecase c c'); [| discriminate].
    eexists _, _, g. split; [exact H |]. split; [now intros ? | discriminate].
  - unfold Re.one_char in H. destruct s as [|c' s]; [discriminate |].
    destruct (negb (Re.is_newline c')); [| discriminate].
    eexists _, _, g. split; [exact H |]. split; [now intros ? | discriminate].
  - unfold Re.one_char in H. destruct s as [|c' s]; [discriminate |].
    destruct (Re.set_matches ignorecase negate items c'); [| discriminate].
    eexists _, _, g. split; [exact H |]. split; [now intros ? | discriminate].
  - destruct (Re.at_bol multiline prev); [| discriminate].
    exists prev, s, g. split; [exact H |]. split; [now intros ? | discriminate].
  - destruct (Re.at_eol multiline s); [| discriminate].
    exists prev, s, g. split; [exact H |]. split; [now intros ? | discriminate].
  - apply IH1 in H as (p1 & s1 & g1 & H & Hk1 & Hb1).
    apply IH2 in H as (p2 & s2 & g2 & H & Hk2 & Hb2).
    exists p2, s2, g2. split; [exact H |]. split.
    + intros ?. auto.
    + rewrite orb_true_iff. intros [E | E]; auto.
  - destruct (Re.run ignorecase multiline r1 prev s g k) as [m|] eqn:E.
    + injection H as <-. apply IH1 in E as (p1 & s1 & g1 & E & Hk1 & Hb1).
      exists p1, s1, g1. split; [exact E |]. split; [exact Hk1 |].
      rewrite andb_true_iff. intros [? ?]. auto.
    + apply IH2 in H as (p2 & s2 & g2 & H & Hk2 & Hb2).
      exists p2, s2, g2. split; [exact H |]. split; [exact Hk2 |].
      rewrite andb_true_iff. intros [? ?]. auto.
  - apply (through_repeat_min _ _ IH) in H as (p1 & s1 & g1 & H & Hk1 & Hb1).
    assert (Hkeep : through (Re.run ignorecase multiline r) (keeps i)).
    { intros p0 s0 g0 k0 res0 H0.
      apply IH in H0 as (p' & s' & g' & H0 & Hk & _). eauto. }
    apply (through_repeat_more _ _ Hkeep) in H as (p2 & s2 & g2 & H & Hk2).
    exists p2, s2, g2. split; [exact H |]. split.
    + intros ?. auto.
    + intros E. auto.
  - apply IH in H as (p1 & s1 & g1 & H & Hk1 & Hb1).
    eexists _, _, _. split; [exact H |].
    assert (Hins : forall x, is_Some (g1 !! i) -> is_Some (<[j := x]> g1 !! i)).
    { intros x [y Hy]. destruct (decide (j = i)) as [-> | Hne].
      - rewrite lookup_insert_eq. eauto.
      - rewrite lookup_insert_ne by exact Hne. eauto. }
    split.
    + intros ?. apply Hins. auto.
    + rewrite orb_true_iff. intros [E | E].
      * apply Nat.eqb_eq in E as ->. rewrite lookup_insert_eq. eauto.
      * apply Hins. auto.
  - destruct (Re.run ignorecase multiline r prev s g _); [discriminate |].
    exists prev, s, g. split; [exact H |]. split; [now intros ? | discriminate].
Qed.

Lemma search_from_captures (r : Re.regex) :
  always_captures i r = true ->
  forall s prev whole g,
    Re.search_from ignorecase multiline r prev s = Some (whole, g) ->
    is_Some (g !! i).
Proof.
  intros Hr. induction s as [|c s IH]; intros prev whole g H;
    cbn [Re.search_from] in H.
  - destruct (Re.run _ _ r prev "" ∅ _) as [[rest g0]|] eqn:E; [| discriminate].
    injection H as _ <-.
    apply through_run in E as (p' & s' & g' & E & _ & Hb).
    injection E as _ <-. auto.
  - destruct (Re.run _ _ r prev (String c s) ∅ _) as [[rest g0]|] eqn:E.
    + injection H as _ <-.
      apply through_run in E as (p' & s' & g' & E & _ & Hb).
      injection E as _ <-. auto.
    + eapply IH. exact H.
Qed.

End Captures.

(** ** The bound on iterations is never the reason a match ends

    A matcher treats continuations that agree alike, and the iterations of
    a quantifier beyond the required ones give the same result with any
    bound that is at least the length of the text left. *)

Section Fuel.

Variables ignorecase multiline : bool.

Lemma repeat_min_ext (body : Re.matcher) :
  extensional body ->
  forall n k1 k2,
    (forall prev s g, k1 prev s g = k2 prev s g) ->
    forall prev s g,
      Re.repeat_min body n k1 prev s g = Re.repeat_min body n k2 prev s g.
Proof.
  intros Hbody. induction n as [|n IH]; intros k1 k2 Hk prev s g.
  - apply Hk.
  - cbn [Re.repeat_min]. apply Hbody. intros prev' s' g'. now apply IH.
Qed.

Lemma repeat_more_ext (body : Re.matcher) (greedy : bool) :
  extensional body ->
  forall fuel budget k1 k2,
    (forall prev s g, k1 prev s g = k2 prev s g) ->
    forall prev s g,
      Re.repeat_more greedy body fuel budget k1 prev s g
      = Re.repeat_more greedy body fuel budget k2 prev s g.
Proof.
  intros Hbody. induction fuel as [|fuel IH]; intros budget k1 k2 Hk prev s g.
  - apply Hk.
  - cbn [Re.repeat_more]. rewrite (Hk prev s g).
    assert (E : Re.advance body
                  (Re.repeat_more greedy body fuel (pred <$> budget) k1) prev s g
                = Re.advance body
                    (Re.repeat_more greedy body fuel (pred <$> budget) k2) prev s g).
    { unfold Re.advance. apply Hbody. intros prev' s' g'.
      destruct (String.length s' <? String.length s); [| reflexivity].
      now apply IH. }
    now rewrite E.
Qed.

Lemma run_ext (r : Re.regex) : extensional (Re.run ignorecase multiline r).
Proof.
  induction r as [| c | | negate items | | | r1 IH1 r2 IH2 | r1 IH1 r2 IH2
                 | greedy min max r IH | j r IH | r IH];
    intros prev s g k1 k2 Hk; cbn [Re.run].
  - apply Hk.
  - unfold Re.one_char. destruct s; [reflexivity |]. now rewrite Hk.
  - unfold Re.one_char. destruct s; [reflexivity |]. now rewrite Hk.
  - unfold Re.one_char. destruct s; [reflexivity |]. now rewrite Hk.
  - now rewrite Hk.
  - now rewrite Hk.
  - apply IH1. intros prev' s' g'. now apply IH2.
  - now rewrite (IH1 prev s g k1 k2 Hk), (IH2 prev s g k1 k2 Hk).
  - apply repeat_min_ext; [exact IH |]. intros prev' s' g'.
    now apply repeat_more_ext.
  - apply IH. intros prev' s' g'. apply Hk.
  - now rewrite Hk.
Qed.

Lemma repeat_more_enough (r : Re.regex) (greedy : bool) :
  forall fuel budget k prev s g,
    String.length s <= fuel ->
    Re.repeat_more greedy (Re.run ignorecase multiline r) fuel budget k prev s g
    = Re.repeat_more greedy (Re.run ignorecase multiline r)
        (String.length s) budget k prev s g.
Proof.
  set (body := Re.run ignorecase multiline r).
  assert (Hext : extensional body) by apply run_ext.
  assert (Hnone : forall prev s g k,
    (forall prev' s' g', k prev' s' g' = None) -> body prev s g k = None).
  { intros prev s g k Hk. destruct (body prev s g k) as [res|] eqn:E; [| reflexivity].
    apply (through_run ignorecase multiline 0 r) in E as (p' & s' & g' & E & _).
    now rewrite Hk in E. }
  assert (Hall : forall n fuel budget k prev s g,
    String.length s <= n -> n <= fuel ->
    Re.repeat_more greedy body fuel budget k prev s g
    = Re.repeat_more greedy body n budget k prev s g).
  { induction n as [|n IH]; intros fuel budget k prev s g Hs Hf.
    - destruct fuel as [|fuel]; [reflexivity |]. cbn [Re.repeat_more].
      assert (E : Re.advance body
                    (Re.repeat_more greedy body fuel (pred <$> budget) k) prev s g
                  = None).
      { unfold Re.advance. apply Hnone. intros prev' s' g'.
        destruct (String.length s' <? String.length s) eqn:El; [| reflexivity].
        apply Nat.ltb_lt in El. lia. }
      rewrite E. destruct greedy, (Re.allows budget), (k prev s g); reflexivity.
    - destruct fuel as [|fuel]; [lia |]. cbn [Re.repeat_more].
      assert (E : Re.advance body
                    (Re.repeat_more greedy body fuel (pred <$> budget) k) prev s g
                  = Re.advance body
                      (Re.repeat_more greedy body n (pred <$> budget) k) prev s g).
      { unfold Re.advance. apply Hext. intros prev' s' g'.
        destruct (String.length s' <? String.length s) eqn:El; [| reflexivity].
        apply Nat.ltb_lt in El. apply IH; lia. }
      now rewrite E. }
  intros fuel budget k prev s g Hs. now apply Hall.
Qed.

End Fuel.

(** ** The search returns the leftmost match *)

Lemma search_from_leftmost (ignorecase multiline : bool) (r : Re.regex) :
  forall s prev,
    match Re.search_from ignorecase multiline r prev s with
    | Some (whole, g) =>
        exists pre rest rest',
          s = pre +:+ rest
          /\ match_at ignorecase multiline r (prev_after prev pre) rest
             = Some (rest', g)
          /\ whole = Re.consumed rest rest'
          /\ forall pre1 rest1,
               s = pre1 +:+ rest1 ->
               String.length pre1 < String.length pre ->
               match_at ignorecase multiline r (prev_after prev pre1) rest1 = None
    | None =>
        forall pre rest,
          s = pre +:+ rest ->
          match_at ignorecase multiline r (prev_after prev pre) rest = None
    end.
Proof.
  induction s as [|c s IH]; intros prev; cbn [Re.search_from].
  - fold (match_at ignorecase multiline r prev "").
    destruct (match_at ignorecase multiline r prev "") as [[rest' g]|] eqn:E.
    + exists "", "", rest'. repeat split; try assumption.
      intros pre1 rest1 _ Hlt. cbn in Hlt. lia.
    + intros [|c pre] rest H; [| discriminate].
      rewrite append_nil_l in H. now subst rest.
  - fold (match_at ignorecase multiline r prev (String c s)).
    destruct (match_at ignorecase multiline r prev (String c s))
      as [[rest' g]|] eqn:E.
    + exists "", (String c s), rest'. repeat split; try assumption.
      intros pre1 rest1 _ Hlt. cbn in Hlt. lia.
    + specialize (IH (Some c)).
      destruct (Re.search_from ignorecase multiline r (Some c) s)
        as [[whole g]|].
      * destruct IH as (pre & rest & rest' & -> & Hm & -> & Hmin).
        exists (String c pre), rest, rest'. repeat split; try assumption.
        intros [|c1 pre1] rest1 H Hlt.
        -- rewrite append_nil_l in H. now subst rest1.
        -- rewrite !append_cons in H. injection H as <- H.
           apply Hmin; [exact H | cbn in Hlt; lia].
      * intros [|c1 pre1] rest H.
        -- rewrite append_nil_l in H. now subst rest.
        -- rewrite append_cons in H. injection H as <- H. now apply IH.
Qed.

(** ** Field extraction *)

Lemma search_compiled (pattern text : string) (flags : list Re.flag)
  (r : Re.regex) :
  Re.compile pattern = Some r ->
  Re.search pattern text flags =
    Return
      (match Re.search_from (Re.has_flag Re.IGNORECASE flags)
               (Re.has_flag Re.MULTILINE flags) r None text with
       | Some (whole, g) => Some (Re.Match whole g (Re.count_groups r))
       | None => None
       end).
Proof. intros H. unfold Re.search. now rewrite H. Qed.


(** [_extract_field] reads group 1 of the leftmost match and normalises
    it. *)
Lemma extract_field_search (text pattern : string) (r : Re.regex) :
  Re.compile pattern = Some r ->
  1 <= Re.count_groups r ->
  _extract_field text pattern =
    match Re.search_from true true r None text with
    | None => Return None
    | Some (_, g) =>
        match g !! 1 with
        | Some captured => Return (nonempty (collapse_whitespace captured))
        | None => Raise AttributeError
        end
    end.
Proof.
  intros Hc Hn. unfold _extract_field.
  rewrite (search_compiled _ _ _ _ Hc). cbn [mbind outcome_bind Re.has_flag existsb orb].
  destruct (Re.search_from true true r None text) as [[whole g]|]; [| reflexivity].
  unfold Re.group. cbn [Re.ngroups Re.groups].
  apply Nat.leb_le in Hn. rewrite Hn. cbn [mbind outcome_bind].
  destruct (g !! 1) as [captured|]; [| reflexivity].
  cbn [method_strip mbind outcome_bind]. now rewrite normalise_collapse.
Qed.




(** The flags at work: letters match in either case, the first of two
    candidates is taken, a capture over several lines is joined with single
    spaces, and [^] and [$] match at the line breaks inside the text. *)
Example extract_field_ignores_case :
  _extract_field "policy number: abc-123" "POLICY NUMBER[:\s]*([A-Z0-9-]+)"
  = Return (Some "abc-123").
Proof. vm_compute. reflexivity. Qed.

Example extract_field_takes_first :
  _extract_field "POLICY NUMBER: A-1
POLICY NUMBER: B-2" "POLICY NUMBER[:\s]*([A-Z0-9-]+)"
  = Return (Some "A-1").
Proof. vm_compute. reflexivity. Qed.

Example extract_field_joins_lines :
  _extract_field "NOTE:   first   line
   second line
OWNER: nobody" "NOTE:[:\s]*([^\n]+(?:\n(?!OWNER)[^\n]+)*)"
  = Return (Some "first line second line").
Proof. vm_compute. reflexivity. Qed.

Example extract_field_multiline_anchors :
  _extract_field "CITY: Springfield
ZIP: 62701
STATE: IL" "^ZIP: (\d+)$"
  = Return (Some "62701").
Proof. vm_compute. reflexivity. Qed.

Example extract_field_not_found :
  _extract_field "nothing of the kind" "POLICY NUMBER[:\s]*([A-Z0-9-]+)"
  = Return None.
Proof. vm_compute. reflexivity. Qed.

(** Group 1 lies on every path of each pattern of the assembler. *)
Lemma field_patterns_capture :
  forallb captures_group1 FIELD_PATTERNS = true.
Proof. vm_compute. reflexivity. Qed.

(** For a pattern whose group 1 lies on every path, [_extract_field]
    returns on every text. *)
Lemma extract_field_returns (text pattern : string) :
  captures_group1 pattern = true ->
  _extract_field text pattern = Return (extracted_value text pattern).
Proof.
  unfold captures_group1, extracted_value. intros H.
  destruct (Re.compile pattern) as [r|] eqn:Hc; [| discriminate].
  apply andb_true_iff in H as [Hcap Hn]. apply Nat.leb_le in Hn.
  rewrite (extract_field_search _ _ _ Hc Hn).
  destruct (Re.search_from true true r None text) as [[whole g]|] eqn:Hs;
    [| reflexivity].
  destruct (search_from_captures _ _ 1 r Hcap _ _ _ _ Hs) as [captured ->].
  reflexivity.
Qed.

(** ** Classification *)

Lemma existsb_contains (keywords : list string) (t : string) :
  existsb (fun keyword => Str.contains keyword t) keywords = true
  <-> exists kw, In kw keywords /\ occurs kw t.
Proof.
  rewrite existsb_exists.
  split; intros [kw [Hin H]]; exists kw; (split; [exact Hin |]);
    now apply contains_spec.
Qed.

Lemma contains_either (a b t : string) :
  Str.contains a t || Str.contains b t = true
  <-> exists kw, In kw [a; b] /\ occurs kw t.
Proof.
  rewrite <- existsb_contains. cbn [existsb]. now rewrite orb_false_r.
Qed.

(** C6.  The classifier is a priority cascade over the case-folded text:
    an injury term gives [injury] whatever else occurs; otherwise
    [property] or [damage] gives [property_damage]; otherwise [collision]
    or [accident] gives [collision]; otherwise [auto]. *)
Theorem determine_claim_type_cascade (text : string) :
  (mentions INJURY_TERMS text -> _determine_claim_type text = "injury")
  /\ (~ mentions INJURY_TERMS text ->
      mentions ["property"; "damage"] text ->
      _determine_claim_type text = "property_damage")
  /\ (~ mentions INJURY_TERMS text ->
      ~ mentions ["property"; "damage"] text ->
      mentions ["collision"; "accident"] text ->
      _determine_claim_type text = "collision")
  /\ (~ mentions INJURY_TERMS text ->
      ~ mentions ["property"; "damage"] text ->
      ~ mentions ["collision"; "accident"] text ->
      _determine_claim_type text = "auto").
Proof.
  unfold mentions, _determine_claim_type. fold INJURY_TERMS.
  rewrite <- !existsb_contains.
  change (existsb (fun keyword => Str.contains keyword (Str.lower text))
            ["property"; "damage"])
    with (Str.contains "property" (Str.lower text)
          || (Str.contains "damage" (Str.lower text) || false)).
  change (existsb (fun keyword => Str.contains keyword (Str.lower text))
            ["collision"; "accident"])
    with (Str.contains "collision" (Str.lower text)
          || (Str.contains "accident" (Str.lower text) || false)).
  rewrite !orb_false_r.
  destruct (existsb _ INJURY_TERMS);
    destruct (Str.contains "property" _ || Str.contains "damage" _);
    destruct (Str.contains "collision" _ || Str.contains "accident" _);
    repeat split; intros; congruence.
Qed.

Lemma determine_claim_type_cascade_witness :
  mentions INJURY_TERMS "Property DAMAGE in a collision; driver taken to Hospital"
  /\ mentions ["property"; "damage"]
       "Property DAMAGE in a collision; driver taken to Hospital"
  /\ _determine_claim_type
       "Property DAMAGE in a collision; driver taken to Hospital" = "injury".
Proof.
  assert (H : mentions INJURY_TERMS
                "Property DAMAGE in a collision; driver taken to Hospital").
  { apply existsb_contains. reflexivity. }
  split; [exact H |]. split; [apply contains_either; reflexivity |].
  exact (proj1 (determine_claim_type_cascade _) H).
Defined.

Lemma determine_claim_type_in (text : string) :
  In (_determine_claim_type text) CLAIM_TYPES.
Proof.
  unfold _determine_claim_type, CLAIM_TYPES.
  destruct (existsb _ _); [cbn; auto |].
  destruct (_ || _); [cbn; auto |].
  destruct (_ || _); cbn; auto.
Qed.

(** ** Validation *)

Lemma truthy_false (v : pyval) : truthy v = false <-> falsy v.
Proof.
  unfold falsy. destruct v as [| s | [q | | |]]; cbn.
  - split; auto.
  - destruct s; cbn; split; try congruence; auto.
    intros [H | [H | [q [H _]]]]; discriminate.
  - rewrite negb_false_iff, Z.eqb_eq. split.
    + intros H. right. right. exists q. split; [reflexivity |].
      unfold Qeq. cbn. rewrite H. reflexivity.
    + intros [H | [H | [q' [H Hq]]]]; try discriminate.
      injection H as <-. unfold Qeq in Hq. cbn in Hq. lia.
  - split; [discriminate |]. intros [H | [H | [q [H _]]]]; discriminate.
  - split; [discriminate |]. intros [H | [H | [q [H _]]]]; discriminate.
  - split; [discriminate |]. intros [H | [H | [q [H _]]]]; discriminate.
Qed.

Lemma fold_left_select {A : Type} (p : A -> bool) (l : list A) :
  forall init,
    fold_left (fun acc x => if p x then acc ++ [x] else acc) l init
    = init ++ List.filter p l.
Proof.
  induction l as [|x l IH]; intros init; cbn.
  - now rewrite app_nil_r.
  - rewrite IH. destruct (p x); [| reflexivity].
    now rewrite <- app_assoc.
Qed.

Lemma validate_fields_filter (rec : record) :
  validate_fields rec
  = List.filter (fun field => negb (truthy (dict_get rec field))) MANDATORY_FIELDS.
Proof. unfold validate_fields. now rewrite fold_left_select. Qed.

Lemma filter_sublist {A : Type} (p : A -> bool) (l : list A) :
  sublist (List.filter p l) l.
Proof.
  induction l as [|x l IH]; cbn; [constructor |].
  destruct (p x); now constructor.
Qed.

Lemma validate_fields_In (rec : record) (field : string) :
  In field (validate_fields rec)
  <-> In field MANDATORY_FIELDS /\ falsy (dict_get rec field).
Proof.
  rewrite validate_fields_filter, filter_In, negb_true_iff, truthy_false.
  reflexivity.
Qed.

(** C4, amended.  [validate_fields] tests each mandatory field for
    truthiness and keeps the declaration order: it returns the mandatory
    fields, in that order, whose value is [None] (or whose key the record
    lacks), the empty string or zero.  It does not normalise white
    space. *)
Theorem validate_fields_exact (rec : record) :
  sublist (validate_fields rec) MANDATORY_FIELDS
  /\ (forall field,
        In field (validate_fields rec)
        <-> In field MANDATORY_FIELDS /\ falsy (dict_get rec field))
  /\ ((forall field, In field MANDATORY_FIELDS -> ~ falsy (dict_get rec field))
      -> validate_fields rec = []).
Proof.
  split; [rewrite validate_fields_filter; apply filter_sublist |].
  split; [apply validate_fields_In |].
  intros Hall.
  destruct (validate_fields rec) as [|f l] eqn:E; [reflexivity |].
  exfalso.
  assert (Hin : In f (validate_fields rec)) by (rewrite E; now left).
  apply validate_fields_In in Hin as [Hm Hf]. exact (Hall f Hm Hf).
Qed.

(** C4 as stated fails on a string of spaces: it normalises to the empty
    string, yet the field is not reported. *)
Lemma validate_fields_keeps_blank_string :
  In "policy_number" MANDATORY_FIELDS
  /\ blank (dict_get blank_policy_record "policy_number")
  /\ ~ In "policy_number" (validate_fields blank_policy_record)
  /\ validate_fields blank_policy_record = [].
Proof.
  split; [cbn; auto |]. split; [exists "   "; split; reflexivity |].
  split; [| reflexivity].
  assert (H : validate_fields blank_policy_record = []) by reflexivity.
  rewrite H. intros [].
Qed.

(** ** Routing *)

Lemma fraud_gate_spec (d : string) :
  fraud_gate (Str.lower d) = true <-> has_fraud_keyword d.
Proof.
  unfold fraud_gate, has_fraud_keyword, mentions. rewrite existsb_exists.
  split; intros [kw [Hin H]]; exists kw; (split; [exact Hin |]);
    now apply contains_spec.
Qed.


Lemma description_text_lower (rec : record) (d : string) :
  description_text rec d ->
  method_lower (dict_get_or rec "description_of_accident" (PyStr ""))
  = Return (Str.lower d).
Proof.
  unfold dict_get_or. intros [H | [H ->]]; now rewrite H.
Qed.

(** Rule 1 alone decides as soon as a field is missing. *)
Lemma route_claim_missing (rec : record) (f : string) (missing : list string) :
  route_claim rec (f :: missing)
  = Return ("Manual Review",
            "Missing mandatory fields: " +:+ Str.join ", " (f :: missing)).
Proof. reflexivity. Qed.

(** With nothing missing and a description to read, rules 2 to 4. *)
Lemma route_claim_complete (rec : record) (d : string) :
  description_text rec d ->
  route_claim rec [] =
    if fraud_gate (Str.lower d)
    then Return ("Investigation Queue",
                 "Description contains potential fraud indicators")
    else if eq_str (dict_get rec "claim_type") "injury"
    then Return ("Specialist Queue",
                 "Claim involves injury and requires specialist review")
    else match dict_get rec "estimated_damage" with
         | PyNone =>
             Return ("Manual Review",
                     "Estimated damage amount is missing or invalid")
         | PyNum x =>
             if Num.ltb_int x FAST_TRACK_THRESHOLD
             then Return ("Fast-Track",
                          "Estimated damage ($" +:+ Num.format_comma_2f x
                          +:+ ") is below fast-track threshold ($25,000)")
             else Return ("Standard Processing",
                          "Estimated damage ($" +:+ Num.format_comma_2f x
                          +:+ ") exceeds fast-track threshold ($25,000)")
         | PyStr _ => Raise TypeError
         end.
Proof.
  intros Hd. unfold route_claim. rewrite (description_text_lower _ _ Hd).
  cbn [mbind outcome_bind]. fold (fraud_gate (Str.lower d)).
  destruct (fraud_gate (Str.lower d)); [reflexivity |].
  destruct (eq_str (dict_get rec "claim_type") "injury"); [reflexivity |].
  destruct (dict_get rec "estimated_damage") as [| s | x]; reflexivity.
Qed.

(** C1 (fails on the code).  With nothing reported missing and the
    description held as [None], the fraud gate calls [lower] on [None]:
    routing raises [AttributeError] and no later gate is reached.  The
    default [''] of the lookup only covers a record without the key. *)
Theorem route_claim_absent_description_raises (rec : record) :
  rec !! "description_of_accident" = Some PyNone ->
  route_claim rec [] = Raise AttributeError.
Proof.
  intros H. unfold route_claim, dict_get_or. now rewrite H.
Qed.

Lemma route_claim_absent_description_raises_witness :
  absent_description_record !! "description_of_accident" = Some PyNone
  /\ route_claim absent_description_record [] = Raise AttributeError.
Proof.
  split; [reflexivity |].
  apply (route_claim_absent_description_raises absent_description_record).
  reflexivity.
Defined.

(** The same record without the key is routed: the lookup's default is read. *)
Example route_claim_without_description_key :
  route_claim (delete "description_of_accident" absent_description_record) []
  = Return ("Fast-Track",
            "Estimated damage ($1,500.00) is below fast-track threshold ($25,000)").
Proof. reflexivity. Qed.


(** C2 (fails on the code, by the defect of C1).  An injury claim with
    nothing reported missing and the description held as [None] gets no
    route at all: the fraud gate raises before the injury gate is read. *)
Theorem route_claim_no_decision_for_absent_description :
  route_claim absent_description_injury_record [] = Raise AttributeError
  /\ forall route reasoning,
       route_claim absent_description_injury_record [] <> Return (route, reasoning).
Proof.
  split; [reflexivity | intros route reasoning; discriminate].
Qed.



(** C9.  The fraud gate is substring containment on the case-folded
    description: a keyword occurring in any character case, also inside a
    longer word, sends a complete record to the Investigation Queue with the
    fixed reasoning. *)
Theorem route_claim_fraud_substring (rec : record) (d mid kw : string) :
  rec !! "description_of_accident" = Some (PyStr d) ->
  occurs mid d ->
  Str.lower mid = kw ->
  In kw FRAUD_KEYWORDS ->
  route_claim rec [] =
    Return ("Investigation Queue",
            "Description contains potential fraud indicators").
Proof.
  intros Hd Hocc Hlow Hkw.
  rewrite (route_claim_complete rec d (or_introl Hd)).
  assert (Hf : has_fraud_keyword d).
  { exists kw. split; [exact Hkw |]. rewrite <- Hlow. now apply occurs_lower. }
  apply fraud_gate_spec in Hf. now rewrite Hf.
Qed.

Lemma route_claim_fraud_substring_witness :
  route_claim fraud_record [] =
    Return ("Investigation Queue",
            "Description contains potential fraud indicators").
Proof.
  apply (route_claim_fraud_substring fraud_record
           "Witness says the insured was DEFRAUDED; damage looks Suspiciously old"
           "FRAUD" "fraud").
  - reflexivity.
  - exists "Witness says the insured was DE", "ED; damage looks Suspiciously old".
    reflexivity.
  - reflexivity.
  - simpl. auto.
Defined.

(** ** The decision list *)




(** ** Statements of the extraction *)

Lemma wp_ret {A : Type} (a : A) (mu : view) (Q : A -> view -> Prop) :
  Q a mu -> wp (mret a) mu Q.
Proof. intros HQ extracted Hm. now exists a, extracted, mu. Qed.

Lemma wp_bind {A B : Type} (m : stmt A) (f : A -> stmt B) (mu : view)
  (Q : B -> view -> Prop) :
  wp m mu (fun a mu' => wp (f a) mu' Q) -> wp (m ≫= f) mu Q.
Proof.
  intros Hm extracted Hmod.
  destruct (Hm extracted Hmod) as (a & e1 & mu1 & Hrun & Hmod1 & Hf).
  destruct (Hf e1 Hmod1) as (b & e2 & mu2 & Hrun2 & Hmod2 & HQ).
  exists b, e2, mu2. split; [| now split].
  unfold mbind, stmt_bind. now rewrite Hrun.
Qed.

Lemma wp_call {A : Type} (o : outcome A) (a : A) (mu : view)
  (Q : A -> view -> Prop) :
  o = Return a -> Q a mu -> wp (call o) mu Q.
Proof. intros -> HQ extracted Hm. now exists a, extracted, mu. Qed.

Lemma wp_store (section key : string) (v : pyval) (mu : view)
  (Q : unit -> view -> Prop) :
  In section SECTIONS ->
  Q tt (upd section key (Some v) mu) ->
  wp (store section key v) mu Q.
Proof.
  intros Hin HQ extracted [Hsec Hlook].
  destruct (Hsec section Hin) as [d Hd].
  exists tt, (<[section := <[key := v]> d]> extracted), (upd section key (Some v) mu).
  split; [unfold store; now rewrite Hd |]. split; [| exact HQ]. split.
  - intros s Hs. destruct (decide (section = s)) as [-> | Hne].
    + rewrite lookup_insert_eq. eauto.
    + rewrite lookup_insert_ne by exact Hne. auto.
  - intros s k. unfold lookup2, upd. specialize (Hlook s k). unfold lookup2 in Hlook.
    destruct (String.eqb_spec s section) as [-> | Hne].
    + rewrite lookup_insert_eq. rewrite Hd in Hlook.
      destruct (String.eqb_spec k key) as [-> | Hk]; cbn [andb].
      * now rewrite lookup_insert_eq.
      * rewrite lookup_insert_ne by congruence. exact Hlook.
    + cbn [andb]. rewrite lookup_insert_ne by congruence. exact Hlook.
Qed.

Lemma upd_None (section key : string) (mu : view) :
  forall s k, upd section key None mu s k = mu s k.
Proof. intros s k. unfold upd. now destruct (_ && _). Qed.

Lemma models_ext (extracted : nested) (mu mu' : view) :
  (forall s k, mu s k = mu' s k) -> models extracted mu -> models extracted mu'.
Proof.
  intros E [Hsec Hlook]. split; [exact Hsec |].
  intros s k. now rewrite Hlook.
Qed.

(** An assignment under a condition, and one behind a match object. *)
Lemma wp_store_opt {A : Type} (c : option A) (m : A -> stmt unit)
  (section key : string) (v : A -> pyval) (mu : view)
  (Q : unit -> view -> Prop) :
  (forall a mu' Q', c = Some a ->
     Q' tt (upd section key (Some (v a)) mu') -> wp (m a) mu' Q') ->
  Q tt (upd section key (v <$> c) mu) ->
  wp (match c with
      | Some a => m a
      | None => mret tt
      end) mu Q.
Proof.
  intros Hm HQ. destruct c as [a|]; cbn in HQ.
  - now apply Hm.
  - intros extracted Hmod. exists tt, extracted, (upd section key None mu).
    split; [reflexivity |]. split; [| exact HQ].
    apply (models_ext _ mu); [| exact Hmod].
    intros s k. now rewrite upd_None.
Qed.

Lemma wp_store_if (b : bool) (section key : string) (v : pyval) (mu : view)
  (Q : unit -> view -> Prop) :
  In section SECTIONS ->
  Q tt (upd section key (if b then Some v else None) mu) ->
  wp (if b then store section key v else mret tt) mu Q.
Proof.
  intros Hin HQ. destruct b.
  - now apply wp_store.
  - intros extracted Hmod. exists tt, extracted, (upd section key None mu).
    split; [reflexivity |]. split; [| exact HQ].
    apply (models_ext _ mu); [| exact Hmod].
    intros s k. now rewrite upd_None.
Qed.

Lemma models_initial : models initial_extracted empty_view.
Proof.
  split.
  - intros s Hs. cbn in Hs.
    destruct Hs as [<- | [<- | [<- | [<- | [<- | []]]]]]; vm_compute; eauto.
  - intros s k. unfold lookup2, initial_extracted, empty_view.
    repeat (rewrite lookup_insert; case_decide; [now rewrite lookup_empty |]).
    now rewrite lookup_empty.
Qed.

(** [extracted[section].get(key)] reads the view. *)
Lemma section_get_models (extracted : nested) (mu : view) (section key : string) :
  models extracted mu ->
  In section SECTIONS ->
  section_get extracted section key = Return (default PyNone (mu section key)).
Proof.
  intros [Hsec Hlook] Hin. unfold section_get.
  specialize (Hlook section key). unfold lookup2 in Hlook.
  destruct (Hsec section Hin) as [d Hd]. rewrite Hd in *.
  unfold dict_get. now rewrite Hlook.
Qed.

Lemma found_search (text pattern : string) (flags : list Re.flag) :
  (exists r, Re.compile pattern = Some r) ->
  Re.search pattern text flags = Return (found text pattern flags).
Proof.
  intros [r Hr]. unfold found. now rewrite (search_compiled _ _ _ _ Hr).
Qed.

Lemma found_ngroups (text pattern : string) (flags : list Re.flag)
  (m : Re.match_object) (n : nat) :
  found text pattern flags = Some m ->
  Re.count_groups <$> Re.compile pattern = Some n ->
  Re.ngroups m = n.
Proof.
  destruct (Re.compile pattern) as [r|] eqn:Hr; [| discriminate].
  unfold found. rewrite (search_compiled _ _ _ _ Hr).
  destruct (Re.search_from _ _ r None text) as [[whole g]|]; [| discriminate].
  now intros [= <-] [= <-].
Qed.

Lemma group_in_range (m : Re.match_object) (i : nat) :
  1 <= i <= Re.ngroups m ->
  Re.group m i = Return (Re.groups m !! i).
Proof.
  intros [H1 H2]. unfold Re.group. destruct i as [|i]; [lia |].
  apply Nat.leb_le in H2. now rewrite H2.
Qed.

Lemma extracted_value_truthy (text pattern e : string) :
  extracted_value text pattern = Some e -> Str.truthy e = true.
Proof.
  unfold extracted_value, _extract_field.
  destruct (Re.search pattern text _) as [[m|]|]; cbn [mbind outcome_bind];
    try discriminate.
  destruct (Re.group m 1) as [g|]; cbn [mbind outcome_bind]; [| discriminate].
  destruct (method_strip g) as [value|]; cbn [mbind outcome_bind]; [| discriminate].
  destruct (Str.truthy (Str.join " " (Str.split value))) eqn:E; [| discriminate].
  now intros [= <-].
Qed.

(** [float] raises nothing but [ValueError]. *)
Lemma float_raises (s : string) (e : exn) :
  Float.float s = Raise e -> e = ValueError.
Proof.
  assert (H : forall body neg, Float.unsigned body neg = Raise e -> e = ValueError).
  { intros body neg. unfold Float.unsigned.
    destruct (_ || _); [discriminate |].
    destruct (String.eqb _ "nan"); [discriminate |].
    destruct (Float.number _ _ body); [discriminate | now intros [= <-]]. }
  unfold Float.float.
  destruct (Str.strip s) as [|c body]; [apply H |].
  destruct c as [[] [] [] [] [] [] [] []]; apply H.
Qed.

(** [flatten_extracted_data] reads the eighteen entries of the table. *)
Lemma flatten_models (extracted : nested) (mu : view) :
  models extracted mu ->
  flatten_extracted_data extracted = Return (flatten_view mu).
Proof.
  intros Hmod. unfold flatten_extracted_data.
  rewrite !(section_get_models _ _ _ _ Hmod) by (cbn; tauto).
  cbn [mbind outcome_bind]. unfold flatten_view. cbn [map FLATTEN_TABLE].
  repeat match goal with
         | |- context [mu ?s ?k] => generalize (mu s k); intro
         end.
  vm_compute. reflexivity.
Qed.

Lemma default_upd (v : option pyval) :
  default PyNone (match v with Some _ => v | None => None end)
  = default PyNone v.
Proof. now destruct v. Qed.

Lemma default_fmap {A : Type} (f : A -> pyval) (o : option A) :
  default PyNone (f <$> o) =
    match o with
    | Some a => f a
    | None => PyNone
    end.
Proof. now destruct o. Qed.

Lemma default_if (b : bool) (v : pyval) :
  default PyNone (if b then Some v else None) = if b then v else PyNone.
Proof. now destruct b. Qed.

Lemma default_if_extracted (text pattern : string) :
  default PyNone
    (if truthy_opt (extracted_value text pattern)
     then Some (of_optional (extracted_value text pattern))
     else None)
  = of_optional (extracted_value text pattern).
Proof.
  destruct (extracted_value text pattern) as [e|] eqn:E; [| reflexivity].
  unfold truthy_opt. cbn. now rewrite (extracted_value_truthy _ _ _ E).
Qed.

Ltac wp_step :=
  cbv beta zeta;
  lazymatch goal with
  | |- wp (mbind _ _) _ _ => apply wp_bind
  | |- wp (call (Return _)) _ _ => eapply wp_call; [reflexivity |]
  | |- wp (call (_extract_field _ _)) _ _ =>
      eapply wp_call; [apply extract_field_returns; vm_compute; reflexivity |]
  | |- wp (call (Re.search _ _ _)) _ _ =>
      eapply wp_call; [apply found_search; eexists; vm_compute; reflexivity |]
  | |- wp (store _ _ _) _ _ => apply wp_store; [cbn; tauto |]
  | |- wp (if _ then store _ _ _ else mret tt) _ _ =>
      apply wp_store_if; [cbn; tauto |]
  | |- wp (mret _) _ _ => apply wp_ret
  end.

(** The [try] body runs to its end on every text, and what it leaves
    flattens to the table [expected_record]. *)
Lemma extract_fields_wp (text : string) :
  wp (extract_fields text) empty_view
    (fun _ mu => flatten_view mu = expected_record text).
Proof.
  unfold extract_fields.
  repeat wp_step.
  apply (wp_store_opt _ _ "incident_information" "time"
           (fun m => PyStr (str_of (Re.groups m !! 1) +:+ " "
                            +:+ str_of (Re.groups m !! 2)))).
  { intros m mu' Q' Hm HQ.
    assert (Hn : Re.ngroups m = 2).
    { eapply found_ngroups; [exact Hm | vm_compute; reflexivity]. }
    rewrite !group_in_range by lia.
    repeat wp_step. exact HQ. }
  repeat wp_step.
  apply (wp_store_opt _ _ "involved_parties" "contact_phone"
           (fun m => of_optional (Re.groups m !! 1))).
  { intros m mu' Q' Hm HQ.
    assert (Hn : Re.ngroups m = 1).
    { eapply found_ngroups; [exact Hm | vm_compute; reflexivity]. }
    rewrite !group_in_range by lia.
    repeat wp_step. exact HQ. }
  repeat wp_step.
  apply (wp_store_opt _ _ "asset_details" "estimated_damage"
           (fun e => match Float.float (Str.replace ","%char "" e) with
                     | Return x => PyNum x
                     | Raise _ => PyNone
                     end)).
  { intros e mu' Q' He HQ. rewrite (extracted_value_truthy _ _ _ He).
    destruct (Float.float _) as [x | err] eqn:Ef.
    - now apply wp_store; [cbn; tauto |].
    - apply float_raises in Ef as ->. now apply wp_store; [cbn; tauto |]. }
  repeat wp_step.
  unfold flatten_view, expected_record. cbn [map FLATTEN_TABLE].
  cbv [upd empty_view String.eqb Ascii.eqb Bool.eqb andb].
  rewrite !default_upd, !default_fmap, !default_if_extracted, !default_if.
  cbn [default from_option id].
  repeat f_equal.
  unfold expected_location. now destruct (append_part _ _).
Qed.

(** ** Assembly *)

Lemma extract_fields_returns (text : string) :
  exists extracted,
    extract_fields text initial_extracted = (extracted, Return tt)
    /\ flatten_extracted_data extracted = Return (expected_record text).
Proof.
  destruct (extract_fields_wp text initial_extracted models_initial)
    as ([] & extracted & mu & Hrun & Hmod & Hview).
  exists extracted. split; [exact Hrun |].
  now rewrite (flatten_models _ _ Hmod), Hview.
Qed.

Lemma assemble_text (text : string) :
  flatten_extracted_data (extract_from_pdf (Return text))
  = Return (expected_record text).
Proof.
  destruct (extract_fields_returns text) as (extracted & Hrun & Hflat).
  unfold extract_from_pdf. now rewrite Hrun.
Qed.

Lemma assemble_unread (e : exn) :
  flatten_extracted_data (extract_from_pdf (Raise e)) = Return empty_record.
Proof. vm_compute. reflexivity. Qed.

Lemma dom_expected_record (text : string) :
  dom (expected_record text) = list_to_set RECORD_KEYS.
Proof.
  unfold expected_record. rewrite dom_list_to_map_L. reflexivity.
Qed.

Lemma size_record_keys : size (list_to_set RECORD_KEYS : gset string) = 18.
Proof. vm_compute. reflexivity. Qed.

(** C7.  Whatever the document, read or not, flattening what
    [extract_from_pdf] returns gives a record with exactly the eighteen
    keys; on every text the [try] body runs to its end without raising, and
    the record is the table of the individual extractions. *)
Theorem assemble_has_all_keys (pdf : outcome string) :
  exists rec,
    flatten_extracted_data (extract_from_pdf pdf) = Return rec
    /\ dom rec = list_to_set RECORD_KEYS
    /\ size (dom rec) = 18
    /\ (forall key, In key RECORD_KEYS -> is_Some (rec !! key))
    /\ (forall text, pdf = Return text ->
          snd (extract_fields text initial_extracted) = Return tt
          /\ rec = expected_record text).
Proof.
  assert (Hkeys : forall rec : record,
    dom rec = list_to_set RECORD_KEYS ->
    size (dom rec) = 18
    /\ forall key, In key RECORD_KEYS -> is_Some (rec !! key)).
  { intros rec Hdom. split; [rewrite Hdom; apply size_record_keys |].
    intros key Hin. apply elem_of_dom. rewrite Hdom.
    apply elem_of_list_to_set, list_elem_of_In, Hin. }
  destruct pdf as [text | e].
  - exists (expected_record text).
    pose proof (dom_expected_record text) as Hdom.
    destruct (Hkeys _ Hdom) as [Hsize Hsome].
    split; [apply assemble_text |]. split; [exact Hdom |].
    split; [exact Hsize |]. split; [exact Hsome |].
    intros text' [= <-]. split; [| reflexivity].
    destruct (extract_fields_returns text) as (extracted & Hrun & _).
    now rewrite Hrun.
  - exists empty_record.
    assert (Hdom : dom empty_record = list_to_set RECORD_KEYS).
    { unfold empty_record. rewrite dom_list_to_map_L. reflexivity. }
    destruct (Hkeys _ Hdom) as [Hsize Hsome].
    split; [apply assemble_unread |]. split; [exact Hdom |].
    split; [exact Hsize |]. split; [exact Hsome |].
    intros text' [=].
Qed.

Ltac table_lookup :=
  unfold expected_record; cbn [list_to_map foldr fst snd];
  repeat (rewrite lookup_insert_ne by discriminate);
  apply lookup_insert_eq.

Lemma expected_claim_type (text : string) :
  expected_record text !! "claim_type" = Some (PyStr (_determine_claim_type text)).
Proof. table_lookup. Qed.

Lemma expected_asset_type (text : string) :
  expected_record text !! "asset_type" = Some (PyStr "vehicle").
Proof. table_lookup. Qed.

Lemma expected_estimated_damage (text : string) :
  expected_record text !! "estimated_damage"
  = Some (expected_damage
            (extracted_value text "ESTIMATE AMOUNT:[:\s]*\$?([0-9,]+(?:\.\d{2})?)")).
Proof. table_lookup. Qed.

Lemma expected_description (text : string) :
  expected_record text !! "description_of_accident"
  = Some (of_optional (extracted_value text
      "DESCRIPTION OF ACCIDENT[:\s]*\(ACORD[^\)]*\)[:\s]*([^\n]+(?:\n(?!LOSS|DRIVER|OWNER|VEHICLE)[^\n]+)*)")).
Proof. table_lookup. Qed.

Lemma claim_type_nonempty (text : string) : _determine_claim_type text <> "".
Proof.
  pose proof (determine_claim_type_in text) as H. unfold CLAIM_TYPES in H.
  cbn in H. intros E. rewrite E in H.
  destruct H as [H | [H | [H | [H | []]]]]; discriminate.
Qed.

(** C10.  In the record assembled from any text the claim type is present
    and is one of the four types, the asset type is the constant
    [vehicle], and validation does not report [claim_type]. *)
Theorem assembled_claim_type (text : string) :
  exists rec,
    flatten_extracted_data (extract_from_pdf (Return text)) = Return rec
    /\ rec !! "claim_type" = Some (PyStr (_determine_claim_type text))
    /\ In (_determine_claim_type text) CLAIM_TYPES
    /\ rec !! "asset_type" = Some (PyStr "vehicle")
    /\ ~ In "claim_type" (validate_fields rec).
Proof.
  exists (expected_record text).
  split; [apply assemble_text |]. split; [apply expected_claim_type |].
  split; [apply determine_claim_type_in |]. split; [apply expected_asset_type |].
  intros Hin. apply validate_fields_In in Hin as [_ Hf].
  unfold dict_get in Hf. rewrite expected_claim_type in Hf. cbn in Hf.
  destruct Hf as [Hf | [Hf | [q [Hf _]]]]; try discriminate.
  injection Hf as Hf. exact (claim_type_nonempty text Hf).
Qed.



(** ** The whole pipeline *)

Lemma expected_damage_typed (estimate : option string) (s : string) :
  expected_damage estimate <> PyStr s.
Proof.
  unfold expected_damage. destruct estimate as [e|]; [| discriminate].
  destruct (Float.float _); discriminate.
Qed.

(** Routing returns on a record whose description can be read and whose
    amount is a number or [None]; with a field missing it returns on any
    record. *)
Lemma route_claim_typed (rec : record) (missing : list string) :
  (missing = [] ->
   (exists d, description_text rec d)
   /\ forall s, dict_get rec "estimated_damage" <> PyStr s) ->
  exists route why,
    route_claim rec missing = Return (route, why)
    /\ In route ROUTES /\ why <> "".
Proof.
  intros H. destruct missing as [|f missing].
  - destruct (H eq_refl) as [[d Hd] Hnum].
    rewrite (route_claim_complete rec d Hd).
    destruct (fraud_gate (Str.lower d)).
    { eexists _, _. split; [reflexivity |]. split; [cbn; auto | discriminate]. }
    destruct (eq_str (dict_get rec "claim_type") "injury").
    { eexists _, _. split; [reflexivity |]. split; [cbn; auto | discriminate]. }
    destruct (dict_get rec "estimated_damage") as [| s | x] eqn:Ee.
    + eexists _, _. split; [reflexivity |]. split; [cbn; auto | discriminate].
    + now destruct (Hnum s).
    + destruct (Num.ltb_int x FAST_TRACK_THRESHOLD);
        (eexists _, _; split; [reflexivity |];
         split; [cbn; auto 6 | discriminate]).
  - rewrite route_claim_missing. eexists _, _. split; [reflexivity |].
    split; [cbn; auto | discriminate].
Qed.

(** On every document, read or not, [process_claim] returns: validation
    keeps a record with no description away from the fraud gate, so the
    defect of [route_claim] is never reached through the pipeline. *)
Theorem process_claim_returns (pdf : outcome string) :
  exists result,
    process_claim pdf = Return result
    /\ dom (extractedFields result) = list_to_set RECORD_KEYS
    /\ missingFields result = validate_fields (extractedFields result)
    /\ In (recommendedRoute result) ROUTES
    /\ reasoning result <> "".
Proof.
  destruct pdf as [text | e].
  - unfold process_claim. rewrite assemble_text. cbn [mbind outcome_bind].
    set (rec := expected_record text).
    assert (Hroute : exists route why,
      route_claim rec (validate_fields rec) = Return (route, why)
      /\ In route ROUTES /\ why <> "").
    { apply route_claim_typed. intros Ev.
      assert (Hdesc : ~ falsy (dict_get rec "description_of_accident")).
      { intros Hf.
        assert (Hin : In "description_of_accident" (validate_fields rec)).
        { apply validate_fields_In. split; [cbn; tauto | exact Hf]. }
        now rewrite Ev in Hin. }
      unfold dict_get, rec in Hdesc. rewrite expected_description in Hdesc.
      cbn [default from_option id] in Hdesc.
      destruct (extracted_value text _) as [d|] eqn:Ed;
        [| exfalso; apply Hdesc; now left].
      split.
      - exists d. left. unfold rec. now rewrite expected_description, Ed.
      - intros s. unfold dict_get, rec. rewrite expected_estimated_damage.
        apply expected_damage_typed. }
    destruct Hroute as (route & why & Hr & Hin & Hne).
    rewrite Hr. cbn [mbind outcome_bind].
    eexists. split; [reflexivity |].
    cbn [extractedFields missingFields recommendedRoute reasoning].
    split; [apply dom_expected_record |]. split; [reflexivity |].
    split; [exact Hin | exact Hne].
  - unfold process_claim. rewrite assemble_unread. cbn [mbind outcome_bind].
    eexists. split; [vm_compute; reflexivity |].
    split; [vm_compute; reflexivity |]. split; [vm_compute; reflexivity |].
    split; [cbn; auto | discriminate].
Qed.

(** ** The sample documents of the specification *)

(** What the pipeline reports: the missing fields and the route. *)
Lemma sample_extraction :
  exists result,
    process_claim (Return sample_text) = Return result
    /\ map (fun key => extractedFields result !! key) RECORD_KEYS =
         [ Some (PyStr "ABC123"); Some (PyStr "John A. Smith");
           Some (PyStr "01/01/2024"); Some (PyStr "03/15/2024");
           Some (PyStr "2:30 PM");
           Some (PyStr "12 Main Street, Springfield, IL 62701");
           Some (PyStr "Rear-ended at a red light. Bumper cracked.");
           Some (PyStr "John A. Smith"); Some (PyStr "John A. Smith");
           Some (PyStr "555-123-4567"); Some (PyStr "john@example.com");
           Some (PyStr "vehicle"); Some (PyStr "1HGBH41JXMN109186");
           Some (PyStr "2019 Toyota Camry");
           Some (PyNum (Finite (1000000 # 100)));
           Some (PyStr "collision"); Some (PyStr "PERSONAL AUTO");
           Some (PyStr "12345") ].
Proof. eexists. split; vm_compute; reflexivity. Qed.

(** A text in which no pattern matches: every extraction is absent, and
    the record still holds the eighteen keys. *)
Example assemble_nothing_found :
  exists rec,
    flatten_extracted_data (extract_from_pdf (Return "no form here")) = Return rec
    /\ map (fun key => rec !! key) RECORD_KEYS =
         [ Some PyNone; Some PyNone; Some PyNone; Some PyNone; Some PyNone;
           Some PyNone; Some PyNone; Some PyNone; Some PyNone; Some PyNone;
           Some PyNone; Some (PyStr "vehicle"); Some PyNone; Some PyNone;
           Some PyNone; Some (PyStr "auto"); Some PyNone; Some PyNone ]
    /\ validate_fields rec =
         [ "policy_number"; "policyholder_name"; "date_of_loss";
           "location_of_loss"; "description_of_accident" ].
Proof.
  rewrite assemble_text. eexists. split; [reflexivity |].
  split; vm_compute; reflexivity.
Qed.

(** Scenario A: a complete notice with an amount of $10,000.00. *)
Example scenario_fast_track :
  exists result,
    process_claim (Return sample_text) = Return result
    /\ missingFields result = []
    /\ recommendedRoute result = "Fast-Track"
    /\ reasoning result =
         "Estimated damage ($10,000.00) is below fast-track threshold ($25,000)".
Proof. eexists. split; [vm_compute; reflexivity |]. repeat split. Qed.

(** Scenario B: the line of the date of loss is not in the text. *)
Example scenario_missing_date :
  exists result,
    process_claim (Return (notice "" "Rear-ended at a red light." "$10,000.00"))
    = Return result
    /\ missingFields result = ["date_of_loss"]
    /\ recommendedRoute result = "Manual Review"
    /\ reasoning result = "Missing mandatory fields: date_of_loss".
Proof. eexists. split; [vm_compute; reflexivity |]. repeat split. Qed.

(** Scenario C: the description holds the word [staged]. *)
Example scenario_fraud :
  exists result,
    process_claim
      (Return (notice "DATE OF LOSS AND TIME: 03/15/2024 2:30 PM
" "The other party says the crash was Staged; passenger went to hospital."
         "$50,000.00"))
    = Return result
    /\ missingFields result = []
    /\ recommendedRoute result = "Investigation Queue".
Proof. eexists. split; [vm_compute; reflexivity |]. repeat split. Qed.

(** Scenario D: the description mentions a hospital. *)
Example scenario_injury :
  exists result,
    process_claim
      (Return (notice "DATE OF LOSS AND TIME: 03/15/2024 2:30 PM
" "Rear-ended at a red light; the driver was taken to hospital." "$1,200.00"))
    = Return result
    /\ missingFields result = []
    /\ extractedFields result !! "claim_type" = Some (PyStr "injury")
    /\ recommendedRoute result = "Specialist Queue".
Proof. eexists. split; [vm_compute; reflexivity |]. repeat split. Qed.

(** Scenario E: an amount of $50,000.00; and the amount on the threshold. *)
Example scenario_standard :
  (exists result,
     process_claim
       (Return (notice "DATE OF LOSS AND TIME: 03/15/2024 2:30 PM
" "Rear-ended at a red light." "$50,000.00"))
     = Return result
     /\ missingFields result = []
     /\ recommendedRoute result = "Standard Processing")
  /\ (exists result,
        process_claim
          (Return (notice "DATE OF LOSS AND TIME: 03/15/2024 2:30 PM
" "Rear-ended at a red light." "$25,000.00"))
        = Return result
        /\ recommendedRoute result = "Standard Processing")
  /\ (exists result,
        process_claim
          (Return (notice "DATE OF LOSS AND TIME: 03/15/2024 2:30 PM
" "Rear-ended at a red light." "$24,999.99"))
        = Return result
        /\ recommendedRoute result = "Fast-Track").
Proof.
  repeat split; eexists; (split; [vm_compute; reflexivity |]); repeat split.
Qed.

(** ** Where routing fails *)




(** ** Validation, then routing *)

Lemma validated_route (rec : record) :
  (forall x, dict_get rec "description_of_accident" <> PyNum x) ->
  (forall s, dict_get rec "estimated_damage" <> PyStr s) ->
  exists route why,
    route_claim rec (validate_fields rec) = Return (route, why)
    /\ In route ROUTES
    /\ why <> "".
Proof.
  intros Hdesc Hnum.
  destruct (validate_fields rec) as [|f missing] eqn:Ev.
  - apply route_claim_typed.
    intros _. split; [| exact Hnum].
    assert (Hnf : ~ falsy (dict_get rec "description_of_accident")).
    { intros Hf.
      assert (Hin : In "description_of_accident" (validate_fields rec)).
      { apply validate_fields_In. split; [cbn; tauto | exact Hf]. }
      now rewrite Ev in Hin. }
    unfold dict_get in *.
    destruct (rec !! "description_of_accident") as [[| d | x]|] eqn:E;
      cbn [default from_option id] in *.
    + exfalso. apply Hnf. now left.
    + exists d. now left.
    + now destruct (Hdesc x).
    + exfalso. apply Hnf. now left.
  - rewrite route_claim_missing. eexists _, _. split; [reflexivity |].
    split; [cbn; auto | discriminate].
Qed.



(** ** Flattening any nested dict *)

Lemma models_lookup2 (extracted : nested) :
  Forall (fun s => is_Some (extracted !! s)) SECTIONS ->
  models extracted (lookup2 extracted).
Proof.
  intros H. split; [| reflexivity].
  intros s Hs. rewrite Forall_forall in H. apply H. now apply list_elem_of_In.
Qed.

Lemma flatten_view_lookup (mu : view) (flat section key : string) :
  In (flat, (section, key)) FLATTEN_TABLE ->
  flatten_view mu !! flat = Some (default PyNone (mu section key)).
Proof.
  intros Hin. unfold flatten_view. cbn [map FLATTEN_TABLE list_to_map foldr fst snd].
  cbn in Hin.
  repeat (destruct Hin as [[= <- <- <-] | Hin];
          [repeat (rewrite lookup_insert_ne by discriminate);
           apply lookup_insert_eq |]).
  destruct Hin.
Qed.

Lemma flatten_missing_section (extracted : nested) :
  Exists (fun s => extracted !! s = None) SECTIONS ->
  flatten_extracted_data extracted = Raise KeyError.
Proof.
  intros H. unfold flatten_extracted_data, section_get.
  destruct (extracted !! "policy_information") eqn:E1; [| reflexivity].
  destruct (extracted !! "incident_information") eqn:E2; [| reflexivity].
  destruct (extracted !! "involved_parties") eqn:E3; [| reflexivity].
  destruct (extracted !! "asset_details") eqn:E4; [| reflexivity].
  destruct (extracted !! "other_fields") eqn:E5; [| reflexivity].
  exfalso. unfold SECTIONS in H.
  repeat (apply Exists_cons in H as [H | H]; [congruence |]).
  now apply Exists_nil in H.
Qed.

(** [flatten_extracted_data] needs the five sections and nothing else: with
    them it returns a record of exactly the eighteen keys, each the entry of
    the table or [None] when the section lacks it; without one of them it
    raises [KeyError]. *)
Theorem flatten_extracted_data_sections (extracted : nested) :
  (Forall (fun s => is_Some (extracted !! s)) SECTIONS
   /\ exists rec,
        flatten_extracted_data extracted = Return rec
        /\ dom rec = list_to_set RECORD_KEYS
        /\ forall flat section key,
             In (flat, (section, key)) FLATTEN_TABLE ->
             rec !! flat = Some (default PyNone (lookup2 extracted section key)))
  \/ (Exists (fun s => extracted !! s = None) SECTIONS
      /\ flatten_extracted_data extracted = Raise KeyError).
Proof.
  destruct (decide (Forall (fun s => is_Some (extracted !! s)) SECTIONS))
    as [Hall | Hsome].
  - left. split; [exact Hall |]. exists (flatten_view (lookup2 extracted)).
    split; [apply flatten_models, models_lookup2, Hall |].
    split.
    + unfold flatten_view. rewrite dom_list_to_map_L. reflexivity.
    + intros flat section key. apply flatten_view_lookup.
  - right. apply not_Forall_Exists in Hsome; [| intros s; apply _].
    assert (He : Exists (fun s => extracted !! s = None) SECTIONS).
    { eapply Exists_impl; [exact Hsome |]. cbn. intros s Hs.
      destruct (extracted !! s); [| reflexivity]. exfalso. apply Hs. eauto. }
    split; [exact He | now apply flatten_missing_section].
Qed.

(** ** Filling in a field *)

Lemma filter_filter {A : Type} (p q : A -> bool) (l : list A) :
  List.filter q (List.filter p l) = List.filter (fun x => p x && q x) l.
Proof.
  induction l as [|x l IH]; [reflexivity |]. cbn.
  destruct (p x); cbn; [| exact IH]. destruct (q x); now rewrite IH.
Qed.

(** Giving a field a truthy value takes it, and it alone, out of the
    report. *)
Theorem validate_fields_fill (rec : record) (field : string) (v : pyval) :
  truthy v = true ->
  validate_fields (<[field := v]> rec)
  = List.filter (fun f => negb (String.eqb f field)) (validate_fields rec).
Proof.
  intros Hv. rewrite !validate_fields_filter, filter_filter.
  apply filter_ext. intros f. unfold dict_get.
  destruct (String.eqb_spec f field) as [-> | Hne].
  - rewrite lookup_insert_eq. cbn [default from_option id]. rewrite Hv.
    now rewrite andb_false_r.
  - rewrite lookup_insert_ne by congruence. now rewrite andb_true_r.
Qed.

Lemma validate_fields_fill_witness :
  truthy (PyStr "POL-7") = true
  /\ validate_fields threshold_record
     = ["policy_number"; "policyholder_name"; "date_of_loss"; "location_of_loss"]
  /\ validate_fields (<["policy_number" := PyStr "POL-7"]> threshold_record)
     = ["policyholder_name"; "date_of_loss"; "location_of_loss"].
Proof.
  split; [reflexivity |]. split; [reflexivity |].
  rewrite (validate_fields_fill threshold_record "policy_number" (PyStr "POL-7"));
    reflexivity.
Defined.

(** ** Classification of a part and of the whole *)

Lemma occurs_trans (a b c : string) : occurs a b -> occurs b c -> occurs a c.
Proof.
  intros (p1 & q1 & ->) (p2 & q2 & ->).
  exists (p2 +:+ p1), (q1 +:+ q2). now rewrite !append_assoc.
Qed.

Lemma contains_part (kw part text : string) :
  occurs part text ->
  Str.contains kw (Str.lower part) = true ->
  Str.contains kw (Str.lower text) = true.
Proof.
  intros Ho H. apply contains_spec. apply contains_spec in H.
  eapply occurs_trans; [exact H | now apply occurs_lower].
Qed.

Lemma existsb_contains_part (keywords : list string) (part text : string) :
  occurs part text ->
  existsb (fun keyword => Str.contains keyword (Str.lower part)) keywords = true ->
  existsb (fun keyword => Str.contains keyword (Str.lower text)) keywords = true.
Proof.
  intros Ho H. apply existsb_exists in H as (kw & Hin & H).
  apply existsb_exists. exists kw. split; [exact Hin |].
  now apply (contains_part kw part text).
Qed.

(** A text is classified at least as high in the cascade as any of its
    parts: what a page, a line or a phrase mentions, the whole document
    mentions. *)
Theorem determine_claim_type_monotone (part text : string) :
  occurs part text ->
  claim_rank (_determine_claim_type part) <= claim_rank (_determine_claim_type text).
Proof.
  intros Ho. unfold _determine_claim_type.
  pose proof (existsb_contains_part
    ["injury"; "injured"; "hospital"; "medical"; "ambulance"; "bodily"]
    part text Ho) as H1.
  pose proof (existsb_contains_part ["property"; "damage"] part text Ho) as H2.
  pose proof (existsb_contains_part ["collision"; "accident"] part text Ho) as H3.
  cbn [existsb] in H2, H3. rewrite !orb_false_r in H2, H3.
  generalize dependent
    (existsb (fun keyword => Str.contains keyword (Str.lower part))
       ["injury"; "injured"; "hospital"; "medical"; "ambulance"; "bodily"]).
  generalize
    (existsb (fun keyword => Str.contains keyword (Str.lower text))
       ["injury"; "injured"; "hospital"; "medical"; "ambulance"; "bodily"]).
  generalize dependent
    (Str.contains "property" (Str.lower part)
     || Str.contains "damage" (Str.lower part)).
  generalize
    (Str.contains "property" (Str.lower text)
     || Str.contains "damage" (Str.lower text)).
  generalize dependent
    (Str.contains "collision" (Str.lower part)
     || Str.contains "accident" (Str.lower part)).
  generalize
    (Str.contains "collision" (Str.lower text)
     || Str.contains "accident" (Str.lower text)).
  intros c' c H3 p' p H2 i' i H1.
  destruct i, i'; try (specialize (H1 eq_refl)); try discriminate; clear H1;
    (destruct p, p'; try (specialize (H2 eq_refl)); try discriminate; clear H2);
    (destruct c, c'; try (specialize (H3 eq_refl)); try discriminate; clear H3);
    vm_compute; repeat constructor.
Qed.

Lemma determine_claim_type_monotone_witness :
  occurs "minor damage" "Minor collision, minor damage; driver taken to hospital"
  /\ _determine_claim_type "minor damage" = "property_damage"
  /\ _determine_claim_type "Minor collision, minor damage; driver taken to hospital"
     = "injury"
  /\ 2 <= claim_rank
            (_determine_claim_type
               "Minor collision, minor damage; driver taken to hospital").
Proof.
  assert (Ho : occurs "minor damage"
                 "Minor collision, minor damage; driver taken to hospital").
  { exists "Minor collision, ", "; driver taken to hospital". reflexivity. }
  split; [exact Ho |]. split; [reflexivity |]. split; [reflexivity |].
  exact (determine_claim_type_monotone _ _ Ho).
Defined.

(** ** Extracted values are in normal form *)

Lemma spaced_collapse (s : string) :
  spaced true (collapse_from true false s) = true
  /\ (collapse_from false false s = "" \/ spaced false (collapse_from false false s) = true).
Proof.
  induction s as [|c s [IH1 IH2]]; [split; [reflexivity | now left] |].
  cbn [collapse_from]. destruct (Str.isspace c) eqn:E.
  - split; [| exact IH2]. rewrite collapse_from_gap.
    destruct IH2 as [-> | IH2]; [reflexivity |].
    destruct (collapse_from false false s) as [|d t]; [reflexivity |].
    change (spaced true (String " " (String d t)))
      with (true && Ascii.eqb " " " " && spaced false (String d t)).
    now rewrite IH2.
  - split.
    + cbn [spaced]. now rewrite E.
    + right. cbn [spaced]. now rewrite E.
Qed.

Lemma spaced_fixed (s : string) :
  (spaced true s = true -> collapse_from true false s = s)
  /\ (spaced false s = true ->
      collapse_from true true s = String " " s /\ collapse_from false false s = s).
Proof.
  induction s as [|c s [IH1 IH2]]; [split; [reflexivity | discriminate] |].
  cbn [spaced collapse_from]. destruct (Str.isspace c) eqn:E.
  - split; [| discriminate]. cbn [andb].
    intros H. apply andb_true_iff in H as [Hc H]. apply Ascii.eqb_eq in Hc as ->.
    now rewrite (proj1 (IH2 H)).
  - split; intros H; rewrite (IH1 H); [reflexivity | now split].
Qed.

Lemma spaced_rstrip (s : string) :
  forall a, spaced a s = true -> Str.rstrip s = s.
Proof.
  induction s as [|c s IH]; intros a H; [reflexivity |].
  cbn [spaced] in H. cbn [Str.rstrip]. destruct (Str.isspace c) eqn:E.
  - apply andb_true_iff in H as [_ H]. rewrite (IH false H).
    destruct s; [discriminate | reflexivity].
  - rewrite (IH true H). now destruct s.
Qed.

Lemma spaced_every (s : string) :
  forall a, spaced a s = true ->
    every (fun c => negb (Str.isspace c) || Ascii.eqb c " ") s = true.
Proof.
  induction s as [|c s IH]; intros a H; [reflexivity |].
  cbn [spaced] in H. cbn [every]. destruct (Str.isspace c) eqn:E; cbn [negb orb].
  - apply andb_true_iff in H as [H1 H]. apply andb_true_iff in H1 as [_ ->].
    now rewrite (IH false H).
  - now rewrite (IH true H).
Qed.

Lemma spaced_no_double (s : string) :
  forall a, spaced a s = true -> Str.contains "  " s = false.
Proof.
  induction s as [|c s IH]; intros a H; [reflexivity |].
  cbn [spaced] in H. cbn [Str.contains]. destruct (Str.isspace c) eqn:E.
  - apply andb_true_iff in H as [_ H]. rewrite (IH false H), orb_false_r.
    cbn [Str.startswith]. destruct s as [|d s]; [now rewrite andb_false_r |].
    cbn [spaced] in H. destruct (Str.isspace d) eqn:Ed; [discriminate |].
    destruct (Ascii.eqb_spec " " d) as [<- | Hd]; [discriminate |].
    now rewrite andb_false_r.
  - rewrite (IH true H), orb_false_r. cbn [Str.startswith].
    destruct (Ascii.eqb_spec " " c) as [<- | Hc]; [discriminate | reflexivity].
Qed.

Lemma collapse_normal_form (s : string) :
  collapse_whitespace s <> "" -> normal_form (collapse_whitespace s).
Proof.
  intros Hne. unfold collapse_whitespace in *.
  destruct (proj2 (spaced_collapse s)) as [E | Hs]; [contradiction |].
  set (v := collapse_from false false s) in *.
  assert (Hfix : collapse_whitespace v = v) by apply (spaced_fixed v), Hs.
  assert (Hl : Str.lstrip v = v).
  { destruct v as [|c v]; [reflexivity |]. cbn [spaced] in Hs. cbn [Str.lstrip].
    now destruct (Str.isspace c). }
  split; [exact Hne |]. split.
  { unfold Str.strip. rewrite Hl. now apply (spaced_rstrip v false). }
  split.
  { rewrite <- Hfix at 2. rewrite <- normalise_collapse, split_strip. reflexivity. }
  split; [now apply (spaced_every v false) |].
  intros Ho. apply contains_spec in Ho. now rewrite (spaced_no_double v false Hs) in Ho.
Qed.

Lemma extract_field_collapsed (text pattern v : string) :
  _extract_field text pattern = Return (Some v) ->
  v <> "" /\ exists m captured,
    Re.search pattern text [Re.IGNORECASE; Re.MULTILINE] = Return (Some m)
    /\ Re.group m 1 = Return (Some captured)
    /\ v = collapse_whitespace captured.
Proof.
  unfold _extract_field.
  destruct (Re.search pattern text _) as [[m|]|] eqn:Es; cbn [mbind outcome_bind];
    try discriminate.
  destruct (Re.group m 1) as [[captured|]|] eqn:Eg;
    cbn [mbind outcome_bind method_strip]; try discriminate.
  rewrite normalise_collapse.
  destruct (Str.truthy (collapse_whitespace captured)) eqn:E; [| discriminate].
  intros [= <-]. split; [intros H; now rewrite H in E |].
  now exists m, captured.
Qed.

(** Whatever the pattern and the text, a value [_extract_field] returns has
    a character, no white space at either end, and no white space inside
    but single spaces; normalising it again changes nothing. *)
Theorem extract_field_normal_form (text pattern v : string) :
  _extract_field text pattern = Return (Some v) -> normal_form v.
Proof.
  intros H. apply extract_field_collapsed in H as (Hne & m & captured & _ & _ & ->).
  now apply collapse_normal_form.
Qed.

Lemma extract_field_normal_form_witness :
  _extract_field "STREET:   12   Main	Street  " "STREET:[:\s]*([^\n]+)"
  = Return (Some "12 Main Street")
  /\ normal_form "12 Main Street".
Proof.
  assert (H : _extract_field "STREET:   12   Main	Street  " "STREET:[:\s]*([^\n]+)"
              = Return (Some "12 Main Street")) by (vm_compute; reflexivity).
  split; [exact H |]. exact (extract_field_normal_form _ _ _ H).
Defined.

(** ** Location and vehicle *)

Lemma append_part_normal (parts : list string) (v : string) :
  normal_form v -> append_part parts (Some v) = parts ++ [v].
Proof.
  intros (Hne & Hs & _). cbn [append_part]. rewrite Hs.
  destruct v; [contradiction | reflexivity].
Qed.

Lemma expected_location_of (text : string) :
  expected_record text !! "location_of_loss"
  = Some (expected_location (extracted_value text "STREET:[:\s]*([^\n]+)")
            (extracted_value text "CITY, STATE, ZIP:[:\s]*([^\n]+)")).
Proof. table_lookup. Qed.

Lemma expected_vehicle_of (text : string) :
  expected_record text !! "vehicle_description"
  = Some (expected_vehicle (extracted_value text "VEH #[:\s]*YEAR[:\s]*(\d{4})")
            (extracted_value text "MAKE:[:\s]*([A-Z][A-Za-z]+)")
            (extracted_value text "MODEL:[:\s]*([A-Za-z0-9\s]+?)(?:\n|BODY)")).
Proof. table_lookup. Qed.

Lemma extracted_value_of (text pattern : string) (v : option string) :
  _extract_field text pattern = Return v -> extracted_value text pattern = v.
Proof. unfold extracted_value. now intros ->. Qed.

Lemma returned_normal_form (text pattern : string) (v : option string) :
  _extract_field text pattern = Return v ->
  match v with
  | Some a => normal_form a
  | None => True
  end.
Proof.
  destruct v as [a|]; [| easy]. intros H.
  apply extract_field_collapsed in H as (Hne & m & captured & _ & _ & ->).
  now apply collapse_normal_form.
Qed.

(** The location of the loss is the street and the city line, as found,
    joined by a comma and a space; either alone when the other is not
    found; and it is reported missing exactly when neither is found. *)
Theorem assembled_location (text : string) (street city : option string) :
  _extract_field text "STREET:[:\s]*([^\n]+)" = Return street ->
  _extract_field text "CITY, STATE, ZIP:[:\s]*([^\n]+)" = Return city ->
  exists rec,
    flatten_extracted_data (extract_from_pdf (Return text)) = Return rec
    /\ rec !! "location_of_loss" =
         Some (match street, city with
               | Some a, Some b => PyStr (a +:+ ", " +:+ b)
               | Some a, None => PyStr a
               | None, Some b => PyStr b
               | None, None => PyNone
               end)
    /\ (In "location_of_loss" (validate_fields rec)
        <-> street = None /\ city = None).
Proof.
  intros Hs Hc. exists (expected_record text). split; [apply assemble_text |].
  pose proof (returned_normal_form _ _ _ Hs) as Ns.
  pose proof (returned_normal_form _ _ _ Hc) as Nc.
  assert (Hloc : expected_record text !! "location_of_loss" =
    Some (match street, city with
          | Some a, Some b => PyStr (a +:+ ", " +:+ b)
          | Some a, None => PyStr a
          | None, Some b => PyStr b
          | None, None => PyNone
          end)).
  { rewrite expected_location_of.
    rewrite (extracted_value_of _ _ _ Hs), (extracted_value_of _ _ _ Hc).
    unfold expected_location.
    clear Hs Hc. destruct street as [a|], city as [b|].
    - now rewrite (append_part_normal _ _ Ns), (append_part_normal _ _ Nc).
    - now rewrite (append_part_normal _ _ Ns).
    - now rewrite (append_part_normal _ _ Nc).
    - reflexivity. }
  split; [exact Hloc |].
  rewrite validate_fields_In. unfold dict_get. rewrite Hloc.
  cbn [default from_option id]. split.
  - intros [_ Hf]. apply truthy_false in Hf. clear Hs Hc Hloc.
    destruct street as [a|], city as [b|]; [| | | easy].
    + destruct Ns as [Ha _]. destruct a; [contradiction | discriminate Hf].
    + destruct Ns as [Ha _]. destruct a; [contradiction | discriminate Hf].
    + destruct Nc as [Hb _]. destruct b; [contradiction | discriminate Hf].
  - intros [-> ->]. split; [cbn; tauto | now left].
Qed.

Lemma assembled_location_witness :
  _extract_field sample_text "STREET:[:\s]*([^\n]+)" = Return (Some "12 Main Street")
  /\ _extract_field sample_text "CITY, STATE, ZIP:[:\s]*([^\n]+)"
     = Return (Some "Springfield, IL 62701")
  /\ exists rec,
       flatten_extracted_data (extract_from_pdf (Return sample_text)) = Return rec
       /\ rec !! "location_of_loss"
          = Some (PyStr "12 Main Street, Springfield, IL 62701").
Proof.
  assert (Hs : _extract_field sample_text "STREET:[:\s]*([^\n]+)"
               = Return (Some "12 Main Street")) by (vm_compute; reflexivity).
  assert (Hc : _extract_field sample_text "CITY, STATE, ZIP:[:\s]*([^\n]+)"
               = Return (Some "Springfield, IL 62701")) by (vm_compute; reflexivity).
  split; [exact Hs |]. split; [exact Hc |].
  destruct (assembled_location sample_text _ _ Hs Hc) as (rec & Hrec & Hloc & _).
  exists rec. split; [exact Hrec | exact Hloc].
Defined.

Lemma filter_truthy_normal (l : list (option string)) :
  Forall (fun v => match v with Some a => normal_form a | None => True end) l ->
  filter_truthy l = omap id l.
Proof.
  unfold filter_truthy. induction 1 as [|v l Hv _ IH]; [reflexivity |].
  cbn [omap list_omap]. rewrite IH.
  destruct v as [a|]; [| reflexivity]. destruct Hv as [Ha _].
  destruct a; [contradiction | reflexivity].
Qed.

(** The vehicle description is the year, the make and the model, those that
    are found, in that order with a space between; the record holds none
    when none of the three is found. *)
Theorem assembled_vehicle (text : string) (year make model : option string) :
  _extract_field text "VEH #[:\s]*YEAR[:\s]*(\d{4})" = Return year ->
  _extract_field text "MAKE:[:\s]*([A-Z][A-Za-z]+)" = Return make ->
  _extract_field text "MODEL:[:\s]*([A-Za-z0-9\s]+?)(?:\n|BODY)" = Return model ->
  exists rec,
    flatten_extracted_data (extract_from_pdf (Return text)) = Return rec
    /\ rec !! "vehicle_description" =
         Some (match omap id [year; make; model] with
               | [] => PyNone
               | parts => PyStr (Str.join " " parts)
               end).
Proof.
  intros Hy Hm Ho. exists (expected_record text). split; [apply assemble_text |].
  rewrite expected_vehicle_of.
  rewrite (extracted_value_of _ _ _ Hy), (extracted_value_of _ _ _ Hm),
    (extracted_value_of _ _ _ Ho).
  unfold expected_vehicle. rewrite filter_truthy_normal.
  2:{ repeat constructor; eapply returned_normal_form; eassumption. }
  pose proof (returned_normal_form _ _ _ Hy) as Ny.
  pose proof (returned_normal_form _ _ _ Hm) as Nm.
  pose proof (returned_normal_form _ _ _ Ho) as No.
  assert (T : forall v : option string,
    match v with Some a => normal_form a | None => True end ->
    truthy_opt v = match v with Some _ => true | None => false end).
  { intros [a|] H; [| reflexivity]. destruct H as [Ha _].
    destruct a; [contradiction | reflexivity]. }
  rewrite (T year Ny), (T make Nm), (T model No).
  destruct year, make, model; reflexivity.
Qed.

Lemma assembled_vehicle_witness :
  exists rec,
    flatten_extracted_data
      (extract_from_pdf (Return "VEH # YEAR 2019 MODEL: Camry LE
BODY TYPE: sedan")) = Return rec
    /\ rec !! "vehicle_description" = Some (PyStr "2019 Camry LE").
Proof.
  set (text := "VEH # YEAR 2019 MODEL: Camry LE
BODY TYPE: sedan").
  assert (Hy : _extract_field text "VEH #[:\s]*YEAR[:\s]*(\d{4})"
               = Return (Some "2019")) by (vm_compute; reflexivity).
  assert (Hm : _extract_field text "MAKE:[:\s]*([A-Z][A-Za-z]+)" = Return None)
    by (vm_compute; reflexivity).
  assert (Ho : _extract_field text "MODEL:[:\s]*([A-Za-z0-9\s]+?)(?:\n|BODY)"
               = Return (Some "Camry LE")) by (vm_compute; reflexivity).
  destruct (assembled_vehicle text _ _ _ Hy Hm Ho) as (rec & Hrec & Hv).
  exists rec. split; [exact Hrec | exact Hv].
Defined.

(** ** Documents that give no text *)

Lemma process_unread (e : exn) : process_claim (Raise e) = Return unread_result.
Proof. vm_compute. reflexivity. Qed.

Lemma read_pages_texts (texts : list string) :
  forall full_text rest,
    read_pages full_text (map text_page texts ++ rest)
    = read_pages (full_text +:+ page_lines texts) rest.
Proof.
  induction texts as [|t texts IH]; intros full_text rest.
  - cbn [map app page_lines]. now rewrite append_nil_r.
  - cbn [map app read_pages text_page mbind outcome_bind add_newline page_lines].
    rewrite IH. now rewrite !append_assoc.
Qed.

(** The text handed to the extraction is the text of the pages in order,
    each followed by a line break; the first page that has no text layer
    ends the reading with [TypeError], and the first page whose reading
    raises ends it with that exception, whatever the pages after it
    hold. *)
Theorem pages_text_spec (texts : list string) (rest : list page) :
  pages_text (Return (map text_page texts)) = Return (page_lines texts)
  /\ pages_text (Return (map text_page texts ++ Return None :: rest))
     = Raise TypeError
  /\ forall e,
       pages_text (Return (map text_page texts ++ Raise e :: rest)) = Raise e.
Proof.
  unfold pages_text. cbn [mbind outcome_bind]. split.
  - rewrite <- (app_nil_r (map text_page texts)). now rewrite read_pages_texts.
  - split; [| intros e]; now rewrite read_pages_texts.
Qed.

(** A document that gives no text, whatever the exception, is not refused:
    it gets the record of eighteen absent fields, all six mandatory fields
    reported missing, and the route Manual Review. *)
Theorem process_claim_unread (doc : document) (e : exn) :
  pages_text doc = Raise e ->
  process_claim (pages_text doc) = Return unread_result
  /\ forall key, In key RECORD_KEYS ->
       extractedFields unread_result !! key = Some PyNone.
Proof.
  intros ->. split; [apply process_unread |].
  intros key Hin. cbn in Hin.
  repeat (destruct Hin as [<- | Hin]; [reflexivity |]). destruct Hin.
Qed.

Lemma process_claim_unread_witness :
  pages_text scanned_document = Raise TypeError
  /\ process_claim (pages_text scanned_document) = Return unread_result.
Proof.
  assert (H : pages_text scanned_document = Raise TypeError) by reflexivity.
  split; [exact H |].
  exact (proj1 (process_claim_unread scanned_document TypeError H)).
Defined.

(** ** The decision on a document *)

Lemma process_claim_text (text : string) :
  process_claim (Return text) =
    match route_claim (expected_record text)
            (validate_fields (expected_record text)) with
    | Return (route, why) =>
        Return (Result (expected_record text)
                  (validate_fields (expected_record text)) route why)
    | Raise e => Raise e
    end.
Proof.
  unfold process_claim. rewrite assemble_text. cbn [mbind outcome_bind].
  destruct (route_claim _ _) as [[route why]|]; reflexivity.
Qed.

Lemma determine_injury (text : string) :
  _determine_claim_type text = "injury" <-> mentions INJURY_TERMS text.
Proof.
  unfold mentions. rewrite <- existsb_contains. unfold _determine_claim_type.
  fold INJURY_TERMS. destruct (existsb _ INJURY_TERMS); [easy |].
  destruct (_ || _); [easy |]. destruct (_ || _); easy.
Qed.

(** The record of a document with nothing missing holds a description, and
    routing reads it. *)
Lemma complete_description (text : string) :
  validate_fields (expected_record text) = [] ->
  exists d,
    expected_record text !! "description_of_accident" = Some (PyStr d)
    /\ d <> "".
Proof.
  intros Ev.
  assert (Hnf : ~ falsy (dict_get (expected_record text) "description_of_accident")).
  { intros Hf.
    assert (Hin : In "description_of_accident" (validate_fields (expected_record text))).
    { apply validate_fields_In. split; [cbn; tauto | exact Hf]. }
    rewrite Ev in Hin. destruct Hin. }
  unfold dict_get in Hnf. rewrite expected_description in *.
  destruct (extracted_value text _) as [d|]; cbn in Hnf.
  - exists d. split; [reflexivity |]. intros ->. apply Hnf. right. now left.
  - exfalso. apply Hnf. now left.
Qed.

Lemma assembled_route (text : string) :
  let rec := expected_record text in
  match validate_fields rec with
  | f :: missing =>
      route_claim rec (validate_fields rec)
      = Return ("Manual Review",
                "Missing mandatory fields: " +:+ Str.join ", " (f :: missing))
  | [] =>
      exists d,
        rec !! "description_of_accident" = Some (PyStr d)
        /\ route_claim rec [] =
             if fraud_gate (Str.lower d)
             then Return ("Investigation Queue",
                          "Description contains potential fraud indicators")
             else if String.eqb (_determine_claim_type text) "injury"
             then Return ("Specialist Queue",
                          "Claim involves injury and requires specialist review")
             else match dict_get rec "estimated_damage" with
                  | PyNum x =>
                      if Num.ltb_int x FAST_TRACK_THRESHOLD
                      then Return ("Fast-Track",
                                   "Estimated damage ($" +:+ Num.format_comma_2f x
                                   +:+ ") is below fast-track threshold ($25,000)")
                      else Return ("Standard Processing",
                                   "Estimated damage ($" +:+ Num.format_comma_2f x
                                   +:+ ") exceeds fast-track threshold ($25,000)")
                  | _ =>
                      Return ("Manual Review",
                              "Estimated damage amount is missing or invalid")
                  end
  end.
Proof.
  intros rec. destruct (validate_fields rec) as [|f missing] eqn:Ev;
    [| apply route_claim_missing].
  destruct (complete_description text Ev) as (d & Hd & _).
  exists d. split; [exact Hd |].
  rewrite (route_claim_complete rec d (or_introl Hd)).
  destruct (fraud_gate (Str.lower d)); [reflexivity |].
  unfold dict_get at 1. unfold rec at 1. rewrite expected_claim_type.
  cbn [default from_option id eq_str].
  destruct (String.eqb _ "injury"); [reflexivity |].
  unfold dict_get, rec. rewrite expected_estimated_damage.
  cbn [default from_option id].
  pose proof (expected_damage_typed
    (extracted_value text "ESTIMATE AMOUNT:[:\s]*\$?([0-9,]+(?:\.\d{2})?)")) as Hty.
  destruct (expected_damage _) as [| s | x]; [reflexivity | now destruct (Hty s) |].
  reflexivity.
Qed.

(** The route of a document, gate by gate.  With a mandatory field missing
    it is Manual Review.  Otherwise it is the Investigation Queue when the
    extracted description holds a fraud keyword (the rest of the text is
    not looked at); else the Specialist Queue when an injury term occurs
    anywhere in the text; else Fast-Track or Standard Processing by the
    amount, and Manual Review when no amount was read. *)
Theorem process_claim_decision (text : string) :
  exists result,
    process_claim (Return text) = Return result
    /\ let complete := missingFields result = [] in
       let fraud :=
         exists d, extractedFields result !! "description_of_accident"
                   = Some (PyStr d) /\ has_fraud_keyword d in
       let injury := mentions INJURY_TERMS text in
       let damage := dict_get (extractedFields result) "estimated_damage" in
       (recommendedRoute result = "Investigation Queue" <-> complete /\ fraud)
       /\ (recommendedRoute result = "Specialist Queue"
           <-> complete /\ ~ fraud /\ injury)
       /\ (recommendedRoute result = "Fast-Track"
           <-> complete /\ ~ fraud /\ ~ injury
               /\ exists x, damage = PyNum x
                            /\ Num.ltb_int x FAST_TRACK_THRESHOLD = true)
       /\ (recommendedRoute result = "Standard Processing"
           <-> complete /\ ~ fraud /\ ~ injury
               /\ exists x, damage = PyNum x
                            /\ Num.ltb_int x FAST_TRACK_THRESHOLD = false)
       /\ (recommendedRoute result = "Manual Review"
           <-> ~ complete \/ (~ fraud /\ ~ injury /\ damage = PyNone)).
Proof.
  rewrite process_claim_text. pose proof (assembled_route text) as H. cbv zeta in H.
  assert (Hty : forall s, dict_get (expected_record text) "estimated_damage" <> PyStr s).
  { intros s. unfold dict_get. rewrite expected_estimated_damage.
    exact (expected_damage_typed _ s). }
  pose proof (determine_injury text) as Hinj.
  generalize dependent (_determine_claim_type text). intros claim_type H Hinj.
  generalize dependent (expected_record text). intros rec Hty H.
  destruct (validate_fields rec) as [|f missing].
  - destruct H as (d & Hd & Hr). rewrite Hr. clear Hr.
    assert (Hfr : fraud_gate (Str.lower d) = true <->
      exists d', rec !! "description_of_accident" = Some (PyStr d')
                 /\ has_fraud_keyword d').
    { rewrite fraud_gate_spec. split.
      - intros Hf. exists d. split; [exact Hd | exact Hf].
      - intros (d' & Hd' & Hf). rewrite Hd in Hd'. now injection Hd' as <-. }
    destruct (fraud_gate (Str.lower d)) eqn:Ef.
    { eexists. split; [reflexivity |]. cbn [recommendedRoute missingFields extractedFields].
      assert (F : exists d', rec !! "description_of_accident" = Some (PyStr d')
                             /\ has_fraud_keyword d') by now apply Hfr.
      repeat split; try discriminate; try tauto; intros; tauto. }
    assert (F : ~ exists d', rec !! "description_of_accident" = Some (PyStr d')
                             /\ has_fraud_keyword d').
    { intros F. apply Hfr in F. discriminate F. }
    clear Hfr Ef.
    destruct (String.eqb_spec claim_type "injury") as [Ei | Ei].
    { apply Hinj in Ei. eexists. split; [reflexivity |].
      cbn [recommendedRoute missingFields extractedFields].
      repeat split; try discriminate; try tauto; intros; tauto. }
    assert (I : ~ mentions INJURY_TERMS text) by (intros I; now apply Hinj in I).
    clear Hinj Ei.
    destruct (dict_get rec "estimated_damage") as [| s | x] eqn:Ed.
    + eexists. split; [reflexivity |].
      cbn [recommendedRoute missingFields extractedFields]. rewrite Ed.
      repeat split; try discriminate; try tauto;
        try (intros (_ & _ & _ & x & [=] & _)).
    + now destruct (Hty s).
    + destruct (Num.ltb_int x FAST_TRACK_THRESHOLD) eqn:El;
        (eexists; split; [reflexivity |]);
        cbn [recommendedRoute missingFields extractedFields]; rewrite Ed;
        repeat split; try discriminate; try tauto;
        try (intros (_ & _ & _ & x' & [= <-] & Hx); congruence);
        try (exists x; split; [reflexivity | exact El]);
        try (intros [Hc | (_ & _ & [=])]; exfalso; now apply Hc).
  - rewrite H. eexists. split; [reflexivity |].
    cbn [recommendedRoute missingFields extractedFields].
    repeat split; try discriminate; try (intros ([=] & _)); try (now left).
Qed.

(** ** The matcher reads texts of the language *)

Lemma string_length_app (a b : string) :
  String.length (a +:+ b) = String.length a + String.length b.
Proof.
  induction a as [|c a IH]; [reflexivity |]. rewrite append_cons. cbn. now rewrite IH.
Qed.

Lemma substring_prefix (w s : string) :
  String.substring 0 (String.length w) (w +:+ s) = w.
Proof.
  induction w as [|c w IH]; [now destruct s |].
  rewrite append_cons. cbn. now rewrite IH.
Qed.

Lemma consumed_app (w s : string) : Re.consumed (w +:+ s) s = w.
Proof.
  unfold Re.consumed. rewrite string_length_app.
  replace (String.length w + String.length s - String.length s)
    with (String.length w) by lia.
  apply substring_prefix.
Qed.

Lemma occurs_suffix (c w s : string) : occurs c s -> occurs c (w +:+ s).
Proof.
  intros (p & q & ->). exists (w +:+ p), q. now rewrite append_assoc.
Qed.

Lemma occurs_prefix (w s : string) : occurs w (w +:+ s).
Proof. now exists "", s. Qed.

Lemma grown_refl (P : nat -> string -> Prop) (s : string) (g : Re.captures) :
  grown P s g g.
Proof. intros j c H. now left. Qed.

Lemma grown_trans (P : nat -> string -> Prop) (w s : string)
  (g g1 g2 : Re.captures) :
  grown P (w +:+ s) g g1 -> grown P s g1 g2 -> grown P (w +:+ s) g g2.
Proof.
  intros H1 H2 j c H. destruct (H2 j c H) as [H' | [Ho HP]].
  - now apply H1.
  - right. split; [now apply occurs_suffix | exact HP].
Qed.

Lemma grown_weaken (P Q : nat -> string -> Prop) (s : string)
  (g g' : Re.captures) :
  (forall j c, P j c -> Q j c) -> grown P s g g' -> grown Q s g g'.
Proof.
  intros HPQ H j c Hc. destruct (H j c Hc) as [H' | [Ho HP]]; [now left |].
  right. split; [exact Ho | now apply HPQ].
Qed.

Lemma reads_weaken (m : Re.matcher) (L L' : string -> Prop)
  (P Q : nat -> string -> Prop) :
  (forall w, L w -> L' w) -> (forall j c, P j c -> Q j c) ->
  reads m L P -> reads m L' Q.
Proof.
  intros HL HP Hm prev s g k res H.
  apply Hm in H as (prev' & w & s' & g' & -> & Hw & Hg & Hk).
  exists prev', w, s', g'. split; [reflexivity |]. split; [now apply HL |].
  split; [| exact Hk]. eapply grown_weaken; [exact HP | exact Hg].
Qed.

Lemma reads_one_char (ok : ascii -> bool) (P : nat -> string -> Prop) :
  reads (Re.one_char ok) (fun w => exists c, w = String c "" /\ ok c = true) P.
Proof.
  intros prev s g k res H. unfold Re.one_char in H.
  destruct s as [|c s]; [discriminate |]. destruct (ok c) eqn:E; [| discriminate].
  exists (Some c), (String c ""), s, g. split; [reflexivity |].
  split; [now exists c |]. split; [apply grown_refl | exact H].
Qed.

Section Soundness.

Variables (body : Re.matcher) (L : string -> Prop) (P : nat -> string -> Prop).
Hypothesis body_reads : reads body L P.

Lemma reads_repeat_min (n : nat) :
  forall k prev s g res,
    Re.repeat_min body n k prev s g = Some res ->
    exists prev' ws s' g',
      s = glue ws +:+ s' /\ Forall L ws /\ length ws = n
      /\ grown P s g g' /\ k prev' s' g' = Some res.
Proof.
  induction n as [|n IH]; intros k prev s g res H; cbn [Re.repeat_min] in H.
  - exists prev, [], s, g. repeat split; [constructor | apply grown_refl | exact H].
  - apply body_reads in H as (p1 & w & s1 & g1 & -> & Hw & Hg1 & H).
    apply IH in H as (p2 & ws & s2 & g2 & -> & Hws & Hlen & Hg2 & H).
    exists p2, (w :: ws), s2, g2. cbn [glue length].
    split; [now rewrite append_assoc |]. split; [now constructor |].
    split; [now rewrite Hlen |]. split; [| exact H].
    eapply grown_trans; [exact Hg1 | exact Hg2].
Qed.

Lemma reads_repeat_more (greedy : bool) (fuel : nat) :
  forall budget k prev s g res,
    Re.repeat_more greedy body fuel budget k prev s g = Some res ->
    exists prev' ws s' g',
      s = glue ws +:+ s' /\ Forall L ws
      /\ (forall b, budget = Some b -> length ws <= b)
      /\ grown P s g g' /\ k prev' s' g' = Some res.
Proof.
  induction fuel as [|fuel IH]; intros budget k prev s g res H.
  - exists prev, [], s, g.
    repeat split; [constructor | cbn; lia | apply grown_refl | exact H].
  - cbn [Re.repeat_more] in H.
    assert (Hstop : forall res', k prev s g = Some res' ->
      exists prev' ws s' g',
        s = glue ws +:+ s' /\ Forall L ws
        /\ (forall b, budget = Some b -> length ws <= b)
        /\ grown P s g g' /\ k prev' s' g' = Some res').
    { intros res' Hk. exists prev, [], s, g.
      repeat split; [constructor | cbn; lia | apply grown_refl | exact Hk]. }
    assert (Hadv : forall res',
      (if Re.allows budget
       then Re.advance body
              (Re.repeat_more greedy body fuel (pred <$> budget) k) prev s g
       else None) = Some res' ->
      exists prev' ws s' g',
        s = glue ws +:+ s' /\ Forall L ws
        /\ (forall b, budget = Some b -> length ws <= b)
        /\ grown P s g g' /\ k prev' s' g' = Some res').
    { intros res' Ha. destruct (Re.allows budget) eqn:Eb; [| discriminate].
      unfold Re.advance in Ha.
      apply body_reads in Ha as (p1 & w & s1 & g1 & -> & Hw & Hg1 & Ha).
      destruct (String.length s1 <? String.length (w +:+ s1)); [| discriminate].
      apply IH in Ha as (p2 & ws & s2 & g2 & -> & Hws & Hb & Hg2 & Ha).
      exists p2, (w :: ws), s2, g2. cbn [glue length].
      split; [now rewrite append_assoc |]. split; [now constructor |].
      split; [| split; [eapply grown_trans; [exact Hg1 | exact Hg2] | exact Ha]].
      intros b ->. destruct b as [|b]; [discriminate |].
      specialize (Hb b eq_refl). lia. }
    destruct greedy.
    + match type of H with
      | match ?x with _ => _ end = _ => destruct x as [m|] eqn:E
      end.
      * injection H as <-. now apply Hadv.
      * now apply Hstop.
    + destruct (k prev s g) as [m|] eqn:E.
      * injection H as <-. now apply Hstop.
      * now apply Hadv.
Qed.

End Soundness.

Lemma in_groups_app (j : nat) (b : Re.regex) (l1 l2 : list (nat * Re.regex)) :
  In (j, b) l1 \/ In (j, b) l2 -> In (j, b) (l1 ++ l2).
Proof. intros H. apply in_or_app. exact H. Qed.

(** Whatever [run] reads is in the language of the expression, and every
    group it sets is a part of the text in the language of that group. *)
Lemma run_reads (ignorecase multiline : bool) (r : Re.regex) :
  reads (Re.run ignorecase multiline r) (lang ignorecase r)
    (group_lang ignorecase r).
Proof.
  induction r as [| c | | negate items | | | r1 IH1 r2 IH2 | r1 IH1 r2 IH2
                 | greedy min max r IH | j r IH | r IH];
    cbn [Re.run lang].
  - intros prev s g k res H. exists prev, "", s, g.
    repeat split; [apply grown_refl | exact H].
  - apply reads_one_char.
  - intros prev s g k res H. cbn [Re.run] in H.
    apply (reads_one_char _ (group_lang ignorecase Re.Dot)) in H
      as (p' & w & s' & g' & -> & (c & -> & Hc) & Hg & H).
    exists p', (String c ""), s', g'. split; [reflexivity |].
    split; [| now split].
    exists c. split; [reflexivity | now apply negb_true_iff].
  - apply reads_one_char.
  - intros prev s g k res H. cbn [Re.run] in H.
    destruct (Re.at_bol multiline prev); [| discriminate].
    exists prev, "", s, g. repeat split; [apply grown_refl | exact H].
  - intros prev s g k res H. cbn [Re.run] in H.
    destruct (Re.at_eol multiline s); [| discriminate].
    exists prev, "", s, g. repeat split; [apply grown_refl | exact H].
  - intros prev s g k res H. cbn [Re.run] in H.
    apply IH1 in H as (p1 & w1 & s1 & g1 & -> & Hw1 & Hg1 & H).
    apply IH2 in H as (p2 & w2 & s2 & g2 & -> & Hw2 & Hg2 & H).
    exists p2, (w1 +:+ w2), s2, g2.
    split; [now rewrite append_assoc |]. split; [now exists w1, w2 |].
    split; [| exact H].
    eapply grown_trans.
    + eapply grown_weaken; [| exact Hg1].
      intros j c (b & Hb & Hl). exists b. split; [| exact Hl].
      cbn [groups_of]. apply in_groups_app. now left.
    + eapply grown_weaken; [| exact Hg2].
      intros j c (b & Hb & Hl). exists b. split; [| exact Hl].
      cbn [groups_of]. apply in_groups_app. now right.
  - intros prev s g k res H. cbn [Re.run] in H.
    destruct (Re.run ignorecase multiline r1 prev s g k) as [m|] eqn:E.
    + injection H as <-.
      apply IH1 in E as (p1 & w1 & s1 & g1 & -> & Hw1 & Hg1 & E).
      exists p1, w1, s1, g1. split; [reflexivity |]. split; [now left |].
      split; [| exact E]. eapply grown_weaken; [| exact Hg1].
      intros j c (b & Hb & Hl). exists b. split; [| exact Hl].
      cbn [groups_of]. apply in_groups_app. now left.
    + apply IH2 in H as (p2 & w2 & s2 & g2 & -> & Hw2 & Hg2 & H).
      exists p2, w2, s2, g2. split; [reflexivity |]. split; [now right |].
      split; [| exact H]. eapply grown_weaken; [| exact Hg2].
      intros j c (b & Hb & Hl). exists b. split; [| exact Hl].
      cbn [groups_of]. apply in_groups_app. now right.
  - intros prev s g k res H. cbn [Re.run] in H.
    apply (reads_repeat_min _ _ _ IH) in H
      as (p1 & ws1 & s1 & g1 & -> & Hws1 & Hlen1 & Hg1 & H).
    apply (reads_repeat_more _ _ _ IH) in H
      as (p2 & ws2 & s2 & g2 & -> & Hws2 & Hb & Hg2 & H).
    exists p2, (glue (ws1 ++ ws2)), s2, g2.
    assert (Hglue : forall a b, glue (a ++ b) = glue a +:+ glue b).
    { induction a as [|x a IHa]; intros b; [reflexivity |].
      cbn [app glue]. now rewrite IHa, append_assoc. }
    split; [now rewrite Hglue, append_assoc |]. split.
    { exists (ws1 ++ ws2). split; [reflexivity |].
      split; [apply Forall_app; now split |].
      rewrite length_app. split; [lia |].
      intros m ->. specialize (Hb (m - min) eq_refl). lia. }
    split; [| exact H]. cbn [groups_of] in *.
    eapply grown_trans; [exact Hg1 | exact Hg2].
  - intros prev s g k res H. cbn [Re.run] in H.
    apply IH in H as (p1 & w & s1 & g1 & -> & Hw & Hg1 & H).
    rewrite consumed_app in H.
    exists p1, w, s1, (<[j := w]> g1). split; [reflexivity |].
    split; [exact Hw |]. split; [| exact H].
    intros i c Hc. destruct (decide (j = i)) as [<- | Hne].
    + rewrite lookup_insert_eq in Hc. injection Hc as <-. right.
      split; [apply occurs_prefix |]. exists r. split; [now left | exact Hw].
    + rewrite lookup_insert_ne in Hc by exact Hne.
      destruct (Hg1 i c Hc) as [H' | [Ho (b & Hb & Hl)]]; [now left |].
      right. split; [exact Ho |]. exists b. split; [now right | exact Hl].
  - intros prev s g k res H. cbn [Re.run] in H.
    destruct (Re.run ignorecase multiline r prev s g _); [discriminate |].
    exists prev, "", s, g. repeat split; [apply grown_refl | exact H].
Qed.

(** The match [search_from] returns is a part of the text in the language
    of the expression, and so is every group, in the language of its own
    expression. *)
Lemma search_from_sound (ignorecase multiline : bool) (r : Re.regex) :
  forall s prev whole g,
    Re.search_from ignorecase multiline r prev s = Some (whole, g) ->
    occurs whole s /\ lang ignorecase r whole
    /\ forall j c, g !! j = Some c ->
         occurs c s /\ group_lang ignorecase r j c.
Proof.
  assert (Hat : forall s prev rest g,
    Re.run ignorecase multiline r prev s ∅ (fun _ rest g => Some (rest, g))
    = Some (rest, g) ->
    occurs (Re.consumed s rest) s /\ lang ignorecase r (Re.consumed s rest)
    /\ forall j c, g !! j = Some c -> occurs c s /\ group_lang ignorecase r j c).
  { intros s prev rest g H.
    apply run_reads in H as (p' & w & s' & g' & -> & Hw & Hg & H).
    injection H as <- <-. rewrite consumed_app.
    split; [apply occurs_prefix |]. split; [exact Hw |].
    intros j c Hc. destruct (Hg j c Hc) as [H' | H']; [| exact H'].
    now rewrite lookup_empty in H'. }
  induction s as [|x s IH]; intros prev whole g H; cbn [Re.search_from] in H.
  - destruct (Re.run _ _ r prev "" ∅ _) as [[rest g0]|] eqn:E; [| discriminate].
    injection H as <- <-. now apply (Hat "" prev).
  - destruct (Re.run _ _ r prev (String x s) ∅ _) as [[rest g0]|] eqn:E.
    + injection H as <- <-. now apply (Hat _ prev).
    + apply IH in H as (Ho & Hl & Hg). split.
      { now apply (occurs_suffix whole (String x "") s). }
      split; [exact Hl |]. intros j c Hc. destruct (Hg j c Hc) as [Hoc Hgl].
      split; [| exact Hgl]. now apply (occurs_suffix c (String x "") s).
Qed.

(** ** Characters and lengths of a language *)

Lemma every_app (p : ascii -> bool) (a b : string) :
  every p (a +:+ b) = every p a && every p b.
Proof.
  induction a as [|c a IH]; [reflexivity |].
  rewrite append_cons. cbn [every]. now rewrite IH, andb_assoc.
Qed.

Lemma every_impl (p q : ascii -> bool) (s : string) :
  (forall c, p c = true -> q c = true) -> every p s = true -> every q s = true.
Proof.
  intros Hpq. induction s as [|c s IH]; [reflexivity |]. cbn [every].
  rewrite !andb_true_iff. intros [Hc Hs]. split; [now apply Hpq | now apply IH].
Qed.

Lemma in_all_ascii (c : ascii) : In c all_ascii.
Proof.
  unfold all_ascii. rewrite <- (ascii_nat_embedding c). apply in_map.
  apply in_seq. pose proof (nat_ascii_bounded c). lia.
Qed.

Lemma within_spec (p q : ascii -> bool) :
  within p q = true -> forall c, p c = true -> q c = true.
Proof.
  intros H c Hp. unfold within in H. rewrite forallb_forall in H.
  specialize (H c (in_all_ascii c)). now rewrite Hp in H.
Qed.

Lemma lang_every (ignorecase : bool) (r : Re.regex) :
  forall w, lang ignorecase r w -> every (accepts ignorecase r) w = true.
Proof.
  induction r as [| c | | negate items | | | r1 IH1 r2 IH2 | r1 IH1 r2 IH2
                 | greedy min max r IH | j r IH | r IH];
    intros w H; cbn [lang accepts] in *;
    try (subst w; reflexivity);
    try (destruct H as (x & -> & Hx); cbn [every]; now rewrite ?Hx, ?andb_true_r).
  - destruct H as (w1 & w2 & -> & H1 & H2). rewrite every_app.
    apply andb_true_iff. split.
    + eapply every_impl; [| exact (IH1 _ H1)]. intros c ->. reflexivity.
    + eapply every_impl; [| exact (IH2 _ H2)]. intros c ->. apply orb_true_r.
  - destruct H as [H | H].
    + eapply every_impl; [| exact (IH1 _ H)]. intros c ->. reflexivity.
    + eapply every_impl; [| exact (IH2 _ H)]. intros c ->. apply orb_true_r.
  - destruct H as (ws & -> & Hws & _). induction Hws as [|x ws Hx _ IHws];
      [reflexivity |].
    cbn [glue]. rewrite every_app. apply andb_true_iff.
    split; [exact (IH _ Hx) | exact IHws].
  - now apply IH.
Qed.

Lemma glue_length_bounds (L : string -> Prop) (lo : nat) (hi : option nat)
  (ws : list string) :
  Forall (fun w => L w -> lo <= String.length w
                          /\ forall a, hi = Some a -> String.length w <= a) ws ->
  Forall L ws ->
  length ws * lo <= String.length (glue ws)
  /\ forall a, hi = Some a -> String.length (glue ws) <= length ws * a.
Proof.
  induction 1 as [|w ws Hw _ IH]; intros HL; [cbn; split; [lia | intros; lia] |].
  apply Forall_cons_iff in HL as [Lw Lws]. destruct (Hw Lw) as [Hlo Hhi].
  destruct (IH Lws) as [IHlo IHhi]. cbn [glue length].
  rewrite string_length_app. split; [lia |].
  intros a Ha. specialize (Hhi a Ha). specialize (IHhi a Ha). lia.
Qed.

Lemma lang_length (ignorecase : bool) (r : Re.regex) :
  forall w, lang ignorecase r w ->
    min_length r <= String.length w
    /\ forall n, max_length r = Some n -> String.length w <= n.
Proof.
  induction r as [| c | | negate items | | | r1 IH1 r2 IH2 | r1 IH1 r2 IH2
                 | greedy min max r IH | j r IH | r IH];
    intros w H; cbn [lang min_length max_length] in *;
    try (subst w; cbn; split; [lia | intros; lia]);
    try (destruct H as (x & -> & _); cbn; split; [lia | intros n [= <-]; lia]).
  - destruct H as (w1 & w2 & -> & H1 & H2).
    destruct (IH1 _ H1) as [L1 U1], (IH2 _ H2) as [L2 U2].
    rewrite string_length_app. split; [lia |].
    destruct (max_length r1) as [a|]; [| discriminate].
    destruct (max_length r2) as [b|]; [| discriminate].
    intros n [= <-]. specialize (U1 a eq_refl). specialize (U2 b eq_refl). lia.
  - destruct H as [H | H].
    + destruct (IH1 _ H) as [L1 U1]. split; [lia |].
      destruct (max_length r1) as [a|]; [| discriminate].
      destruct (max_length r2) as [b|]; [| discriminate].
      intros n [= <-]. specialize (U1 a eq_refl). lia.
    + destruct (IH2 _ H) as [L2 U2]. split; [lia |].
      destruct (max_length r1) as [a|]; [| discriminate].
      destruct (max_length r2) as [b|]; [| discriminate].
      intros n [= <-]. specialize (U2 b eq_refl). lia.
  - destruct H as (ws & -> & Hws & Hmin & Hmax).
    destruct (glue_length_bounds (lang ignorecase r) (min_length r) (max_length r) ws)
      as [Hlo Hhi]; [| exact Hws |].
    { apply Forall_forall. intros x _. apply IH. }
    split; [nia |].
    destruct max as [m|]; [| discriminate].
    destruct (max_length r) as [a|]; [| discriminate].
    intros n [= <-]. specialize (Hhi a eq_refl). specialize (Hmax m eq_refl). nia.
  - now apply IH.
Qed.



(** ** Where an extracted value comes from *)

Lemma extract_field_source (text pattern v : string) :
  _extract_field text pattern = Return (Some v) ->
  exists r whole g captured,
    Re.compile pattern = Some r
    /\ Re.search_from true true r None text = Some (whole, g)
    /\ g !! 1 = Some captured
    /\ v = collapse_whitespace captured
    /\ v <> "".
Proof.
  intros H. apply extract_field_collapsed in H as (Hne & m & captured & Hs & Hg & ->).
  unfold Re.search in Hs. destruct (Re.compile pattern) as [r|]; [| discriminate].
  cbn [Re.has_flag existsb orb] in Hs.
  destruct (Re.search_from true true r None text) as [[whole g]|] eqn:E;
    [| discriminate].
  injection Hs as <-. unfold Re.group in Hg. cbn [Re.ngroups Re.groups] in Hg.
  destruct (1 <=? Re.count_groups r); [| discriminate]. injection Hg as Hg.
  now exists r, whole, g, captured.
Qed.

Lemma extracted_group (text pattern v : string) :
  _extract_field text pattern = Return (Some v) ->
  exists captured,
    v = collapse_whitespace captured
    /\ exists r, Re.compile pattern = Some r /\ group_lang true r 1 captured.
Proof.
  intros H. apply extract_field_source in H as (r & whole & g & captured & Hr & Hs & Hg & -> & _).
  apply search_from_sound in Hs as (_ & _ & Hgroups).
  exists captured. split; [reflexivity |]. exists r.
  split; [exact Hr | exact (proj2 (Hgroups 1 captured Hg))].
Qed.

(** A value [_extract_field] returns is made from the document: it is the
    normalisation of a part of the text, the part that group 1 of the
    pattern spans. *)
Theorem extract_field_from_text (text pattern v : string) :
  _extract_field text pattern = Return (Some v) ->
  exists captured,
    occurs captured text
    /\ v = collapse_whitespace captured
    /\ exists r, Re.compile pattern = Some r /\ group_lang true r 1 captured.
Proof.
  intros H. apply extract_field_source in H as (r & whole & g & captured & Hr & Hs & Hg & -> & _).
  apply search_from_sound in Hs as (_ & _ & Hgroups).
  destruct (Hgroups 1 captured Hg) as [Ho Hl].
  exists captured. split; [exact Ho |]. split; [reflexivity |]. now exists r.
Qed.

Lemma extract_field_from_text_witness :
  _extract_field "City, State, Zip:  Springfield,   IL
Policy" "CITY, STATE, ZIP:[:\s]*([^\n]+)" = Return (Some "Springfield, IL")
  /\ exists captured,
       occurs captured "City, State, Zip:  Springfield,   IL
Policy"
       /\ "Springfield, IL" = collapse_whitespace captured.
Proof.
  assert (H : _extract_field "City, State, Zip:  Springfield,   IL
Policy" "CITY, STATE, ZIP:[:\s]*([^\n]+)" = Return (Some "Springfield, IL"))
    by (vm_compute; reflexivity).
  split; [exact H |].
  destruct (extract_field_from_text _ _ _ H) as (captured & Ho & Hv & _).
  now exists captured.
Defined.

(** ** Shapes of the extracted fields *)

Lemma collapse_no_space (s : string) :
  every not_space s = true ->
  forall started, collapse_from started false s = s.
Proof.
  induction s as [|c s IH]; intros H started; [reflexivity |].
  cbn [every] in H. apply andb_true_iff in H as [Hc Hs].
  unfold not_space in Hc. apply negb_true_iff in Hc.
  cbn [collapse_from]. rewrite Hc. now rewrite IH.
Qed.

Lemma group_body_lang (pattern : string) (r body : Re.regex) (j : nat)
  (c : string) :
  Re.compile pattern = Some r ->
  group_body pattern j = Some body ->
  group_lang true r j c ->
  lang true body c.
Proof.
  intros Hr Hb (b & Hin & Hl). unfold group_body in Hb. rewrite Hr in Hb.
  cbn [mbind option_bind] in Hb.
  assert (Hf : In (j, b) (List.filter (fun '(i, _) => i =? j) (groups_of r))).
  { apply filter_In. split; [exact Hin | apply Nat.eqb_refl]. }
  destruct (List.filter _ (groups_of r)) as [|[i b'] [|]]; try discriminate.
  injection Hb as <-. destruct Hf as [[= _ <-] | []]. exact Hl.
Qed.

(** A value extracted by a pattern whose group 1 reads no white space is
    the text that group spans: it has the characters and the length of the
    group's expression. *)
Lemma extracted_shape (text pattern : string) (body : Re.regex)
  (p : ascii -> bool) (lo : nat) (hi : option nat) :
  group_body pattern 1 = Some body ->
  within (accepts true body) p = true ->
  within p not_space = true ->
  min_length body = lo ->
  max_length body = hi ->
  shaped p lo hi (Some (of_optional (extracted_value text pattern))).
Proof.
  intros Hb Hp Hns <- <-. unfold extracted_value.
  destruct (_extract_field text pattern) as [[v|]|] eqn:E;
    [| now left | now left].
  right. apply extracted_group in E as (c & -> & r & Hr & Hg).
  pose proof (group_body_lang _ _ _ _ _ Hr Hb Hg) as Hl.
  assert (Hc : every p c = true).
  { eapply every_impl; [apply within_spec, Hp | now apply lang_every]. }
  assert (Hs : every not_space c = true).
  { eapply every_impl; [apply within_spec, Hns | exact Hc]. }
  unfold collapse_whitespace. rewrite (collapse_no_space c Hs).
  exists c. split; [reflexivity |]. split; [exact Hc |].
  now apply lang_length in Hl.
Qed.

Ltac shape_of_pattern :=
  eapply extracted_shape; [(vm_compute; reflexivity) ..].


(** ** The amount *)

Lemma strip_no_space (s : string) : every not_space s = true -> Str.strip s = s.
Proof.
  intros H. unfold Str.strip.
  assert (Hl : Str.lstrip s = s).
  { destruct s as [|c s]; [reflexivity |]. cbn [every] in H.
    apply andb_true_iff in H as [Hc _]. unfold not_space in Hc.
    apply negb_true_iff in Hc. cbn [Str.lstrip]. now rewrite Hc. }
  rewrite Hl. clear Hl. induction s as [|c s IH]; [reflexivity |].
  cbn [every] in H. apply andb_true_iff in H as [Hc Hs].
  unfold not_space in Hc. apply negb_true_iff in Hc.
  cbn [Str.rstrip]. rewrite (IH Hs), Hc. now destruct s.
Qed.

Lemma replace_comma (s : string) :
  every amount_char s = true ->
  every decimal_char (Str.replace ","%char "" s) = true.
Proof.
  induction s as [|c s IH]; [reflexivity |]. cbn [every Str.replace].
  rewrite andb_true_iff. intros [Hc Hs].
  destruct (Ascii.eqb_spec c ","%char) as [-> | Hne].
  - rewrite append_nil_l. now apply IH.
  - cbn [every]. rewrite (IH Hs), andb_true_r.
    unfold amount_char in Hc. unfold decimal_char.
    destruct (Re.is_digit c); [reflexivity |]. cbn [orb] in *.
    destruct (Ascii.eqb_spec c ","%char); [contradiction | exact Hc].
Qed.

Lemma value_nonneg (a : Float.acc) : (0 <= Float.value a)%Q.
Proof.
  unfold Float.value.
  destruct (0 <=? _)%Z eqn:E.
  - apply Z.leb_le in E. unfold Qle. cbn.
    assert (0 <= 10 ^ ((if Float.exp_neg a then - Z.of_N (Float.exp_val a)
                        else Z.of_N (Float.exp_val a)) - Z.of_nat (Float.scale a)))%Z
      by (apply Z.pow_nonneg; lia).
    nia.
  - unfold Qle. cbn. lia.
Qed.

Lemma number_nonneg (s : string) :
  forall m a q, Float.number m a s = Some q -> (0 <= q)%Q.
Proof.
  induction s as [|c s IH]; intros m a q H; cbn [Float.number] in H.
  - destruct (Float.accepting m); [| discriminate]. injection H as <-.
    apply value_nonneg.
  - destruct (Float.step m a c) as [[m' a']|]; [| discriminate]. now apply IH in H.
Qed.

Lemma decimal_first (T : Type) (c : ascii) (b : string) (X Y Z : string -> T) :
  decimal_char c = true ->
  match String c b with
  | String "+" body => X body
  | String "-" body => Y body
  | body => Z body
  end = Z (String c b)
  /\ String.eqb (Str.lower (String c b)) "inf" = false
  /\ String.eqb (Str.lower (String c b)) "infinity" = false
  /\ String.eqb (Str.lower (String c b)) "nan" = false.
Proof.
  destruct c as [[] [] [] [] [] [] [] []]; intros H;
    try (vm_compute in H; discriminate H); repeat split; reflexivity.
Qed.

(** A text of digits and points reads as a number that is not negative, or
    not at all. *)
Lemma float_decimal (s : string) :
  every decimal_char s = true ->
  Float.float s = Raise ValueError
  \/ exists q, Float.float s = Return (Finite q) /\ (0 <= q)%Q.
Proof.
  intros H. unfold Float.float. rewrite strip_no_space.
  2:{ eapply every_impl; [| exact H]. apply within_spec. vm_compute. reflexivity. }
  assert (Hu : Float.unsigned s false = Raise ValueError
               \/ exists q, Float.unsigned s false = Return (Finite q) /\ (0 <= q)%Q).
  { unfold Float.unsigned.
    assert (Hl : String.eqb (Str.lower s) "inf" || String.eqb (Str.lower s) "infinity"
                 = false /\ String.eqb (Str.lower s) "nan" = false).
    { destruct s as [|c b]; [split; reflexivity |]. cbn [every] in H.
      apply andb_true_iff in H as [Hc _].
      destruct (decimal_first unit c b (fun _ => tt) (fun _ => tt) (fun _ => tt) Hc)
        as (_ & -> & -> & ->). split; reflexivity. }
    destruct Hl as [-> ->].
    destruct (Float.number _ _ s) as [q|] eqn:E; [| now left].
    right. exists q. split; [reflexivity | now apply number_nonneg in E]. }
  destruct s as [|c b]; [exact Hu |]. cbn [every] in H.
  apply andb_true_iff in H as [Hc _].
  now rewrite (proj1 (decimal_first _ c b (fun body => Float.unsigned body false)
                        (fun body => Float.unsigned body true)
                        (fun body => Float.unsigned body false) Hc)).
Qed.

(** The amount of the record is never a negative number and never NaN:
    the pattern reads digits, commas and a point only, so nothing of a sign
    or of a word reaches [float]. *)
Theorem assembled_damage_not_negative (text : string) :
  exists rec,
    flatten_extracted_data (extract_from_pdf (Return text)) = Return rec
    /\ (rec !! "estimated_damage" = Some PyNone
        \/ exists x, rec !! "estimated_damage" = Some (PyNum x)
                     /\ x <> NaN /\ Num.ltb_int x 0 = false).
Proof.
  exists (expected_record text). split; [apply assemble_text |].
  rewrite expected_estimated_damage.
  assert (Hs : shaped amount_char 1 None
    (Some (of_optional (extracted_value text
       "ESTIMATE AMOUNT:[:\s]*\$?([0-9,]+(?:\.\d{2})?)")))) by shape_of_pattern.
  destruct (extracted_value text _) as [e|]; [| now left].
  destruct Hs as [[=] | (s & [= <-] & He & _)]. cbn [expected_damage].
  destruct (float_decimal _ (replace_comma e He)) as [-> | (q & -> & Hq)];
    [now left |].
  right. exists (Finite q). split; [reflexivity |]. split; [discriminate |].
  cbn [Num.ltb_int]. now apply Qltb_ge.
Qed.

(** ** A described claim is never of type auto *)

Lemma occurs_app (a pre post : string) : occurs a (pre +:+ a +:+ post).
Proof. now exists pre, post. Qed.



(** ** The time of the loss *)



(** ** The text assembler of the test script *)

Lemma text_fields_wp (text : string) :
  wp (text_fields text) empty_view
    (fun _ mu => flatten_view mu = expected_text_record text).
Proof.
  unfold text_fields.
  repeat wp_step.
  apply (wp_store_opt _ _ "incident_information" "time"
           (fun m => PyStr (str_of (Re.groups m !! 1) +:+ " "
                            +:+ str_of (Re.groups m !! 2)))).
  { intros m mu' Q' Hm HQ.
    assert (Hn : Re.ngroups m = 2).
    { eapply found_ngroups; [exact Hm | vm_compute; reflexivity]. }
    rewrite !group_in_range by lia.
    repeat wp_step. exact HQ. }
  repeat wp_step.
  apply (wp_store_opt _ _ "involved_parties" "contact_phone"
           (fun m => of_optional (Re.groups m !! 1))).
  { intros m mu' Q' Hm HQ.
    assert (Hn : Re.ngroups m = 1).
    { eapply found_ngroups; [exact Hm | vm_compute; reflexivity]. }
    rewrite !group_in_range by lia.
    repeat wp_step. exact HQ. }
  repeat wp_step.
  apply (wp_store_opt _ _ "asset_details" "estimated_damage"
           (fun e => match Float.float (Str.replace ","%char "" e) with
                     | Return x => PyNum x
                     | Raise _ => PyNone
                     end)).
  { intros e mu' Q' He HQ. rewrite (extracted_value_truthy _ _ _ He).
    destruct (Float.float _) as [x | err] eqn:Ef.
    - now apply wp_store; [cbn; tauto |].
    - apply float_raises in Ef as ->. now apply wp_store; [cbn; tauto |]. }
  repeat wp_step.
  unfold flatten_view, expected_text_record. cbn [map FLATTEN_TABLE].
  cbv [upd empty_view String.eqb Ascii.eqb Bool.eqb andb].
  rewrite !default_upd, !default_fmap, ?default_if_extracted, !default_if.
  cbn [default from_option id].
  repeat f_equal.
  unfold expected_location. now destruct (append_part _ _).
Qed.

Lemma text_fields_returns (text : string) :
  exists extracted,
    text_fields text initial_extracted = (extracted, Return tt)
    /\ flatten_extracted_data extracted = Return (expected_text_record text).
Proof.
  destruct (text_fields_wp text initial_extracted models_initial)
    as ([] & extracted & mu & Hrun & Hmod & Hview).
  exists extracted. split; [exact Hrun |].
  now rewrite (flatten_models _ _ Hmod), Hview.
Qed.

Lemma process_text (text : string) :
  process_text_fnol (Return text) =
    match route_claim (expected_text_record text)
            (validate_fields (expected_text_record text)) with
    | Return (route, why) =>
        Return (Result (expected_text_record text)
                  (validate_fields (expected_text_record text)) route why)
    | Raise e => Raise e
    end.
Proof.
  unfold process_text_fnol. cbn [mbind outcome_bind].
  destruct (text_fields_returns text) as (extracted & -> & ->).
  cbn [mbind outcome_bind].
  destruct (route_claim _ _) as [[route why]|]; reflexivity.
Qed.

Lemma of_optional_typed (v : option string) (x : pynum) : of_optional v <> PyNum x.
Proof. destruct v; discriminate. Qed.

Lemma text_description (text : string) :
  expected_text_record text !! "description_of_accident"
  = Some (of_optional (extracted_value text
      "DESCRIPTION OF ACCIDENT[:\s]*([^\n]+(?:\n(?!INSURED VEHICLE|DRIVER|OWNER|WITNESSES)[^\n]+)*)")).
Proof.
  unfold expected_text_record; cbn [list_to_map foldr fst snd].
  repeat (rewrite lookup_insert_ne by discriminate). apply lookup_insert_eq.
Qed.

Lemma text_estimated_damage (text : string) :
  expected_text_record text !! "estimated_damage"
  = Some (expected_damage
            (extracted_value text "ESTIMATE AMOUNT:[:\s]*\$?([0-9,]+(?:\.\d{2})?)")).
Proof.
  unfold expected_text_record; cbn [list_to_map foldr fst snd].
  repeat (rewrite lookup_insert_ne by discriminate). apply lookup_insert_eq.
Qed.

Lemma text_record_route (text : string) :
  exists route why,
    route_claim (expected_text_record text)
      (validate_fields (expected_text_record text)) = Return (route, why)
    /\ In route ROUTES /\ why <> "".
Proof.
  destruct (validated_route (expected_text_record text))
    as (route & why & Hr & Hin & Hne).
  - intros x. unfold dict_get. rewrite text_description. apply of_optional_typed.
  - intros s. unfold dict_get. rewrite text_estimated_damage.
    exact (expected_damage_typed _ s).
  - exists route, why. split; [exact Hr | split; [exact Hin | exact Hne]].
Qed.

Lemma pdf_record_route (text : string) :
  exists route why,
    route_claim (expected_record text)
      (validate_fields (expected_record text)) = Return (route, why)
    /\ In route ROUTES /\ why <> "".
Proof.
  destruct (validated_route (expected_record text))
    as (route & why & Hr & Hin & Hne).
  - intros x. unfold dict_get. rewrite expected_description. apply of_optional_typed.
  - intros s. unfold dict_get. rewrite expected_estimated_damage.
    exact (expected_damage_typed _ s).
  - exists route, why. split; [exact Hr | split; [exact Hin | exact Hne]].
Qed.

(** On the text of a file [process_text_fnol] returns a result: a record
    of the eighteen keys in which the effective date and the driver's name
    are always absent, the missing fields of that record, one of the five
    routes and a reasoning.  An exception raised on reading the file leaves
    the function: there is no [try] as in [extract_from_pdf]. *)
Theorem process_text_fnol_outcome (file : outcome string) :
  match file with
  | Raise e => process_text_fnol file = Raise e
  | Return text =>
      exists result,
        process_text_fnol file = Return result
        /\ dom (extractedFields result) = list_to_set RECORD_KEYS
        /\ extractedFields result !! "effective_date" = Some PyNone
        /\ extractedFields result !! "driver_name" = Some PyNone
        /\ missingFields result = validate_fields (extractedFields result)
        /\ In (recommendedRoute result) ROUTES
        /\ reasoning result <> ""
  end.
Proof.
  destruct file as [text | e]; [| reflexivity].
  rewrite process_text.
  destruct (text_record_route text) as (route & why & -> & Hin & Hne).
  eexists. split; [reflexivity |].
  cbn [extractedFields missingFields recommendedRoute reasoning].
  split.
  { unfold expected_text_record. rewrite dom_list_to_map_L. reflexivity. }
  split.
  { unfold expected_text_record; cbn [list_to_map foldr fst snd].
    repeat (rewrite lookup_insert_ne by discriminate). apply lookup_insert_eq. }
  split.
  { unfold expected_text_record; cbn [list_to_map foldr fst snd].
    repeat (rewrite lookup_insert_ne by discriminate). apply lookup_insert_eq. }
  split; [reflexivity |]. split; [exact Hin | exact Hne].
Qed.

Lemma shared_keys_agree (text : string) (key : string) :
  In key SHARED_KEYS ->
  expected_text_record text !! key = expected_record text !! key.
Proof.
  intros Hin. unfold SHARED_KEYS in Hin. cbn [In] in Hin.
  unfold expected_text_record, expected_record.
  cbn [list_to_map foldr fst snd].
  repeat (destruct Hin as [<- | Hin];
          [repeat (rewrite lookup_insert_ne by discriminate);
           rewrite !lookup_insert_eq; reflexivity |]).
  destruct Hin.
Qed.

(** Run on the same text, the assembler of the test script and the one of
    [process_claim] give the same value to the ten keys they fill from the
    same pattern; the other eight may differ, and with them the missing
    fields and the route. *)
Theorem text_and_pdf_records_agree (text : string) :
  exists from_text from_pdf,
    process_text_fnol (Return text) = Return from_text
    /\ process_claim (Return text) = Return from_pdf
    /\ forall key, In key SHARED_KEYS ->
         extractedFields from_text !! key = extractedFields from_pdf !! key.
Proof.
  rewrite process_text, process_claim_text.
  destruct (text_record_route text) as (r1 & w1 & -> & _).
  destruct (pdf_record_route text) as (r2 & w2 & -> & _).
  eexists _, _. split; [reflexivity |]. split; [reflexivity |].
  cbn [extractedFields]. apply shared_keys_agree.
Qed.

(** The two differ on a notice whose description follows its heading at
    once: the test script reads it and fast-tracks the claim, the pipeline
    of [process_claim] finds no description and asks for a manual review. *)
Example text_and_pdf_routes_differ :
  (exists result,
     process_text_fnol (Return plain_notice) = Return result
     /\ missingFields result = []
     /\ recommendedRoute result = "Fast-Track")
  /\ (exists result,
        process_claim (Return plain_notice) = Return result
        /\ missingFields result = ["description_of_accident"]
        /\ recommendedRoute result = "Manual Review").
Proof.
  split; eexists; (split; [vm_compute; reflexivity |]); split; reflexivity.
Qed.

(** ** The demo *)

Lemma bind_lift_return {A B : Type} (a : A) (f : A -> io B) (out : list string) :
  (lift (Return a) ≫= f) out = f a out.
Proof. reflexivity. Qed.

Lemma bind_lift_raise {A B : Type} (e : exn) (f : A -> io B) (out : list string) :
  (lift (Raise e) ≫= f) out = (out, Raise e).
Proof. reflexivity. Qed.

Lemma bind_print {B : Type} (line : string) (f : unit -> io B) (out : list string) :
  (print line ≫= f) out = f tt (out ++ [line]).
Proof. reflexivity. Qed.

Lemma bind_bind {A B C : Type} (m : io A) (f : A -> io B) (k : B -> io C)
  (out : list string) :
  ((m ≫= f) ≫= k) out = (m ≫= fun a => f a ≫= k) out.
Proof.
  unfold mbind, io_bind. destruct (m out) as [out' [a | e]]; reflexivity.
Qed.

Lemma bind_print_section {B : Type} (title : string) (f : unit -> io B)
  (out : list string) :
  (print_section title ≫= f) out = f tt (out ++ section_lines title).
Proof.
  unfold print_section, section_lines, mbind, io_bind, print. cbv beta iota.
  now rewrite <- !app_assoc.
Qed.

Lemma bind_print_field {B : Type} (label : string) (value : option string)
  (f : unit -> io B) (out : list string) :
  exists line, (print_field label value 2 ≫= f) out = f tt (out ++ [line]).
Proof.
  unfold print_field. destruct (truthy_opt value); eexists; apply bind_print.
Qed.

Lemma demo_validation_raises (text : string) (out : list string) :
  demo_validation text out
  = (out ++ section_lines "✅ FIELD VALIDATION", Raise AttributeError).
Proof.
  unfold demo_validation. rewrite bind_print_section. reflexivity.
Qed.

Lemma demo_extraction_run (fs : string -> outcome string) (sample_file : string)
  (out : list string) :
  match fs sample_file with
  | Return text =>
      exists fields,
        length fields = 4
        /\ demo_extraction fs sample_file out
           = (out ++ section_lines "📄 FIELD EXTRACTION" ++ fields, Return text)
  | Raise e =>
      demo_extraction fs sample_file out
      = (out ++ section_lines "📄 FIELD EXTRACTION", Raise e)
  end.
Proof.
  unfold demo_extraction. rewrite bind_print_section.
  destruct (fs sample_file) as [text | e]; [| reflexivity].
  rewrite bind_lift_return.
  rewrite !(extract_field_returns text) by (vm_compute; reflexivity).
  rewrite bind_lift_return. cbv beta.
  match goal with
  | |- context [(print_field "Policy Number" ?v 2 ≫= ?f) ?o] =>
      destruct (bind_print_field "Policy Number" v f o) as [l1 ->]
  end.
  rewrite bind_lift_return. cbv beta.
  match goal with
  | |- context [(print_field "Policyholder" ?v 2 ≫= ?f) ?o] =>
      destruct (bind_print_field "Policyholder" v f o) as [l2 ->]
  end.
  rewrite bind_lift_return. cbv beta.
  match goal with
  | |- context [(print_field "Loss Date" ?v 2 ≫= ?f) ?o] =>
      destruct (bind_print_field "Loss Date" v f o) as [l3 ->]
  end.
  rewrite bind_lift_return. cbv beta.
  match goal with
  | |- context [(print_field "Damage Estimate" ?v 2 ≫= ?f) ?o] =>
      destruct (bind_print_field "Damage Estimate" v f o) as [l4 ->]
  end.
  exists [l1; l2; l3; l4]. split; [reflexivity |].
  unfold mret, io_ret. now rewrite <- !app_assoc.
Qed.

Lemma bind_run {A B : Type} (m : io A) (f : A -> io B) (a : A)
  (out out' : list string) :
  m out = (out', Return a) -> (m ≫= f) out = f a out'.
Proof. intros H. unfold mbind, io_bind. now rewrite H. Qed.

Lemma bind_run_raise {A B : Type} (m : io A) (f : A -> io B) (e : exn)
  (out out' : list string) :
  m out = (out', Raise e) -> (m ≫= f) out = (out', Raise e).
Proof. intros H. unfold mbind, io_bind. now rewrite H. Qed.

Lemma bind_print_header {B : Type} (title : string) (f : unit -> io B)
  (out : list string) :
  (print_header title ≫= f) out = f tt (out ++ header_lines title).
Proof.
  unfold print_header, header_lines, mbind, io_bind, print. cbv beta iota.
  now rewrite <- !app_assoc.
Qed.

(** The demo never gets to the routing of a sample.  When the file cannot
    be read it ends with that exception; when it can, the four fields are
    shown, the heading of the validation is printed, and the lookup of
    [__wrapped__] on the method raises [AttributeError]: the method is not
    a wrapper.  Nothing of the validation or of the routing is printed. *)
Theorem demo_complete_flow_stops (fs : string -> outcome string)
  (sample_file : string) (out : list string) :
  let banner :=
    header_lines "AUTONOMOUS INSURANCE CLAIMS PROCESSING - DEMO"
    ++ ["📁 Processing: " +:+ sample_file +:+ line_break]
    ++ section_lines "📄 FIELD EXTRACTION" in
  match fs sample_file with
  | Return text =>
      exists fields,
        length fields = 4
        /\ demo_complete_flow fs sample_file out
           = (out ++ banner ++ fields ++ section_lines "✅ FIELD VALIDATION",
              Raise AttributeError)
  | Raise e => demo_complete_flow fs sample_file out = (out ++ banner, Raise e)
  end.
Proof.
  cbv zeta.
  pose proof (demo_extraction_run fs sample_file
    ((out ++ header_lines "AUTONOMOUS INSURANCE CLAIMS PROCESSING - DEMO")
     ++ ["📁 Processing: " +:+ sample_file +:+ line_break])) as Hx.
  assert (Hstart : forall k : unit -> io unit,
    (print_header "AUTONOMOUS INSURANCE CLAIMS PROCESSING - DEMO" ≫=
       fun _ => print ("📁 Processing: " +:+ sample_file +:+ line_break) ≫= k) out
    = k tt ((out ++ header_lines "AUTONOMOUS INSURANCE CLAIMS PROCESSING - DEMO")
            ++ ["📁 Processing: " +:+ sample_file +:+ line_break])).
  { intros k. now rewrite bind_print_header, bind_print. }
  unfold demo_complete_flow. rewrite Hstart. clear Hstart.
  destruct (fs sample_file) as [text | e].
  - destruct Hx as (fields & Hlen & Hx). exists fields. split; [exact Hlen |].
    rewrite (bind_run _ _ _ _ _ Hx).
    rewrite (bind_run_raise _ _ _ _ _ (demo_validation_raises text _)).
    f_equal. now rewrite <- !app_assoc.
  - rewrite (bind_run_raise _ _ _ _ _ Hx). f_equal. now rewrite <- !app_assoc.
Qed.

Lemma flatten_reads (extracted : nested) :
  Forall (fun s => is_Some (extracted !! s)) SECTIONS ->
  exists rec,
    flatten_extracted_data extracted = Return rec
    /\ rec !! "description_of_accident"
       = Some (default PyNone (lookup2 extracted "incident_information" "description"))
    /\ rec !! "estimated_damage"
       = Some (default PyNone (lookup2 extracted "asset_details" "estimated_damage")).
Proof.
  intros H. exists (flatten_view (lookup2 extracted)).
  split; [apply flatten_models, models_lookup2, H |].
  split; apply flatten_view_lookup; cbn; auto 20.
Qed.

Ltac lookup_insert :=
  repeat (rewrite lookup_insert_ne by discriminate); rewrite lookup_insert_eq.

Lemma five_sections (extracted : nested) :
  is_Some (extracted !! "policy_information") ->
  is_Some (extracted !! "incident_information") ->
  is_Some (extracted !! "involved_parties") ->
  is_Some (extracted !! "asset_details") ->
  is_Some (extracted !! "other_fields") ->
  Forall (fun s => is_Some (extracted !! s)) SECTIONS.
Proof. intros. unfold SECTIONS. repeat constructor; assumption. Qed.

Ltac sections_present :=
  apply five_sections; (eexists; lookup_insert; reflexivity).

Lemma route_icon_covers (route : string) :
  In route ROUTES ->
  In (route, assoc_get route_icon route "📌") route_icon.
Proof.
  intros H. cbn in H.
  destruct H as [<- | [<- | [<- | [<- | [<- | []]]]]]; vm_compute; auto 6.
Qed.

(** On a file that can be read, the routing step of the demo prints its
    heading and then either shows a route, which is one of the five, with
    the pictograph of that route (never the stand-in of the lookup), or
    ends with [ValueError]: the amount that [extract_from_pdf] would turn
    into [None] is converted here outside any [try]. *)
Theorem demo_routing_outcome (fs : string -> outcome string)
  (sample_file text : string) (out : list string) :
  fs sample_file = Return text ->
  (exists amount,
     _extract_field text "ESTIMATE AMOUNT:[:\s]*\$?([0-9,]+(?:\.\d{2})?)"
     = Return (Some amount)
     /\ Float.float (Str.replace ","%char "" amount) = Raise ValueError
     /\ demo_routing fs sample_file out
        = (out ++ section_lines "🎯 ROUTING DECISION", Raise ValueError))
  \/ exists route reasoning icon,
       demo_routing fs sample_file out
       = (out ++ section_lines "🎯 ROUTING DECISION"
              ++ [ "  Route: " +:+ route;
                   "  Reasoning: " +:+ reasoning;
                   line_break +:+ "  " +:+ icon
                   +:+ " Claim will be sent to: " +:+ route ],
          Return tt)
       /\ In route ROUTES
       /\ In (route, icon) route_icon.
Proof.
  intros Hfs. unfold demo_routing. rewrite bind_print_section, Hfs, bind_lift_return.
  rewrite !(extract_field_returns text) by (vm_compute; reflexivity).
  rewrite !bind_lift_return. cbv beta zeta.
  set (o := out ++ section_lines "🎯 ROUTING DECISION").
  assert (Hprint : forall (rec : record) (o' : list string),
    (forall x, dict_get rec "description_of_accident" <> PyNum x) ->
    (forall s, dict_get rec "estimated_damage" <> PyStr s) ->
    exists route reasoning,
      (lift (route_claim rec (validate_fields rec)) ≫=
         fun '(route, reasoning) =>
           print ("  Route: " +:+ route);;
           print ("  Reasoning: " +:+ reasoning);;
           print (line_break +:+ "  " +:+ assoc_get route_icon route "📌"
                  +:+ " Claim will be sent to: " +:+ route)) o'
      = (o' ++ [ "  Route: " +:+ route; "  Reasoning: " +:+ reasoning;
                 line_break +:+ "  " +:+ assoc_get route_icon route "📌"
                 +:+ " Claim will be sent to: " +:+ route ], Return tt)
      /\ In route ROUTES).
  { intros rec o' H1 H2.
    destruct (validated_route rec H1 H2) as (route & why & Hr & Hin & _).
    exists route, why. rewrite Hr, bind_lift_return. split; [| exact Hin].
    unfold mbind, io_bind, print. cbv beta iota. now rewrite <- !app_assoc. }
  destruct (extracted_value text "ESTIMATE AMOUNT:[:\s]*\$?([0-9,]+(?:\.\d{2})?)")
    as [amount|] eqn:Ea.
  - assert (Hamount : _extract_field text
              "ESTIMATE AMOUNT:[:\s]*\$?([0-9,]+(?:\.\d{2})?)" = Return (Some amount)).
    { rewrite extract_field_returns by (vm_compute; reflexivity). now rewrite Ea. }
    unfold truthy_opt. cbn [of_optional truthy str_of].
    rewrite (extracted_value_truthy _ _ _ Ea).
    destruct (Float.float (Str.replace ","%char "" amount)) as [x | err] eqn:Ef.
    + right. rewrite bind_bind, bind_lift_return.
      unfold updated, store. lookup_insert.
      unfold mret at 1, io_ret at 1. unfold mbind at 1, io_bind at 1. cbv beta iota.
      match goal with
      | |- context [flatten_extracted_data ?e] =>
          destruct (flatten_reads e) as (rec & -> & Hd & Hx); [sections_present |]
      end.
      unfold lookup2 in Hd, Hx. revert Hd Hx. lookup_insert. lookup_insert.
      lookup_insert. lookup_insert. cbn [default from_option id]. intros Hd Hx.
      rewrite bind_lift_return. cbv beta zeta.
      destruct (Hprint rec o) as (route & why & Hrun & Hin).
      { intros y. unfold dict_get. rewrite Hd. apply of_optional_typed. }
      { intros s. unfold dict_get. rewrite Hx. discriminate. }
      exists route, why, (assoc_get route_icon route "📌").
      split; [| split; [exact Hin | now apply route_icon_covers]].
      rewrite Hrun. unfold o. now rewrite <- !app_assoc.
    + left. apply float_raises in Ef as E. subst err. exists amount.
      split; [reflexivity |]. split; [exact Ef |].
      rewrite bind_bind, bind_lift_raise. reflexivity.
  - right. unfold truthy_opt. cbn [of_optional truthy].
    unfold mret at 1, io_ret at 1. unfold mbind at 1, io_bind at 1. cbv beta iota.
    match goal with
    | |- context [flatten_extracted_data ?e] =>
        destruct (flatten_reads e) as (rec & -> & Hd & Hx); [sections_present |]
    end.
    unfold lookup2 in Hd, Hx. revert Hd Hx. lookup_insert. lookup_insert.
    lookup_insert. lookup_insert. cbn [default from_option id]. intros Hd Hx.
    rewrite bind_lift_return. cbv beta zeta.
    destruct (Hprint rec o) as (route & why & Hrun & Hin).
    { intros y. unfold dict_get. rewrite Hd. apply of_optional_typed. }
    { intros s. unfold dict_get. rewrite Hx. discriminate. }
    exists route, why, (assoc_get route_icon route "📌").
    split; [| split; [exact Hin | now apply route_icon_covers]].
    rewrite Hrun. unfold o. now rewrite <- !app_assoc.
Qed.

Lemma demo_routing_outcome_witness :
  every_file comma_amount_text "fnol.txt" = Return comma_amount_text
  /\ demo_routing (every_file comma_amount_text) "fnol.txt" []
     = (section_lines "🎯 ROUTING DECISION", Raise ValueError).
Proof.
  assert (H : every_file comma_amount_text "fnol.txt" = Return comma_amount_text)
    by reflexivity.
  split; [exact H |].
  destruct (demo_routing_outcome _ _ _ [] H)
    as [(amount & _ & _ & Hrun) | (route & why & icon & Hrun & _)].
  - exact Hrun.
  - assert (Hc : snd (demo_routing (every_file comma_amount_text) "fnol.txt" [])
                 = Raise ValueError) by (vm_compute; reflexivity).
    rewrite Hrun in Hc. discriminate Hc.
Defined.

(** ** An amount printed is the amount read *)








Lemma digit_fold_app (a b : string) :
  forall mant, digit_fold mant (a +:+ b) = digit_fold (digit_fold mant a) b.
Proof.
  induction a as [|c a IH]; intros mant; [reflexivity |].
  rewrite append_cons. cbn [digit_fold]. apply IH.
Qed.
















